(** * erigon-lib, package [state]: commitment domain and aggregator

    A shallow embedding of the parts of [state/domain_committed.go] and
    [state/aggregator_v3.go] that carry the commitment short keys, the
    commitment state record, the touch accumulator, the build threshold, the
    cross-component frontier and the per-step reader views, followed by the
    properties established about them.

    Conventions.  A Go [uintN] is a [Z] in [0, 2^N) with every wrap-around
    written out; a [byte] is a [Z] in [0, 256); a slice is its visible
    elements together with the part of its backing array that lies between
    its length and its capacity; a run-time panic is the [Panic] outcome. *)

From Stdlib Require Import String Ascii DecimalString.
From Stdlib Require Import ZArith Arith Bool Lia List Sorted.
Import ListNotations.

Local Open Scope Z_scope.

(* ================================================================= *)
(** * Part I: the embedding *)
(* ================================================================= *)

(** ** Go primitives *)

Module Go.

(** Conversions [uint64(x)], [uint16(x)], [byte(x)]: truncation. *)
Definition uint64 (x : Z) : Z := x mod 2 ^ 64.
Definition uint16 (x : Z) : Z := x mod 2 ^ 16.
Definition byte (x : Z) : Z := x mod 2 ^ 8.

(** [math.MaxUint64]. *)
Definition MaxUint64 : Z := 2 ^ 64 - 1.

(** An [error] value is rendered by its message; [nil] is [None]. *)
Definition error : Type := string.

(** Outcome of a computation that may panic. *)
Inductive result (A : Type) : Type :=
| Ret (a : A)
| Panic.
Arguments Ret {A} a.
Arguments Panic {A}.

Definition bind {A B : Type} (m : result A) (k : A -> result B) : result B :=
  match m with
  | Ret a => k a
  | Panic => Panic
  end.

(** A slice: [elems] are the elements below [len], [spare] the elements of
    the backing array from [len] up to [cap]. *)
Record slice : Type := mkSlice { elems : list Z; spare : list Z }.

Definition len (s : slice) : nat := length (elems s).
Definition cap (s : slice) : nat := (length (elems s) + length (spare s))%nat.

(** A slice whose capacity equals its length, and the [nil] slice. *)
Definition of_list (l : list Z) : slice := mkSlice l [].
Definition nil_slice : slice := mkSlice [] [].

(** [s[lo:hi]]: panics unless [lo <= hi <= cap(s)]. *)
Definition reslice (s : slice) (lo hi : nat) : result slice :=
  if ((lo <=? hi) && (hi <=? cap s))%nat then
    let arr := elems s ++ spare s in
    Ret (mkSlice (firstn (hi - lo) (skipn lo arr)) (skipn hi arr))
  else Panic.

(** [s[lo:]]: the upper bound defaults to [len(s)]. *)
Definition reslice_from (s : slice) (lo : nat) : result slice :=
  if (lo <=? len s)%nat then
    Ret (mkSlice (skipn lo (elems s)) (spare s))
  else Panic.

(** [copy(dst, src)] on the visible elements: the first
    [min(len(dst), len(src))] elements of [dst] are overwritten. *)
Definition copy (dst src : list Z) : list Z :=
  firstn (length dst) src ++ skipn (length src) dst.

(** [make([]byte, n)]. *)
Definition make (n : nat) : list Z := repeat 0 n.

(** Writing the bytes [bs] into an array at offset [off]. *)
Definition store (arr : list Z) (off : nat) (bs : list Z) : list Z :=
  firstn off arr ++ bs ++ skipn (off + length bs) arr.

(** [%d] of an unsigned integer. *)
Definition itoa (n : Z) : string := NilZero.string_of_uint (N.to_uint (Z.to_N n)).

End Go.

Import Go.

Declare Scope go_scope.
Delimit Scope go_scope with go.
Notation "x <- m ;; k" := (bind m (fun x => k))
  (at level 61, m at next level, right associativity) : go_scope.
Local Open Scope go_scope.

(** ** [encoding/binary], big endian *)

Module BigEndian.

(** Bytes stored by [PutUint16(b, v)] and [PutUint64(b, v)]. *)
Definition bytes16 (v : Z) : list Z :=
  [byte (Z.shiftr v 8); byte v].

Definition bytes64 (v : Z) : list Z :=
  [byte (Z.shiftr v 56); byte (Z.shiftr v 48); byte (Z.shiftr v 40);
   byte (Z.shiftr v 32); byte (Z.shiftr v 24); byte (Z.shiftr v 16);
   byte (Z.shiftr v 8); byte v].

(** [Uint16(b)]: bounds check on [b[1]], then [b[1] | b[0]<<8]. *)
Definition Uint16 (b : list Z) : result Z :=
  match b with
  | b0 :: b1 :: _ => Ret (Z.lor b1 (Z.shiftl b0 8))
  | _ => Panic
  end.

(** [Uint64(b)]: bounds check on [b[7]], then
    [b[7] | b[6]<<8 | ... | b[0]<<56]. *)
Definition Uint64 (b : list Z) : result Z :=
  match b with
  | b0 :: b1 :: b2 :: b3 :: b4 :: b5 :: b6 :: b7 :: _ =>
      Ret (Z.lor (Z.lor (Z.lor (Z.lor (Z.lor (Z.lor (Z.lor
             b7 (Z.shiftl b6 8)) (Z.shiftl b5 16)) (Z.shiftl b4 24))
             (Z.shiftl b3 32)) (Z.shiftl b2 40)) (Z.shiftl b1 48))
             (Z.shiftl b0 56))
  | _ => Panic
  end.

End BigEndian.

(** ** [state/domain_committed.go]: keys and state records *)

Module Committed.

(** [decodeU64]: folds the bytes into a [uint64], most significant first. *)
Definition decodeU64 (from : list Z) : Z :=
  fold_left (fun i b => Z.lor (uint64 (Z.shiftl i 8)) b) from 0.

(** [encodeU64]: appends [i] to [to] in big-endian order on the least
    number of bytes. *)
Definition encodeU64 (i : Z) (to : list Z) : list Z :=
  if i <? 2 ^ 8 then
    to ++ [byte i]
  else if i <? 2 ^ 16 then
    to ++ [byte (Z.shiftr i 8); byte i]
  else if i <? 2 ^ 24 then
    to ++ [byte (Z.shiftr i 16); byte (Z.shiftr i 8); byte i]
  else if i <? 2 ^ 32 then
    to ++ [byte (Z.shiftr i 24); byte (Z.shiftr i 16); byte (Z.shiftr i 8);
           byte i]
  else if i <? 2 ^ 40 then
    to ++ [byte (Z.shiftr i 32); byte (Z.shiftr i 24); byte (Z.shiftr i 16);
           byte (Z.shiftr i 8); byte i]
  else if i <? 2 ^ 48 then
    to ++ [byte (Z.shiftr i 40); byte (Z.shiftr i 32); byte (Z.shiftr i 24);
           byte (Z.shiftr i 16); byte (Z.shiftr i 8); byte i]
  else if i <? 2 ^ 56 then
    to ++ [byte (Z.shiftr i 48); byte (Z.shiftr i 40); byte (Z.shiftr i 32);
           byte (Z.shiftr i 24); byte (Z.shiftr i 16); byte (Z.shiftr i 8);
           byte i]
  else
    to ++ [byte (Z.shiftr i 56); byte (Z.shiftr i 48); byte (Z.shiftr i 40);
           byte (Z.shiftr i 32); byte (Z.shiftr i 24); byte (Z.shiftr i 16);
           byte (Z.shiftr i 8); byte i].

(** [shortenedKey]: the step is read from [apk[:2]], the offset from
    [apk[1:]]. *)
Definition shortenedKey (apk : slice) : result (Z * Z) :=
  hd <- reslice apk 0 2 ;;
  step <- BigEndian.Uint16 (elems hd) ;;
  tl <- reslice_from apk 1 ;;
  Ret (step, decodeU64 (elems tl)).

(** The short key that [replaceKeyWithReference] builds for a data file
    ending at step [step] and a record at [offset]:
    [PutUint16(numBuf[:], step)] and then [encodeU64(offset, numBuf[:])]. *)
Definition shortKeyOf (step offset : Z) : list Z :=
  let numBuf := store (make 2) 0 (BigEndian.bytes16 step) in
  encodeU64 offset numBuf.

Record commitmentState : Type := mkCommitmentState {
  txNum : Z;
  blockNum : Z;
  trieState : list Z
}.

(** The zero value [var latest commitmentState]. *)
Definition zeroState : commitmentState := mkCommitmentState 0 0 [].

(** [commitmentState.Decode].  The receiver is updated field by field; the
    outcome carries the receiver as it is on return. *)
Definition Decode (cs : commitmentState) (buf : slice)
  : result (commitmentState * option error) :=
  if (len buf <? 10)%nat then
    Ret (cs, Some "ivalid commitment state buffer size"%string)
  else
    b <- reslice buf 0 8 ;;
    tx <- BigEndian.Uint64 (elems b) ;;
    let cs := mkCommitmentState tx (blockNum cs) (trieState cs) in
    b <- reslice buf 8 16 ;;
    bn <- BigEndian.Uint64 (elems b) ;;
    let cs := mkCommitmentState (txNum cs) bn (trieState cs) in
    b <- reslice buf 16 18 ;;
    n <- BigEndian.Uint16 (elems b) ;;
    let cs := mkCommitmentState (txNum cs) (blockNum cs) (make (Z.to_nat n)) in
    if ((length (trieState cs) =? 0) && (len buf =? 10))%nat then
      Ret (cs, None)
    else
      b <- reslice buf 18 (18 + length (trieState cs)) ;;
      Ret (mkCommitmentState (txNum cs) (blockNum cs)
             (copy (trieState cs) (elems b)), None).

(** [commitmentState.Encode]: an 18-byte header written into [v], then the
    trie state; writes to a [bytes.Buffer] do not fail. *)
Definition Encode (cs : commitmentState) : list Z * option error :=
  let v := make 18 in
  let v := store v 0 (BigEndian.bytes64 (txNum cs)) in
  let v := store v 8 (BigEndian.bytes64 (blockNum cs)) in
  let v := store v 16
             (BigEndian.bytes16 (uint16 (Z.of_nat (length (trieState cs))))) in
  (v ++ trieState cs, None).

(** *** Touch accumulator *)

(** Modelled from the spec: the constants [length.Addr] and [length.Hash]
    of package [common/length], which is not among the sources; the spec
    gives a 20-byte address and a 52-byte address-and-slot key. *)
Definition length_Addr : nat := 20.
Definition length_Hash : nat := 32.

Definition CommitmentModeDisabled : Z := 0.
Definition CommitmentModeDirect : Z := 1.
Definition CommitmentModeUpdate : Z := 2.

(** [commitment.Update], with the fields this file reads and writes;
    [CodeHashOrStorage] is a byte array of [length.Hash] elements. *)
Record Update : Type := mkUpdate {
  Flags : Z;
  Balance : Z;
  Nonce : Z;
  CodeHashOrStorage : list Z;
  ValLength : Z
}.

Definition zeroUpdate : Update := mkUpdate 0 0 0 (make length_Hash) 0.

Definition setFlags (u : Update) (f : Z) : Update :=
  mkUpdate f (Balance u) (Nonce u) (CodeHashOrStorage u) (ValLength u).
Definition setBalance (u : Update) (b : Z) : Update :=
  mkUpdate (Flags u) b (Nonce u) (CodeHashOrStorage u) (ValLength u).
Definition setNonce (u : Update) (n : Z) : Update :=
  mkUpdate (Flags u) (Balance u) n (CodeHashOrStorage u) (ValLength u).
Definition setCodeHashOrStorage (u : Update) (h : list Z) : Update :=
  mkUpdate (Flags u) (Balance u) (Nonce u) h (ValLength u).
Definition setValLength (u : Update) (n : Z) : Update :=
  mkUpdate (Flags u) (Balance u) (Nonce u) (CodeHashOrStorage u) n.

Record CommitmentItem : Type := mkCommitmentItem {
  plainKey : list Z;
  hashedKey : list Z;
  update : Update
}.

Definition setUpdate (c : CommitmentItem) (u : Update) : CommitmentItem :=
  mkCommitmentItem (plainKey c) (hashedKey c) u.

(** [bytes.Compare]: lexicographic order. *)
Fixpoint bytes_Compare (a b : list Z) : comparison :=
  match a, b with
  | [], [] => Eq
  | [], _ :: _ => Lt
  | _ :: _, [] => Gt
  | x :: a', y :: b' =>
      match x ?= y with
      | Eq => bytes_Compare a' b'
      | c => c
      end
  end.

Definition commitmentItemLess (i j : CommitmentItem) : bool :=
  match bytes_Compare (hashedKey i) (hashedKey j) with
  | Lt => true
  | _ => false
  end.

(** The ordered set [btree.BTreeG[*CommitmentItem]] under
    [commitmentItemLess], as the ascending list of its items. *)
Definition BTree : Type := list CommitmentItem.

Fixpoint ReplaceOrInsert (c : CommitmentItem) (t : BTree) : BTree :=
  match t with
  | [] => [c]
  | x :: t' =>
      if commitmentItemLess c x then c :: x :: t'
      else if commitmentItemLess x c then x :: ReplaceOrInsert c t'
      else c :: t'
  end.

Fixpoint Get (k : CommitmentItem) (t : BTree) : option CommitmentItem :=
  match t with
  | [] => None
  | x :: t' =>
      if commitmentItemLess k x then None
      else if commitmentItemLess x k then Get k t'
      else Some x
  end.

(** [keyCommitmentState = []byte("state")]. *)
Definition keyCommitmentState : list Z := [115; 116; 97; 116; 101].

Section Domain.

(** Package [commitment] and the hash are not among the sources: the
    update flags, the decoder of an account value, Keccak-256 and the
    hex-patricia trie are taken as given. *)
Context (CODE_UPDATE DELETE_UPDATE BALANCE_UPDATE NONCE_UPDATE
         STORAGE_UPDATE : Z).
Context (DecodeForStorage : Update -> list Z -> result Update).
Context (keccak256 : list Z -> list Z).
Context {Trie BranchData : Type}.
Context (trie_RootHash : Trie -> Trie * (list Z * option error)).
Context (trie_Reset : Trie -> Trie).
Context (trie_SetTrace : Trie -> bool -> Trie).
Context (trie_ReviewKeys :
  Trie -> list (list Z) -> list (list Z) ->
  Trie * (list Z * option BranchData * option error)).
Context (trie_ProcessUpdates :
  Trie -> list (list Z) -> list (list Z) -> list Update ->
  Trie * (list Z * option BranchData * option error)).
Context (trie_SetState : Trie -> list Z -> Trie * option error).

(** [DomainCommitted]: the mode, the accumulator, the trie, and of the
    embedded [Domain] the transaction number set by [SetTxNum]. *)
Record DomainCommitted : Type := mkDomainCommitted {
  mode : Z;
  commTree : BTree;
  patriciaTrie : Trie;
  domainTxNum : Z
}.

Definition setCommTree (d : DomainCommitted) (t : BTree) : DomainCommitted :=
  mkDomainCommitted (mode d) t (patriciaTrie d) (domainTxNum d).
Definition setTrie (d : DomainCommitted) (t : Trie) : DomainCommitted :=
  mkDomainCommitted (mode d) (commTree d) t (domainTxNum d).
Definition SetTxNum (d : DomainCommitted) (n : Z) : DomainCommitted :=
  mkDomainCommitted (mode d) (commTree d) (patriciaTrie d) n.
Definition SetCommitmentMode (d : DomainCommitted) (m : Z) : DomainCommitted :=
  mkDomainCommitted m (commTree d) (patriciaTrie d) (domainTxNum d).

(** [ctx.Get(key, subkey, d.tx)] on the domain as it stands. *)
Context (ctx_Get :
  DomainCommitted -> list Z -> list Z -> slice * option error).

(** [hashAndNibblizeKey].  [key[length.Addr:]] panics when the key is
    shorter than an address, whatever its capacity. *)
Definition hashAndNibblizeKey (key : list Z) : result (list Z) :=
  let hashedKey := make length_Hash in
  if (length key <? length_Addr)%nat then Panic
  else
    let hashedKey := copy hashedKey (keccak256 (firstn length_Addr key)) in
    let rest := skipn length_Addr key in
    let hashedKey :=
      if (0 <? length rest)%nat then
        let hashedKey := hashedKey ++ make length_Hash in
        firstn length_Hash hashedKey
          ++ copy (skipn length_Hash hashedKey) (keccak256 rest)
      else hashedKey in
    Ret (flat_map
           (fun b => [Z.land (Z.shiftr b 4) 15; Z.land b 15])
           hashedKey).

Definition TouchPlainKeyAccount (d : DomainCommitted) (c : CommitmentItem)
  (val : list Z) : result CommitmentItem :=
  if (length val =? 0)%nat then
    Ret (setUpdate c (setFlags (update c) DELETE_UPDATE))
  else
    u <- DecodeForStorage (update c) val ;;
    let u := setFlags u (Z.lor BALANCE_UPDATE NONCE_UPDATE) in
    match Get (mkCommitmentItem [] (hashedKey c) zeroUpdate) (commTree d) with
    | None => Ret (setUpdate c u)
    | Some item =>
        if negb (Z.land (Flags (update item)) CODE_UPDATE =? 0) then
          let u := setFlags u (Z.lor (Flags u) CODE_UPDATE) in
          let u := setCodeHashOrStorage u
                     (copy (CodeHashOrStorage u)
                           (CodeHashOrStorage (update item))) in
          Ret (setUpdate c u)
        else Ret (setUpdate c u)
    end.

Definition TouchPlainKeyStorage (d : DomainCommitted) (c : CommitmentItem)
  (val : list Z) : result CommitmentItem :=
  let u := setValLength (update c) (Z.of_nat (length val)) in
  if (length val =? 0)%nat then
    Ret (setUpdate c (setFlags u DELETE_UPDATE))
  else
    let u := setFlags u STORAGE_UPDATE in
    Ret (setUpdate c
           (setCodeHashOrStorage u (copy (CodeHashOrStorage u) val))).

Definition TouchPlainKeyCode (d : DomainCommitted) (c : CommitmentItem)
  (val : list Z) : result CommitmentItem :=
  let u := setFlags (update c) CODE_UPDATE in
  match Get (setUpdate c u) (commTree d) with
  | None =>
      Ret (setUpdate c
             (setCodeHashOrStorage u
                (copy (CodeHashOrStorage u) (keccak256 val))))
  | Some item =>
      let u :=
        if negb (Z.land (Flags (update item)) BALANCE_UPDATE =? 0) then
          setBalance (setFlags u (Z.lor (Flags u) BALANCE_UPDATE))
            (Balance (update item))
        else u in
      let u :=
        if negb (Z.land (Flags (update item)) NONCE_UPDATE =? 0) then
          setNonce (setFlags u (Z.lor (Flags u) NONCE_UPDATE))
            (Nonce (update item))
        else u in
      if (Flags (update item) =? DELETE_UPDATE) && (length val =? 0)%nat then
        Ret (setUpdate c (setFlags u DELETE_UPDATE))
      else
        Ret (setUpdate c
               (setCodeHashOrStorage u
                  (copy (CodeHashOrStorage u) (keccak256 val))))
  end.

(** [TouchPlainKey]: [fn] is the per-kind method value bound to [d]. *)
Definition TouchPlainKey (d : DomainCommitted) (key val : list Z)
  (fn : CommitmentItem -> list Z -> result CommitmentItem)
  : result DomainCommitted :=
  if mode d =? CommitmentModeDisabled then Ret d
  else
    hk <- hashAndNibblizeKey key ;;
    let c := mkCommitmentItem key hk zeroUpdate in
    c <- (if mode d >? CommitmentModeDirect then fn c val else Ret c) ;;
    Ret (setCommTree d (ReplaceOrInsert c (commTree d))).

(** [TouchedKeyList]: the items in ascending order, then [Clear]. *)
Definition TouchedKeyList (d : DomainCommitted)
  : DomainCommitted * (list (list Z) * list (list Z) * list Update) :=
  let plainKeys := map plainKey (commTree d) in
  let hashedKeys := map hashedKey (commTree d) in
  let updates := map update (commTree d) in
  (setCommTree d [], (plainKeys, hashedKeys, updates)).

(** [ComputeCommitment]: a [nil] root hash is the empty list. *)
Definition ComputeCommitment (d : DomainCommitted) (trace : bool)
  : DomainCommitted * (list Z * option BranchData * option error) :=
  let '(d, (touchedKeys, hashedKeys, updates)) := TouchedKeyList d in
  if (length touchedKeys =? 0)%nat then
    let '(t, (rootHash, err)) := trie_RootHash (patriciaTrie d) in
    (setTrie d t, (rootHash, None, err))
  else
    let d := setTrie d (trie_Reset (patriciaTrie d)) in
    let d := setTrie d (trie_SetTrace (patriciaTrie d) trace) in
    if mode d =? CommitmentModeDirect then
      let '(t, (rootHash, branchNodeUpdates, err)) :=
        trie_ReviewKeys (patriciaTrie d) touchedKeys hashedKeys in
      match err with
      | Some e => (setTrie d t, ([], None, Some e))
      | None => (setTrie d t, (rootHash, branchNodeUpdates, err))
      end
    else if mode d =? CommitmentModeUpdate then
      let '(t, (rootHash, branchNodeUpdates, err)) :=
        trie_ProcessUpdates (patriciaTrie d) touchedKeys hashedKeys updates in
      match err with
      | Some e => (setTrie d t, ([], None, Some e))
      | None => (setTrie d t, (rootHash, branchNodeUpdates, err))
      end
    else
      (d, ([], None,
           Some ("invalid commitment mode: " ++ itoa (mode d))%string)).

(** *** [SeekCommitment] *)

(** How the search loop is left: by the [return 0, err] on a failed
    [Get], or by a [break] with the latest state seen. *)
Inductive seekExit : Type :=
| SeekFailed (e : error)
| SeekBreak (latestState : slice).

(** The [for] loop of [SeekCommitment]; [None] when [fuel] iterations do
    not reach an exit. *)
Fixpoint seekLoop (fuel : nat) (aggStep : Z) (d : DomainCommitted)
  (step latestTxNum : Z) (latestState : slice)
  : option (result (DomainCommitted * seekExit)) :=
  match fuel with
  | O => None
  | S fuel' =>
      let stepbuf := store (make 2) 0 (BigEndian.bytes16 step) in
      let '(s, err) := ctx_Get d keyCommitmentState stepbuf in
      match err with
      | Some e => Some (Ret (d, SeekFailed e))
      | None =>
          if (len s <? 8)%nat then Some (Ret (d, SeekBreak latestState))
          else
            match BigEndian.Uint64 (elems s) with
            | Panic => Some Panic
            | Ret v =>
                if (v =? latestTxNum) && negb (len latestState =? 0)%nat
                then Some (Ret (d, SeekBreak latestState))
                else
                  let latestTxNum := v in
                  let latestState := s in
                  let lookupTxN := uint64 (latestTxNum + aggStep) in
                  let step := uint16 (uint16 (latestTxNum / aggStep) + 1) in
                  seekLoop fuel' aggStep (SetTxNum d lookupTxN)
                    step latestTxNum latestState
            end
      end
  end.

(** What follows the loop. *)
Definition seekFinish (r : DomainCommitted * seekExit)
  : result (DomainCommitted * (Z * option error)) :=
  let '(d, ex) := r in
  match ex with
  | SeekFailed e => Ret (d, (0, Some e))
  | SeekBreak latestState =>
      r <- Decode zeroState latestState ;;
      let '(latest, err) := r in
      match err with
      | Some _ => Ret (d, (0, None))
      | None =>
          let '(t, err) := trie_SetState (patriciaTrie d) (trieState latest) in
          match err with
          | Some e => Ret (setTrie d t, (0, Some e))
          | None => Ret (setTrie d t, (txNum latest, None))
          end
      end
  end.

(** The head of [SeekCommitment] up to the end of its loop; the division
    panics when [aggStep] is zero. *)
Definition seekSearch (fuel : nat) (d : DomainCommitted)
  (aggStep sinceTx : Z) : option (result (DomainCommitted * seekExit)) :=
  if aggStep =? 0 then Some Panic
  else
    let step := uint16 (uint16 (sinceTx / aggStep) - 1) in
    let latestTxNum := uint64 (sinceTx - 1) in
    let d := SetTxNum d latestTxNum in
    seekLoop fuel aggStep d step latestTxNum nil_slice.

(** [SeekCommitment]. *)
Definition SeekCommitment (fuel : nat) (d : DomainCommitted)
  (aggStep sinceTx : Z)
  : option (result (DomainCommitted * (Z * option error))) :=
  match seekSearch fuel d aggStep sinceTx with
  | None => None
  | Some r => Some (r <- r ;; seekFinish r)
  end.

End Domain.

End Committed.

(** ** [state/aggregator_v3.go] *)

Module Aggregator.

(** The seven components the aggregator owns. *)
Inductive component : Type :=
| Accounts | Storage | Code | LogAddrs | LogTopics | TracesFrom | TracesTo.

(** A goroutine started by the aggregator. *)
Inductive task : Type :=
| BuildTask (step toTxNum : Z)
| MergeTask.

(** Calls made on the components and goroutines started, in order. *)
Inductive event : Type :=
| Collated (c : component) (step txFrom txTo : Z)
| Built (c : component) (step : Z)
| Integrated (txNumFrom txNumTo : Z)
| Started (t : task).

Section Components.

(** [History], [InvertedIndex] and what they produce live in files that
    are not among the sources; their methods are taken as given. *)
Context {History InvertedIndex HistoryCollation InvertedCollation
         HistoryFiles InvertedFiles HistoryStep DB : Type}.
Context (NewHistory :
  string -> string -> Z -> string -> bool -> History * option error).
Context (NewInvertedIndex :
  string -> string -> Z -> string -> InvertedIndex * option error).
Context (h_endTxNumMinimax : History -> Z).
Context (ii_endTxNumMinimax : InvertedIndex -> Z).
Context (h_endIndexedTxNumMinimax : History -> Z).
Context (h_indexKeysTable : History -> string).
Context (h_collate :
  History -> Z -> Z -> Z -> DB -> HistoryCollation * option error).
Context (h_buildFiles :
  History -> Z -> HistoryCollation -> HistoryFiles * option error).
Context (ii_collate :
  InvertedIndex -> Z -> Z -> DB -> InvertedCollation * option error).
Context (ii_buildFiles :
  InvertedIndex -> Z -> InvertedCollation -> InvertedFiles * option error).
Context (h_integrateFiles : History -> HistoryFiles -> Z -> Z -> History).
Context (ii_integrateFiles :
  InvertedIndex -> InvertedFiles -> Z -> Z -> InvertedIndex).
Context (h_MakeSteps : History -> Z -> list HistoryStep).
Context (lastIdInDB : DB -> string -> Z).
Context (noHistoryFiles : HistoryFiles) (noInvertedFiles : InvertedFiles).

Record AggregatorV3 : Type := mkAggregatorV3 {
  storage : History;
  tracesTo : InvertedIndex;
  code : History;
  logAddrs : InvertedIndex;
  logTopics : InvertedIndex;
  tracesFrom : InvertedIndex;
  accounts : History;
  dir : string;
  tmpdir : string;
  txNum : Z;
  aggregationStep : Z;
  keepInDB : Z;
  maxTxNum : Z;
  working : bool;
  workingMerge : bool
}.

Definition NewAggregatorV3 (dir tmpdir : string) (aggregationStep : Z)
  (nilH : History) (nilI : InvertedIndex) : AggregatorV3 * option error :=
  (mkAggregatorV3 nilH nilI nilH nilI nilI nilI nilH dir tmpdir 0
     aggregationStep (uint64 (2 * aggregationStep)) 0 false false, None).

Definition setComponents (a : AggregatorV3)
  (acc sto cod : History) (la lto tf tto : InvertedIndex) : AggregatorV3 :=
  mkAggregatorV3 sto tto cod la lto tf acc (dir a) (tmpdir a) (txNum a)
    (aggregationStep a) (keepInDB a) (maxTxNum a) (working a)
    (workingMerge a).

Definition setMaxTxNum (a : AggregatorV3) (n : Z) : AggregatorV3 :=
  mkAggregatorV3 (storage a) (tracesTo a) (code a) (logAddrs a)
    (logTopics a) (tracesFrom a) (accounts a) (dir a) (tmpdir a) (txNum a)
    (aggregationStep a) (keepInDB a) n (working a) (workingMerge a).

Definition setWorking (a : AggregatorV3) (b : bool) : AggregatorV3 :=
  mkAggregatorV3 (storage a) (tracesTo a) (code a) (logAddrs a)
    (logTopics a) (tracesFrom a) (accounts a) (dir a) (tmpdir a) (txNum a)
    (aggregationStep a) (keepInDB a) (maxTxNum a) b (workingMerge a).

Definition setWorkingMerge (a : AggregatorV3) (b : bool) : AggregatorV3 :=
  mkAggregatorV3 (storage a) (tracesTo a) (code a) (logAddrs a)
    (logTopics a) (tracesFrom a) (accounts a) (dir a) (tmpdir a) (txNum a)
    (aggregationStep a) (keepInDB a) (maxTxNum a) (working a) b.

Definition EndTxNumMinimax (a : AggregatorV3) : Z := maxTxNum a.

(** [recalcMaxTxNum]: a running minimum over the seven components. *)
Definition recalcMaxTxNum (a : AggregatorV3) : AggregatorV3 :=
  let min := h_endTxNumMinimax (accounts a) in
  let min :=
    let txNum := h_endTxNumMinimax (storage a) in
    if txNum <? min then txNum else min in
  let min :=
    let txNum := h_endTxNumMinimax (code a) in
    if txNum <? min then txNum else min in
  let min :=
    let txNum := ii_endTxNumMinimax (logAddrs a) in
    if txNum <? min then txNum else min in
  let min :=
    let txNum := ii_endTxNumMinimax (logTopics a) in
    if txNum <? min then txNum else min in
  let min :=
    let txNum := ii_endTxNumMinimax (tracesFrom a) in
    if txNum <? min then txNum else min in
  let min :=
    let txNum := ii_endTxNumMinimax (tracesTo a) in
    if txNum <? min then txNum else min in
  setMaxTxNum a min.

Definition setAccounts (a : AggregatorV3) (h : History) : AggregatorV3 :=
  setComponents a h (storage a) (code a) (logAddrs a) (logTopics a)
    (tracesFrom a) (tracesTo a).
Definition setStorage (a : AggregatorV3) (h : History) : AggregatorV3 :=
  setComponents a (accounts a) h (code a) (logAddrs a) (logTopics a)
    (tracesFrom a) (tracesTo a).
Definition setCode (a : AggregatorV3) (h : History) : AggregatorV3 :=
  setComponents a (accounts a) (storage a) h (logAddrs a) (logTopics a)
    (tracesFrom a) (tracesTo a).
Definition setLogAddrs (a : AggregatorV3) (i : InvertedIndex)
  : AggregatorV3 :=
  setComponents a (accounts a) (storage a) (code a) i (logTopics a)
    (tracesFrom a) (tracesTo a).
Definition setLogTopics (a : AggregatorV3) (i : InvertedIndex)
  : AggregatorV3 :=
  setComponents a (accounts a) (storage a) (code a) (logAddrs a) i
    (tracesFrom a) (tracesTo a).
Definition setTracesFrom (a : AggregatorV3) (i : InvertedIndex)
  : AggregatorV3 :=
  setComponents a (accounts a) (storage a) (code a) (logAddrs a)
    (logTopics a) i (tracesTo a).
Definition setTracesTo (a : AggregatorV3) (i : InvertedIndex)
  : AggregatorV3 :=
  setComponents a (accounts a) (storage a) (code a) (logAddrs a)
    (logTopics a) (tracesFrom a) i.

(** [ReopenFiles]: each component is assigned as soon as it is opened;
    the first failure is returned wrapped, before [recalcMaxTxNum]. *)
Definition ReopenFiles (a : AggregatorV3) : AggregatorV3 * option error :=
  let wrap e := Some ("ReopenFiles: " ++ e)%string in
  let dir := dir a in
  let tmp := tmpdir a in
  let aggregationStep := aggregationStep a in
  let '(h, err) := NewHistory dir tmp aggregationStep "accounts" false in
  let a := setAccounts a h in
  match err with Some e => (a, wrap e) | None =>
  let '(h, err) := NewHistory dir tmp aggregationStep "storage" false in
  let a := setStorage a h in
  match err with Some e => (a, wrap e) | None =>
  let '(h, err) := NewHistory dir tmp aggregationStep "code" true in
  let a := setCode a h in
  match err with Some e => (a, wrap e) | None =>
  let '(i, err) := NewInvertedIndex dir tmp aggregationStep "logaddrs" in
  let a := setLogAddrs a i in
  match err with Some e => (a, wrap e) | None =>
  let '(i, err) := NewInvertedIndex dir tmp aggregationStep "logtopics" in
  let a := setLogTopics a i in
  match err with Some e => (a, wrap e) | None =>
  let '(i, err) := NewInvertedIndex dir tmp aggregationStep "tracesfrom" in
  let a := setTracesFrom a i in
  match err with Some e => (a, wrap e) | None =>
  let '(i, err) := NewInvertedIndex dir tmp aggregationStep "tracesto" in
  let a := setTracesTo a i in
  match err with Some e => (a, wrap e) | None =>
  (recalcMaxTxNum a, None)
  end end end end end end end.

Record Agg22StaticFiles : Type := mkAgg22StaticFiles {
  sf_accounts : HistoryFiles;
  sf_storage : HistoryFiles;
  sf_code : HistoryFiles;
  sf_logAddrs : InvertedFiles;
  sf_logTopics : InvertedFiles;
  sf_tracesFrom : InvertedFiles;
  sf_tracesTo : InvertedFiles
}.

(** [integrateFiles]. *)
Definition integrateFiles (a : AggregatorV3) (sf : Agg22StaticFiles)
  (txNumFrom txNumTo : Z) : AggregatorV3 :=
  let acc := h_integrateFiles (accounts a) (sf_accounts sf) txNumFrom txNumTo in
  let sto := h_integrateFiles (storage a) (sf_storage sf) txNumFrom txNumTo in
  let cod := h_integrateFiles (code a) (sf_code sf) txNumFrom txNumTo in
  let la := ii_integrateFiles (logAddrs a) (sf_logAddrs sf) txNumFrom txNumTo in
  let lto := ii_integrateFiles (logTopics a) (sf_logTopics sf) txNumFrom txNumTo in
  let tf := ii_integrateFiles (tracesFrom a) (sf_tracesFrom sf) txNumFrom txNumTo in
  let tto := ii_integrateFiles (tracesTo a) (sf_tracesTo sf) txNumFrom txNumTo in
  recalcMaxTxNum (setComponents a acc sto cod la lto tf tto).

Definition noStaticFiles : Agg22StaticFiles :=
  mkAgg22StaticFiles noHistoryFiles noHistoryFiles noHistoryFiles
    noInvertedFiles noInvertedFiles noInvertedFiles noInvertedFiles.

(** The two calls [buildFiles] makes for a history component: [collate]
    inside [db.View], then the component's [buildFiles]; the files field
    is assigned by the second call only. *)
Definition buildHistory (c : component) (h : History)
  (step txFrom txTo : Z) (db : DB) (old : HistoryFiles)
  : list event * (HistoryFiles * option error) :=
  let '(coll, err) := h_collate h step txFrom txTo db in
  match err with
  | Some e => ([Collated c step txFrom txTo], (old, Some e))
  | None =>
      ([Collated c step txFrom txTo; Built c step], h_buildFiles h step coll)
  end.

Definition buildInverted (c : component) (ii : InvertedIndex)
  (step txFrom txTo : Z) (db : DB) (old : InvertedFiles)
  : list event * (InvertedFiles * option error) :=
  let '(coll, err) := ii_collate ii txFrom txTo db in
  match err with
  | Some e => ([Collated c step txFrom txTo], (old, Some e))
  | None =>
      ([Collated c step txFrom txTo; Built c step], ii_buildFiles ii step coll)
  end.

(** [AggregatorV3.buildFiles]: the components in source order, stopping
    at the first error with the files built so far. *)
Definition buildFiles (a : AggregatorV3) (step txFrom txTo : Z) (db : DB)
  : list event * (Agg22StaticFiles * option error) :=
  let sf := noStaticFiles in
  let '(t1, (f, err)) :=
    buildHistory Accounts (accounts a) step txFrom txTo db (sf_accounts sf) in
  let sf := mkAgg22StaticFiles f (sf_storage sf) (sf_code sf) (sf_logAddrs sf)
              (sf_logTopics sf) (sf_tracesFrom sf) (sf_tracesTo sf) in
  match err with Some e => (t1, (sf, Some e)) | None =>
  let '(t2, (f, err)) :=
    buildHistory Storage (storage a) step txFrom txTo db (sf_storage sf) in
  let sf := mkAgg22StaticFiles (sf_accounts sf) f (sf_code sf) (sf_logAddrs sf)
              (sf_logTopics sf) (sf_tracesFrom sf) (sf_tracesTo sf) in
  match err with Some e => (t1 ++ t2, (sf, Some e)) | None =>
  let '(t3, (f, err)) :=
    buildHistory Code (code a) step txFrom txTo db (sf_code sf) in
  let sf := mkAgg22StaticFiles (sf_accounts sf) (sf_storage sf) f (sf_logAddrs sf)
              (sf_logTopics sf) (sf_tracesFrom sf) (sf_tracesTo sf) in
  match err with Some e => (t1 ++ t2 ++ t3, (sf, Some e)) | None =>
  let '(t4, (f, err)) :=
    buildInverted LogAddrs (logAddrs a) step txFrom txTo db (sf_logAddrs sf) in
  let sf := mkAgg22StaticFiles (sf_accounts sf) (sf_storage sf) (sf_code sf) f
              (sf_logTopics sf) (sf_tracesFrom sf) (sf_tracesTo sf) in
  match err with Some e => (t1 ++ t2 ++ t3 ++ t4, (sf, Some e)) | None =>
  let '(t5, (f, err)) :=
    buildInverted LogTopics (logTopics a) step txFrom txTo db (sf_logTopics sf) in
  let sf := mkAgg22StaticFiles (sf_accounts sf) (sf_storage sf) (sf_code sf)
              (sf_logAddrs sf) f (sf_tracesFrom sf) (sf_tracesTo sf) in
  match err with Some e => (t1 ++ t2 ++ t3 ++ t4 ++ t5, (sf, Some e)) | None =>
  let '(t6, (f, err)) :=
    buildInverted TracesFrom (tracesFrom a) step txFrom txTo db (sf_tracesFrom sf) in
  let sf := mkAgg22StaticFiles (sf_accounts sf) (sf_storage sf) (sf_code sf)
              (sf_logAddrs sf) (sf_logTopics sf) f (sf_tracesTo sf) in
  match err with
  | Some e => (t1 ++ t2 ++ t3 ++ t4 ++ t5 ++ t6, (sf, Some e))
  | None =>
  let '(t7, (f, err)) :=
    buildInverted TracesTo (tracesTo a) step txFrom txTo db (sf_tracesTo sf) in
  let sf := mkAgg22StaticFiles (sf_accounts sf) (sf_storage sf) (sf_code sf)
              (sf_logAddrs sf) (sf_logTopics sf) (sf_tracesFrom sf) f in
  (t1 ++ t2 ++ t3 ++ t4 ++ t5 ++ t6 ++ t7, (sf, err))
  end end end end end end.

(** [buildFilesInBackground]: build one step and integrate it. *)
Definition buildFilesInBackground (a : AggregatorV3) (step : Z) (db : DB)
  : AggregatorV3 * list event * option error :=
  let txFrom := uint64 (step * aggregationStep a) in
  let txTo := uint64 (uint64 (step + 1) * aggregationStep a) in
  let '(tr, (sf, err)) := buildFiles a step txFrom txTo db in
  match err with
  | Some e => (a, tr, Some e)
  | None => (integrateFiles a sf txFrom txTo, tr ++ [Integrated txFrom txTo], None)
  end.

(** The guard shared by [BuildFiles] and [BuildFilesInBackground],
    in [uint64] arithmetic. *)
Definition belowBuildThreshold (a : AggregatorV3) : bool :=
  uint64 (txNum a + 1)
    <=? uint64 (uint64 (maxTxNum a + aggregationStep a) + keepInDB a).

(** The [for] loop of [BuildFiles] and of the build goroutine: one step
    per iteration while [step] is below the last step in the database;
    an error ends the loop.  [None] when [fuel] iterations do not end
    it. *)
Fixpoint buildLoop (fuel : nat) (a : AggregatorV3) (step : Z) (db : DB)
  : option (AggregatorV3 * list event) :=
  if step <? lastIdInDB db (h_indexKeysTable (accounts a)) / aggregationStep a
  then
    match fuel with
    | O => None
    | S fuel' =>
        let '(a', tr, err) := buildFilesInBackground a step db in
        match err with
        | Some _ => Some (a', tr)
        | None =>
            match buildLoop fuel' a' (uint64 (step + 1)) db with
            | Some (a'', tr') => Some (a'', tr ++ tr')
            | None => None
            end
        end
    end
  else Some (a, []).

(** [BuildFiles]. *)
Definition BuildFiles (fuel : nat) (a : AggregatorV3) (db : DB)
  : option (result (AggregatorV3 * list event * option error)) :=
  if belowBuildThreshold a then Some (Ret (a, [], None))
  else if aggregationStep a =? 0 then Some Panic
  else
    let step := EndTxNumMinimax a / aggregationStep a in
    match buildLoop fuel a step db with
    | Some (a', tr) => Some (Ret (a', tr, None))
    | None => None
    end.

(** [BuildFilesInBackground], up to the [go] statement: the goroutine
    it starts is recorded as [Started (BuildTask step toTxNum)]. *)
Definition BuildFilesInBackground (a : AggregatorV3) (db : DB)
  : result (AggregatorV3 * list event * option error) :=
  if belowBuildThreshold a then Ret (a, [], None)
  else if aggregationStep a =? 0 then Panic
  else
    let step := maxTxNum a / aggregationStep a in
    if working a then Ret (a, [], None)
    else
      let toTxNum := uint64 (uint64 (step + 1) * aggregationStep a) in
      Ret (setWorking a true, [Started (BuildTask step toTxNum)], None).

(** The body of that goroutine, run to its end: it builds while the
    database has a full step, starts the merge goroutine unless one is
    running, and releases [working]. *)
Definition runBuildTask (fuel : nat) (a : AggregatorV3) (step toTxNum : Z)
  (db : DB) : option (AggregatorV3 * list event) :=
  let lastInDB := lastIdInDB db (h_indexKeysTable (accounts a)) in
  if negb (toTxNum <=? lastInDB) then Some (setWorking a false, [])
  else
    match buildLoop fuel a step db with
    | None => None
    | Some (a', tr) =>
        if workingMerge a' then Some (setWorking a' false, tr)
        else
          Some (setWorking (setWorkingMerge a' true) false,
                tr ++ [Started MergeTask])
    end.

(** *** Per-step reader views *)

Record AggregatorStep : Type := mkAggregatorStep {
  as_a : AggregatorV3;
  as_accounts : HistoryStep;
  as_storage : HistoryStep;
  as_code : HistoryStep;
  keyBuf : list Z
}.

(** The loop [for i, accountStep := range accountSteps] filling
    [steps[i]]; indexing past the end of a slice panics. *)
Fixpoint fillSteps (a : AggregatorV3) (i : nat)
  (accountSteps storageSteps codeSteps : list HistoryStep)
  : result (list AggregatorStep) :=
  match accountSteps with
  | [] => Ret []
  | accountStep :: rest =>
      match nth_error storageSteps i, nth_error codeSteps i with
      | Some s, Some c =>
          steps <- fillSteps a (S i) rest storageSteps codeSteps ;;
          Ret (mkAggregatorStep a accountStep s c [] :: steps)
      | _, _ => Panic
      end
  end.

(** The bound [to] that [MakeSteps] hands to the three histories. *)
Definition stepsLimit (a : AggregatorV3) : Z :=
  let to := maxTxNum a in
  let indexedMax :=
    Z.min (Z.min (h_endIndexedTxNumMinimax (accounts a))
                 (h_endIndexedTxNumMinimax (storage a)))
          (h_endIndexedTxNumMinimax (code a)) in
  if negb (to =? indexedMax) then Z.min to indexedMax else to.

(** [MakeSteps]; a [nil] slice of steps is the empty list. *)
Definition MakeSteps (a : AggregatorV3)
  : result (list AggregatorStep * option error) :=
  let to := stepsLimit a in
  let accountSteps := h_MakeSteps (accounts a) to in
  let codeSteps := h_MakeSteps (code a) to in
  let storageSteps := h_MakeSteps (storage a) to in
  if negb (length accountSteps =? length storageSteps)%nat
     || negb (length storageSteps =? length codeSteps)%nat
  then
    Ret ([], Some ("different limit of steps (try merge snapshots): accountSteps="
                   ++ itoa (Z.of_nat (length accountSteps))
                   ++ ", storageSteps="
                   ++ itoa (Z.of_nat (length storageSteps))
                   ++ ", codeSteps="
                   ++ itoa (Z.of_nat (length codeSteps)))%string)
  else
    steps <- fillSteps a 0 accountSteps storageSteps codeSteps ;;
    Ret (steps, None).

End Components.

End Aggregator.

(** ** [state/aggregator_v3.go]: merging, flushing, pruning, unwinding *)

Module Maintenance.

Import Aggregator.

(** What closing a file item touches. *)
Inductive closeEvent {Decompressor Index : Type} : Type :=
| DecompressorClosed (d : Decompressor)
| IndexClosed (i : Index).

(** Steps of a merge round, in order. *)
Inductive mergeEvent {Decompressor Index : Type} : Type :=
| MergedComponent (c : component)
| ClosedMerged (closed : list (closeEvent (Decompressor := Decompressor)
                                 (Index := Index)))
| ClosedSelected (closed : list (closeEvent (Decompressor := Decompressor)
                                   (Index := Index)))
| IntegratedMerged
| DeletedFiles (c : component).

(** Steps of [Unwind], in order. *)
Inductive unwindStep : Type :=
| UnwoundHistory (c : component) (txFrom txTo : Z)
| LoadedState
| PrunedIndex (c : component) (txFrom txTo limit : Z).

Section Merge.

(** The per-component methods live in files that are not among the sources
    and are taken as given, as are [HistoryRanges] and the constant
    [StepsInBiggestFile]. *)
Context {History InvertedIndex HistoryRanges Decompressor Index : Type}.

(** A [filesItem], as far as this file reads it: its two handles, either of
    which may be [nil]. *)
Record filesItem : Type := mkFilesItem {
  decompressor : option Decompressor;
  index : option Index
}.

Context (hr_any : HistoryRanges -> bool).
Context (h_findMergeRange : History -> Z -> Z -> HistoryRanges).
Context (ii_findMergeRange : InvertedIndex -> Z -> Z -> bool * Z * Z).
Context (h_staticFilesInRange :
  History -> HistoryRanges ->
  list (option filesItem) * list (option filesItem) * Z).
Context (ii_staticFilesInRange :
  InvertedIndex -> Z -> Z -> list (option filesItem) * Z).
Context (h_mergeFiles :
  History -> list (option filesItem) -> list (option filesItem) ->
  HistoryRanges -> Z ->
  option filesItem * option filesItem * option error).
Context (ii_mergeFiles :
  InvertedIndex -> list (option filesItem) -> Z -> Z -> Z ->
  option filesItem * option error).
Context (h_integrateMergedFiles :
  History -> list (option filesItem) -> list (option filesItem) ->
  option filesItem -> option filesItem -> History).
Context (ii_integrateMergedFiles :
  InvertedIndex -> list (option filesItem) -> option filesItem ->
  InvertedIndex).
Context (h_deleteFiles :
  History -> list (option filesItem) -> list (option filesItem) ->
  option error).
Context (ii_deleteFiles :
  InvertedIndex -> list (option filesItem) -> option error).
Context (StepsInBiggestFile : Z).

Local Abbreviation Agg := (AggregatorV3 (History := History)
                             (InvertedIndex := InvertedIndex)).
Local Abbreviation closing := (closeEvent (Decompressor := Decompressor)
                                 (Index := Index)).
Local Abbreviation merging := (mergeEvent (Decompressor := Decompressor)
                                 (Index := Index)).

Record RangesV3 : Type := mkRangesV3 {
  r_accounts : HistoryRanges;
  r_storage : HistoryRanges;
  r_code : HistoryRanges;
  r_logTopicsStartTxNum : Z;
  r_logAddrsEndTxNum : Z;
  r_logAddrsStartTxNum : Z;
  r_logTopicsEndTxNum : Z;
  r_tracesFromStartTxNum : Z;
  r_tracesFromEndTxNum : Z;
  r_tracesToStartTxNum : Z;
  r_tracesToEndTxNum : Z;
  r_logAddrs : bool;
  r_logTopics : bool;
  r_tracesFrom : bool;
  r_tracesTo : bool
}.

(** [RangesV3.any]. *)
Definition any (r : RangesV3) : bool :=
  hr_any (r_accounts r) || hr_any (r_storage r) || hr_any (r_code r)
  || r_logAddrs r || r_logTopics r || r_tracesFrom r || r_tracesTo r.

(** [findMergeRange]. *)
Definition findMergeRange (a : Agg) (maxEndTxNum maxSpan : Z) : RangesV3 :=
  let acc := h_findMergeRange (accounts a) maxEndTxNum maxSpan in
  let sto := h_findMergeRange (storage a) maxEndTxNum maxSpan in
  let cod := h_findMergeRange (code a) maxEndTxNum maxSpan in
  let '(la, laStart, laEnd) :=
    ii_findMergeRange (logAddrs a) maxEndTxNum maxSpan in
  let '(lto, ltStart, ltEnd) :=
    ii_findMergeRange (logTopics a) maxEndTxNum maxSpan in
  let '(tf, tfStart, tfEnd) :=
    ii_findMergeRange (tracesFrom a) maxEndTxNum maxSpan in
  let '(tto, ttStart, ttEnd) :=
    ii_findMergeRange (tracesTo a) maxEndTxNum maxSpan in
  mkRangesV3 acc sto cod ltStart laEnd laStart ltEnd tfStart tfEnd ttStart
    ttEnd la lto tf tto.

Record SelectedStaticFilesV3 : Type := mkSelectedStaticFilesV3 {
  ss_logTopics : list (option filesItem);
  ss_accountsHist : list (option filesItem);
  ss_tracesTo : list (option filesItem);
  ss_storageIdx : list (option filesItem);
  ss_storageHist : list (option filesItem);
  ss_tracesFrom : list (option filesItem);
  ss_codeIdx : list (option filesItem);
  ss_codeHist : list (option filesItem);
  ss_accountsIdx : list (option filesItem);
  ss_logAddrs : list (option filesItem);
  ss_codeI : Z;
  ss_logAddrsI : Z;
  ss_logTopicsI : Z;
  ss_storageI : Z;
  ss_tracesFromI : Z;
  ss_accountsI : Z;
  ss_tracesToI : Z
}.

(** What both [Close] methods do with one item. *)
Definition closeItem (item : option filesItem) : list closing :=
  match item with
  | None => []
  | Some it =>
      (match decompressor it with
       | Some d => [DecompressorClosed d]
       | None => []
       end)
      ++ (match index it with
          | Some i => [IndexClosed i]
          | None => []
          end)
  end.

(** [SelectedStaticFilesV3.Close]: the groups in the order of the source. *)
Definition SelectedStaticFilesV3_Close (sf : SelectedStaticFilesV3)
  : list closing :=
  flat_map (fun group => flat_map closeItem group)
    [ss_accountsIdx sf; ss_accountsHist sf; ss_storageIdx sf;
     ss_accountsHist sf; ss_codeIdx sf; ss_codeHist sf; ss_logAddrs sf;
     ss_logTopics sf; ss_tracesFrom sf; ss_tracesTo sf].

(** [staticFilesInRange]. *)
Definition staticFilesInRange (a : Agg) (r : RangesV3)
  : SelectedStaticFilesV3 :=
  let '(accI, accH, accN) :=
    if hr_any (r_accounts r)
    then h_staticFilesInRange (accounts a) (r_accounts r)
    else ([], [], 0) in
  let '(stoI, stoH, stoN) :=
    if hr_any (r_storage r)
    then h_staticFilesInRange (storage a) (r_storage r)
    else ([], [], 0) in
  let '(codI, codH, codN) :=
    if hr_any (r_code r)
    then h_staticFilesInRange (code a) (r_code r)
    else ([], [], 0) in
  let '(la, laN) :=
    if r_logAddrs r
    then ii_staticFilesInRange (logAddrs a) (r_logAddrsStartTxNum r)
           (r_logAddrsEndTxNum r)
    else ([], 0) in
  let '(lto, ltN) :=
    if r_logTopics r
    then ii_staticFilesInRange (logTopics a) (r_logTopicsStartTxNum r)
           (r_logTopicsEndTxNum r)
    else ([], 0) in
  let '(tf, tfN) :=
    if r_tracesFrom r
    then ii_staticFilesInRange (tracesFrom a) (r_tracesFromStartTxNum r)
           (r_tracesFromEndTxNum r)
    else ([], 0) in
  let '(tto, ttN) :=
    if r_tracesTo r
    then ii_staticFilesInRange (tracesTo a) (r_tracesToStartTxNum r)
           (r_tracesToEndTxNum r)
    else ([], 0) in
  mkSelectedStaticFilesV3 lto accH tto stoI stoH tf codI codH accI la
    codN laN ltN stoN tfN accN ttN.

Record MergedFilesV3 : Type := mkMergedFilesV3 {
  mf_accountsIdx : option filesItem;
  mf_accountsHist : option filesItem;
  mf_storageIdx : option filesItem;
  mf_storageHist : option filesItem;
  mf_codeIdx : option filesItem;
  mf_codeHist : option filesItem;
  mf_logAddrs : option filesItem;
  mf_logTopics : option filesItem;
  mf_tracesFrom : option filesItem;
  mf_tracesTo : option filesItem
}.

Definition noMergedFiles : MergedFilesV3 :=
  mkMergedFilesV3 None None None None None None None None None None.

(** [MergedFilesV3.Close]. *)
Definition MergedFilesV3_Close (mf : MergedFilesV3) : list closing :=
  flat_map closeItem
    [mf_accountsIdx mf; mf_accountsHist mf; mf_storageIdx mf;
     mf_storageHist mf; mf_codeIdx mf; mf_codeHist mf; mf_logAddrs mf;
     mf_logTopics mf; mf_tracesFrom mf; mf_tracesTo mf].

(** While [mergeFiles] runs: the files merged so far, the errors sent to
    [errCh], and the merges attempted. *)
Record mergeState : Type := mkMergeState {
  ms_files : MergedFilesV3;
  ms_errCh : list error;
  ms_trace : list merging
}.

(** One [if r.X.any() { ... }] block of [mergeFiles] for a history: the two
    merged files are assigned whatever the outcome, and an error is sent to
    the channel without ending the function. *)
Definition mergeHistory (c : component) (selected : bool)
  (call : option filesItem * option filesItem * option error)
  (assign : MergedFilesV3 -> option filesItem -> option filesItem ->
            MergedFilesV3)
  (st : mergeState) : mergeState :=
  if selected then
    let '(idx, hist, err) := call in
    mkMergeState (assign (ms_files st) idx hist)
      (ms_errCh st ++ match err with Some e => [e] | None => [] end)
      (ms_trace st ++ [MergedComponent c])
  else st.

(** The same block for an inverted index. *)
Definition mergeInverted (c : component) (selected : bool)
  (call : option filesItem * option error)
  (assign : MergedFilesV3 -> option filesItem -> MergedFilesV3)
  (st : mergeState) : mergeState :=
  if selected then
    let '(item, err) := call in
    mkMergeState (assign (ms_files st) item)
      (ms_errCh st ++ match err with Some e => [e] | None => [] end)
      (ms_trace st ++ [MergedComponent c])
  else st.

(** [mergeFiles]: the seven blocks in source order, then the channel is
    drained and its last error returned; the deferred [mf.Close()] runs when
    that error is not [nil]. *)
Definition mergeFiles (a : Agg) (files : SelectedStaticFilesV3)
  (r : RangesV3) (maxSpan workers : Z)
  : list merging * (MergedFilesV3 * option error) :=
  let st := mkMergeState noMergedFiles [] [] in
  let st :=
    mergeHistory Accounts (hr_any (r_accounts r))
      (h_mergeFiles (accounts a) (ss_accountsIdx files)
         (ss_accountsHist files) (r_accounts r) workers)
      (fun mf i h =>
         mkMergedFilesV3 i h (mf_storageIdx mf) (mf_storageHist mf)
           (mf_codeIdx mf) (mf_codeHist mf) (mf_logAddrs mf)
           (mf_logTopics mf) (mf_tracesFrom mf) (mf_tracesTo mf)) st in
  let st :=
    mergeHistory Storage (hr_any (r_storage r))
      (h_mergeFiles (storage a) (ss_storageIdx files)
         (ss_storageHist files) (r_storage r) workers)
      (fun mf i h =>
         mkMergedFilesV3 (mf_accountsIdx mf) (mf_accountsHist mf) i h
           (mf_codeIdx mf) (mf_codeHist mf) (mf_logAddrs mf)
           (mf_logTopics mf) (mf_tracesFrom mf) (mf_tracesTo mf)) st in
  let st :=
    mergeHistory Code (hr_any (r_code r))
      (h_mergeFiles (code a) (ss_codeIdx files) (ss_codeHist files)
         (r_code r) workers)
      (fun mf i h =>
         mkMergedFilesV3 (mf_accountsIdx mf) (mf_accountsHist mf)
           (mf_storageIdx mf) (mf_storageHist mf) i h (mf_logAddrs mf)
           (mf_logTopics mf) (mf_tracesFrom mf) (mf_tracesTo mf)) st in
  let st :=
    mergeInverted LogAddrs (r_logAddrs r)
      (ii_mergeFiles (logAddrs a) (ss_logAddrs files)
         (r_logAddrsStartTxNum r) (r_logAddrsEndTxNum r) workers)
      (fun mf i =>
         mkMergedFilesV3 (mf_accountsIdx mf) (mf_accountsHist mf)
           (mf_storageIdx mf) (mf_storageHist mf) (mf_codeIdx mf)
           (mf_codeHist mf) i (mf_logTopics mf) (mf_tracesFrom mf)
           (mf_tracesTo mf)) st in
  let st :=
    mergeInverted LogTopics (r_logTopics r)
      (ii_mergeFiles (logTopics a) (ss_logTopics files)
         (r_logTopicsStartTxNum r) (r_logTopicsEndTxNum r) workers)
      (fun mf i =>
         mkMergedFilesV3 (mf_accountsIdx mf) (mf_accountsHist mf)
           (mf_storageIdx mf) (mf_storageHist mf) (mf_codeIdx mf)
           (mf_codeHist mf) (mf_logAddrs mf) i (mf_tracesFrom mf)
           (mf_tracesTo mf)) st in
  let st :=
    mergeInverted TracesFrom (r_tracesFrom r)
      (ii_mergeFiles (tracesFrom a) (ss_tracesFrom files)
         (r_tracesFromStartTxNum r) (r_tracesFromEndTxNum r) workers)
      (fun mf i =>
         mkMergedFilesV3 (mf_accountsIdx mf) (mf_accountsHist mf)
           (mf_storageIdx mf) (mf_storageHist mf) (mf_codeIdx mf)
           (mf_codeHist mf) (mf_logAddrs mf) (mf_logTopics mf) i
           (mf_tracesTo mf)) st in
  let st :=
    mergeInverted TracesTo (r_tracesTo r)
      (ii_mergeFiles (tracesTo a) (ss_tracesTo files)
         (r_tracesToStartTxNum r) (r_tracesToEndTxNum r) workers)
      (fun mf i =>
         mkMergedFilesV3 (mf_accountsIdx mf) (mf_accountsHist mf)
           (mf_storageIdx mf) (mf_storageHist mf) (mf_codeIdx mf)
           (mf_codeHist mf) (mf_logAddrs mf) (mf_logTopics mf)
           (mf_tracesFrom mf) i) st in
  let lastError := last (map Some (ms_errCh st)) None in
  match lastError with
  | None => (ms_trace st, (ms_files st, None))
  | Some e =>
      (ms_trace st ++ [ClosedMerged (MergedFilesV3_Close (ms_files st))],
       (ms_files st, Some e))
  end.

(** [integrateMergedFiles]; [maxTxNum] is not recomputed here. *)
Definition integrateMergedFiles (a : Agg) (outs : SelectedStaticFilesV3)
  (inp : MergedFilesV3) : Agg :=
  setComponents a
    (h_integrateMergedFiles (accounts a) (ss_accountsIdx outs)
       (ss_accountsHist outs) (mf_accountsIdx inp) (mf_accountsHist inp))
    (h_integrateMergedFiles (storage a) (ss_storageIdx outs)
       (ss_storageHist outs) (mf_storageIdx inp) (mf_storageHist inp))
    (h_integrateMergedFiles (code a) (ss_codeIdx outs) (ss_codeHist outs)
       (mf_codeIdx inp) (mf_codeHist inp))
    (ii_integrateMergedFiles (logAddrs a) (ss_logAddrs outs) (mf_logAddrs inp))
    (ii_integrateMergedFiles (logTopics a) (ss_logTopics outs)
       (mf_logTopics inp))
    (ii_integrateMergedFiles (tracesFrom a) (ss_tracesFrom outs)
       (mf_tracesFrom inp))
    (ii_integrateMergedFiles (tracesTo a) (ss_tracesTo outs)
       (mf_tracesTo inp)).

(** The chain of [if err := ...; err != nil { return err }] in
    [deleteFiles]: the calls run in order up to the first error. *)
Fixpoint untilError (calls : list (component * option error))
  : list merging * option error :=
  match calls with
  | [] => ([], None)
  | (c, Some e) :: _ => ([DeletedFiles c], Some e)
  | (c, None) :: rest =>
      let '(tr, err) := untilError rest in (DeletedFiles c :: tr, err)
  end.

(** [deleteFiles]. *)
Definition deleteFiles (a : Agg) (outs : SelectedStaticFilesV3)
  : list merging * option error :=
  untilError
    [(Accounts,
      h_deleteFiles (accounts a) (ss_accountsIdx outs) (ss_accountsHist outs));
     (Storage,
      h_deleteFiles (storage a) (ss_storageIdx outs) (ss_storageHist outs));
     (Code, h_deleteFiles (code a) (ss_codeIdx outs) (ss_codeHist outs));
     (LogAddrs, ii_deleteFiles (logAddrs a) (ss_logAddrs outs));
     (LogTopics, ii_deleteFiles (logTopics a) (ss_logTopics outs));
     (TracesFrom, ii_deleteFiles (tracesFrom a) (ss_tracesFrom outs));
     (TracesTo, ii_deleteFiles (tracesTo a) (ss_tracesTo outs))].

(** [mergeLoopStep]; the deferred [Close] calls run, last registered first,
    on every return made while [closeAll] is still set. *)
Definition mergeLoopStep (a : Agg) (workers : Z)
  : Agg * list merging * (bool * option error) :=
  let maxSpan := uint64 (aggregationStep a * StepsInBiggestFile) in
  let r := findMergeRange a (maxTxNum a) maxSpan in
  if negb (any r) then (a, [], (false, None))
  else
    let outs := staticFilesInRange a r in
    let '(tr, (inp, err)) := mergeFiles a outs r maxSpan workers in
    match err with
    | Some e =>
        (a, tr ++ [ClosedSelected (SelectedStaticFilesV3_Close outs)],
         (true, Some e))
    | None =>
        let a := integrateMergedFiles a outs inp in
        let '(trd, err) := deleteFiles a outs in
        match err with
        | Some e =>
            (a, tr ++ [IntegratedMerged] ++ trd
                ++ [ClosedMerged (MergedFilesV3_Close inp);
                    ClosedSelected (SelectedStaticFilesV3_Close outs)],
             (true, Some e))
        | None => (a, tr ++ [IntegratedMerged] ++ trd, (true, None))
        end
    end.

(** [MergeLoop]; [None] when [fuel] rounds do not end it. *)
Fixpoint MergeLoop (fuel : nat) (a : Agg) (workers : Z)
  : option (Agg * list merging * option error) :=
  match fuel with
  | O => None
  | S fuel' =>
      let '(a', tr, (somethingMerged, err)) := mergeLoopStep a workers in
      match err with
      | Some e => Some (a', tr, Some e)
      | None =>
          if negb somethingMerged then Some (a', tr, None)
          else
            match MergeLoop fuel' a' workers with
            | Some (a'', tr', err') => Some (a'', tr ++ tr', err')
            | None => None
            end
      end
  end.

End Merge.

Section Pruning.

(** [kv.FirstKey], the table names of package [kv], the [etl] collector and
    the components' pruning are outside the sources and taken as given.  [Tx]
    stands for the database as seen through a transaction. *)
Context {History InvertedIndex Tx Collector LoadFunc : Type}.
Context (kv_FirstKey : Tx -> string -> slice * option error).
Context (TracesToKeys StorageHistoryKeys PlainState : string).
Context (etl_NewCollector : string -> string -> Collector).
Context (c_Collect :
  Collector -> list Z -> list Z -> Collector * option error).
Context (c_Load :
  Collector -> Tx -> string -> LoadFunc -> Tx * option error).
Context (h_pruneF :
  History -> Tx -> Z -> Z ->
  (Z -> list Z -> list Z -> Collector -> Collector * option error) ->
  Collector -> Tx * Collector * option error).
Context (ii_prune :
  InvertedIndex -> Tx -> Z -> Z -> Z -> Tx * option error).

Local Abbreviation Agg := (AggregatorV3 (History := History)
                             (InvertedIndex := InvertedIndex)).

(** [CanPruneFrom]; errors of [kv.FirstKey] are dropped by the source. *)
Definition CanPruneFrom (tx : Tx) : result Z :=
  let '(fst1, _) := kv_FirstKey tx TracesToKeys in
  let '(fst2, _) := kv_FirstKey tx StorageHistoryKeys in
  if (0 <? len fst1)%nat && (0 <? len fst2)%nat then
    fstInDb <- BigEndian.Uint64 (elems fst1) ;;
    fstInDb2 <- BigEndian.Uint64 (elems fst2) ;;
    Ret (Z.min fstInDb fstInDb2)
  else Ret MaxUint64.

(** [CanPrune]. *)
Definition CanPrune (a : Agg) (tx : Tx) : result bool :=
  from <- CanPruneFrom tx ;;
  Ret (from <? maxTxNum a).

(** [Unwind]; the aggregator's [rwTx] and [logPrefix] are passed alongside,
    and the calls made are recorded in order.  Each call returns at its
    error. *)
Definition Unwind (a : Agg) (rwTx : Tx) (logPrefix : string)
  (txUnwindTo : Z) (stateLoad : LoadFunc)
  : list unwindStep * (Tx * option error) :=
  let stateChanges := etl_NewCollector logPrefix (tmpdir a) in
  let collect := fun (_ : Z) (k v : list Z) (c : Collector) =>
                   c_Collect c k v in
  let '(tx, stateChanges, err) :=
    h_pruneF (accounts a) rwTx txUnwindTo MaxUint64 collect stateChanges in
  let tr := [UnwoundHistory Accounts txUnwindTo MaxUint64] in
  match err with Some e => (tr, (tx, Some e)) | None =>
  let '(tx, stateChanges, err) :=
    h_pruneF (storage a) tx txUnwindTo MaxUint64 collect stateChanges in
  let tr := tr ++ [UnwoundHistory Storage txUnwindTo MaxUint64] in
  match err with Some e => (tr, (tx, Some e)) | None =>
  let '(tx, err) := c_Load stateChanges tx PlainState stateLoad in
  let tr := tr ++ [LoadedState] in
  match err with Some e => (tr, (tx, Some e)) | None =>
  let '(tx, err) := ii_prune (logAddrs a) tx txUnwindTo MaxUint64 MaxUint64 in
  let tr := tr ++ [PrunedIndex LogAddrs txUnwindTo MaxUint64 MaxUint64] in
  match err with Some e => (tr, (tx, Some e)) | None =>
  let '(tx, err) := ii_prune (logTopics a) tx txUnwindTo MaxUint64 MaxUint64 in
  let tr := tr ++ [PrunedIndex LogTopics txUnwindTo MaxUint64 MaxUint64] in
  match err with Some e => (tr, (tx, Some e)) | None =>
  let '(tx, err) := ii_prune (tracesFrom a) tx txUnwindTo MaxUint64 MaxUint64 in
  let tr := tr ++ [PrunedIndex TracesFrom txUnwindTo MaxUint64 MaxUint64] in
  match err with Some e => (tr, (tx, Some e)) | None =>
  let '(tx, err) := ii_prune (tracesTo a) tx txUnwindTo MaxUint64 MaxUint64 in
  let tr := tr ++ [PrunedIndex TracesTo txUnwindTo MaxUint64 MaxUint64] in
  (tr, (tx, err))
  end end end end end end.

End Pruning.

Section Readers.

Context {HistoryContext Tx : Type}.
Context (hc_GetNoState :
  HistoryContext -> list Z -> Z -> list Z * bool * option error).
Context (hc_GetNoStateWithRecent :
  HistoryContext -> list Z -> Z -> Tx -> list Z * bool * option error).

(** [AggregatorV3Context], with the fields the storage readers use. *)
Record AggregatorV3Context : Type := mkAggregatorV3Context {
  ac_storage : HistoryContext;
  ac_keyBuf : slice;
  ac_tx : Tx
}.

(** [copy(s, src)] and [copy(s[from:], src)] seen from [s]; the slicing
    panics when [from] exceeds the length. *)
Definition copyInto (s : slice) (src : list Z) : slice :=
  mkSlice (copy (elems s) src) (spare s).

Definition copyFrom (s : slice) (from : nat) (src : list Z) : result slice :=
  t <- reslice_from s from ;;
  Ret (mkSlice (firstn from (elems s) ++ copy (elems t) src) (spare s)).

(** The lines the storage readers share: [keyBuf] is replaced when its
    capacity is too small, resliced when its length differs, and then
    receives [addr] and [loc]. *)
Definition storageKey (keyBuf : slice) (addr loc : list Z) : result slice :=
  let n := (length addr + length loc)%nat in
  keyBuf <- (if (cap keyBuf <? n)%nat then Ret (of_list (make n))
             else if negb (len keyBuf =? n)%nat then reslice keyBuf 0 n
                  else Ret keyBuf) ;;
  let keyBuf := copyInto keyBuf addr in
  copyFrom keyBuf (length addr) loc.

(** [AggregatorV3Context.ReadAccountStorageNoState]. *)
Definition ReadAccountStorageNoState (ac : AggregatorV3Context)
  (addr loc : list Z) (txNum : Z)
  : result (AggregatorV3Context * (list Z * bool * option error)) :=
  keyBuf <- storageKey (ac_keyBuf ac) addr loc ;;
  Ret (mkAggregatorV3Context (ac_storage ac) keyBuf (ac_tx ac),
       hc_GetNoState (ac_storage ac) (elems keyBuf) txNum).

(** [AggregatorV3Context.ReadAccountStorageNoStateWithRecent]. *)
Definition ReadAccountStorageNoStateWithRecent (ac : AggregatorV3Context)
  (addr loc : list Z) (txNum : Z)
  : result (AggregatorV3Context * (list Z * bool * option error)) :=
  keyBuf <- storageKey (ac_keyBuf ac) addr loc ;;
  Ret (mkAggregatorV3Context (ac_storage ac) keyBuf (ac_tx ac),
       hc_GetNoStateWithRecent (ac_storage ac) (elems keyBuf) txNum
         (ac_tx ac)).

End Readers.

End Maintenance.

(** ** Reference definitions the properties are stated against *)

Module Reference.

(** The [n]-byte big-endian representation of [v], most significant byte
    first. *)
Fixpoint big_endian (n : nat) (v : Z) : list Z :=
  match n with
  | O => []
  | S n' => big_endian n' (v / 256) ++ [v mod 256]
  end.

(** The least number of bytes, from 1 to 8, on which a [uint64] fits. *)
Definition min_width (o : Z) : nat :=
  if o <? 2 ^ 8 then 1
  else if o <? 2 ^ 16 then 2
  else if o <? 2 ^ 24 then 3
  else if o <? 2 ^ 32 then 4
  else if o <? 2 ^ 40 then 5
  else if o <? 2 ^ 48 then 6
  else if o <? 2 ^ 56 then 7
  else 8.

(** The short key as the format describes it: the step on two bytes, then
    the offset on the least number of bytes. *)
Definition short_key (s o : Z) : list Z :=
  big_endian 2 s ++ big_endian (min_width o) o.

(** The commitment state record as the format describes it. *)
Definition state_record (txNum blockNum : Z) (trie : list Z) : list Z :=
  big_endian 8 txNum ++ big_endian 8 blockNum
    ++ big_endian 2 (Z.of_nat (length trie)) ++ trie.

(** [m] is the minimum of the values in [l]. *)
Definition is_minimum_of (m : Z) (l : list Z) : Prop :=
  In m l /\ Forall (fun x => m <= x) l.

(** The end of the built range of each of the seven components. *)
Definition componentEnds {History InvertedIndex : Type}
  (h_end : History -> Z) (ii_end : InvertedIndex -> Z)
  (a : Aggregator.AggregatorV3) : list Z :=
  [h_end (Aggregator.accounts a); h_end (Aggregator.storage a);
   h_end (Aggregator.code a); ii_end (Aggregator.logAddrs a);
   ii_end (Aggregator.logTopics a); ii_end (Aggregator.tracesFrom a);
   ii_end (Aggregator.tracesTo a)].

(** The number a list of bytes denotes, most significant byte first. *)
Definition be_value (l : list Z) : Z :=
  fold_left (fun a b => a * 256 + b) l 0.

(** Every element is a byte. *)
Definition all_bytes (l : list Z) : Prop :=
  Forall (fun b => 0 <= b < 256) l.

(** The items of an accumulator are in strictly ascending order of their
    hashed keys. *)
Definition ascending (t : Committed.BTree) : Prop :=
  StronglySorted (fun i j => Committed.commitmentItemLess i j = true) t.

(** A per-kind touch function leaves the two keys of the item alone. *)
Definition keeps_keys
  (fn : Committed.CommitmentItem -> list Z -> result Committed.CommitmentItem)
  : Prop :=
  forall c val c',
    fn c val = Ret c' ->
    Committed.plainKey c' = Committed.plainKey c
    /\ Committed.hashedKey c' = Committed.hashedKey c.

(** The two nibbles of every byte, high nibble first. *)
Definition nibbles (l : list Z) : list Z :=
  flat_map (fun b => [Z.land (Z.shiftr b 4) 15; Z.land b 15]) l.

(** The calls [buildFiles] makes when nothing fails: for each component in
    turn, collate and then build. *)
Definition fullBuildTrace (step txFrom txTo : Z) : list Aggregator.event :=
  flat_map (fun c => [Aggregator.Collated c step txFrom txTo;
                      Aggregator.Built c step])
    [Aggregator.Accounts; Aggregator.Storage; Aggregator.Code;
     Aggregator.LogAddrs; Aggregator.LogTopics; Aggregator.TracesFrom;
     Aggregator.TracesTo].

(** The event records the start of a goroutine. *)
Definition started (e : Aggregator.event) : bool :=
  match e with
  | Aggregator.Started _ => true
  | _ => false
  end.

(** The event records an integration of built files. *)
Definition integrated (e : Aggregator.event) : bool :=
  match e with
  | Aggregator.Integrated _ _ => true
  | _ => false
  end.

Section MergeOutcomes.

Context {History InvertedIndex HistoryRanges Decompressor Index : Type}.

Local Abbreviation item := (Maintenance.filesItem (Decompressor := Decompressor)
                              (Index := Index)).

Context (hr_any : HistoryRanges -> bool).
Context (h_mergeFiles :
  History -> list (option item) -> list (option item) -> HistoryRanges -> Z ->
  option item * option item * option error).
Context (ii_mergeFiles :
  InvertedIndex -> list (option item) -> Z -> Z -> Z ->
  option item * option error).

(** The merges [mergeFiles] is asked for: every component the ranges
    select, in the order accounts, storage, code, logAddrs, logTopics,
    tracesFrom, tracesTo, with the error its merge returns. *)
Definition mergeOutcomes
  (a : Aggregator.AggregatorV3 (History := History)
         (InvertedIndex := InvertedIndex))
  (files : Maintenance.SelectedStaticFilesV3 (Decompressor := Decompressor)
             (Index := Index))
  (r : Maintenance.RangesV3 (HistoryRanges := HistoryRanges)) (workers : Z)
  : list (Aggregator.component * option error) :=
  let pick (selected : bool) (c : Aggregator.component) (e : option error) :=
    if selected then [(c, e)] else [] in
  pick (hr_any (Maintenance.r_accounts r)) Aggregator.Accounts
    (snd (h_mergeFiles (Aggregator.accounts a)
            (Maintenance.ss_accountsIdx files)
            (Maintenance.ss_accountsHist files)
            (Maintenance.r_accounts r) workers))
  ++ pick (hr_any (Maintenance.r_storage r)) Aggregator.Storage
       (snd (h_mergeFiles (Aggregator.storage a)
               (Maintenance.ss_storageIdx files)
               (Maintenance.ss_storageHist files)
               (Maintenance.r_storage r) workers))
  ++ pick (hr_any (Maintenance.r_code r)) Aggregator.Code
       (snd (h_mergeFiles (Aggregator.code a)
               (Maintenance.ss_codeIdx files)
               (Maintenance.ss_codeHist files)
               (Maintenance.r_code r) workers))
  ++ pick (Maintenance.r_logAddrs r) Aggregator.LogAddrs
       (snd (ii_mergeFiles (Aggregator.logAddrs a)
               (Maintenance.ss_logAddrs files)
               (Maintenance.r_logAddrsStartTxNum r)
               (Maintenance.r_logAddrsEndTxNum r) workers))
  ++ pick (Maintenance.r_logTopics r) Aggregator.LogTopics
       (snd (ii_mergeFiles (Aggregator.logTopics a)
               (Maintenance.ss_logTopics files)
               (Maintenance.r_logTopicsStartTxNum r)
               (Maintenance.r_logTopicsEndTxNum r) workers))
  ++ pick (Maintenance.r_tracesFrom r) Aggregator.TracesFrom
       (snd (ii_mergeFiles (Aggregator.tracesFrom a)
               (Maintenance.ss_tracesFrom files)
               (Maintenance.r_tracesFromStartTxNum r)
               (Maintenance.r_tracesFromEndTxNum r) workers))
  ++ pick (Maintenance.r_tracesTo r) Aggregator.TracesTo
       (snd (ii_mergeFiles (Aggregator.tracesTo a)
               (Maintenance.ss_tracesTo files)
               (Maintenance.r_tracesToStartTxNum r)
               (Maintenance.r_tracesToEndTxNum r) workers)).

End MergeOutcomes.

(** The errors among a list of outcomes, in order. *)
Definition errorsOf (l : list (Aggregator.component * option error))
  : list error :=
  flat_map (fun ce => match snd ce with Some e => [e] | None => [] end) l.

(** The event closes files. *)
Definition closes {Decompressor Index : Type}
  (e : Maintenance.mergeEvent (Decompressor := Decompressor)
         (Index := Index)) : bool :=
  match e with
  | Maintenance.ClosedMerged _ | Maintenance.ClosedSelected _ => true
  | _ => false
  end.

(** The event is the integration of merged files. *)
Definition integratesMerged {Decompressor Index : Type}
  (e : Maintenance.mergeEvent (Decompressor := Decompressor)
         (Index := Index)) : bool :=
  match e with
  | Maintenance.IntegratedMerged => true
  | _ => false
  end.

(** The calls of an [Unwind] on which nothing fails. *)
Definition unwindPlan (txUnwindTo : Z) : list Maintenance.unwindStep :=
  [Maintenance.UnwoundHistory Aggregator.Accounts txUnwindTo MaxUint64;
   Maintenance.UnwoundHistory Aggregator.Storage txUnwindTo MaxUint64;
   Maintenance.LoadedState;
   Maintenance.PrunedIndex Aggregator.LogAddrs txUnwindTo MaxUint64 MaxUint64;
   Maintenance.PrunedIndex Aggregator.LogTopics txUnwindTo MaxUint64
     MaxUint64;
   Maintenance.PrunedIndex Aggregator.TracesFrom txUnwindTo MaxUint64
     MaxUint64;
   Maintenance.PrunedIndex Aggregator.TracesTo txUnwindTo MaxUint64
     MaxUint64].

(** The step works on the code history. *)
Definition onCode (s : Maintenance.unwindStep) : bool :=
  match s with
  | Maintenance.UnwoundHistory Aggregator.Code _ _ => true
  | Maintenance.PrunedIndex Aggregator.Code _ _ _ => true
  | _ => false
  end.

End Reference.

(* ================================================================= *)
(** * Part II: properties *)
(* ================================================================= *)

Import BigEndian Committed Reference.

(** ** Bytes and integers *)

Lemma lor_shiftl_add (x b k : Z) :
  0 <= k -> 0 <= x < 2 ^ k -> Z.lor x (Z.shiftl b k) = x + b * 2 ^ k.
Proof.
  intros Hk Hx.
  assert (Hland : Z.land x (Z.shiftl b k) = 0).
  { apply Z.bits_inj'. intros n Hn.
    rewrite Z.land_spec, Z.bits_0.
    destruct (Z.lt_ge_cases n k) as [Hlt | Hge].
    - rewrite Z.shiftl_spec_low by assumption. apply Bool.andb_false_r.
    - rewrite <- (Z.mod_small x (2 ^ k)) by assumption.
      rewrite Z.mod_pow2_bits_high by lia. reflexivity. }
  rewrite <- Z.lxor_lor by assumption.
  rewrite <- Z.add_nocarry_lxor by assumption.
  rewrite Z.shiftl_mul_pow2 by assumption. reflexivity.
Qed.

Lemma lor_shiftl_byte (x b k : Z) (p : Z) :
  0 <= k -> p = 2 ^ k -> 0 <= x < p -> Z.lor x (Z.shiftl b k) = x + b * p.
Proof. intros Hk -> Hx. apply lor_shiftl_add; assumption. Qed.

Lemma byte_range (x : Z) : 0 <= byte x < 256.
Proof. unfold byte. change (2 ^ 8) with 256. apply Z.mod_pos_bound. lia. Qed.

Lemma byte_shiftr (v k : Z) : 0 <= k -> byte (Z.shiftr v k) = (v / 2 ^ k) mod 256.
Proof. intros Hk. unfold byte. rewrite Z.shiftr_div_pow2 by assumption. reflexivity. Qed.

(** Powers of two are unfolded to numerals before [lia] is called. *)
Ltac pow2_numerals :=
  change (2 ^ 8) with 256 in *;
  change (2 ^ 16) with 65536 in *;
  change (2 ^ 24) with 16777216 in *;
  change (2 ^ 32) with 4294967296 in *;
  change (2 ^ 40) with 1099511627776 in *;
  change (2 ^ 48) with 281474976710656 in *;
  change (2 ^ 56) with 72057594037927936 in *;
  change (2 ^ 64) with 18446744073709551616 in *.

Ltac div_mod_lia := pow2_numerals; Z.div_mod_to_equations; lia.

Lemma bytes16_big_endian (v : Z) : bytes16 v = big_endian 2 v.
Proof.
  unfold bytes16. cbn [big_endian app].
  rewrite byte_shiftr by lia. unfold byte. pow2_numerals. reflexivity.
Qed.

Lemma bytes64_big_endian (v : Z) : bytes64 v = big_endian 8 v.
Proof.
  unfold bytes64. cbn [big_endian app].
  rewrite !byte_shiftr by lia. unfold byte. pow2_numerals.
  rewrite !Z.div_div by lia. reflexivity.
Qed.

Lemma Uint16_bytes16 (v : Z) (rest : list Z) :
  0 <= v < 2 ^ 16 -> Uint16 (bytes16 v ++ rest) = Ret v.
Proof.
  intros Hv. unfold bytes16. cbn [app Uint16]. f_equal.
  rewrite byte_shiftr by lia. unfold byte. pow2_numerals.
  rewrite (lor_shiftl_byte _ _ 8 256) by (try reflexivity; div_mod_lia).
  div_mod_lia.
Qed.

Lemma Uint64_bytes64 (v : Z) (rest : list Z) :
  0 <= v < 2 ^ 64 -> Uint64 (bytes64 v ++ rest) = Ret v.
Proof.
  intros Hv. unfold bytes64. cbn [app Uint64]. f_equal.
  rewrite !byte_shiftr by lia. unfold byte. pow2_numerals.
  rewrite (lor_shiftl_byte _ _ 8 256) by (try reflexivity; div_mod_lia).
  rewrite (lor_shiftl_byte _ _ 16 65536) by (try reflexivity; div_mod_lia).
  rewrite (lor_shiftl_byte _ _ 24 16777216) by (try reflexivity; div_mod_lia).
  rewrite (lor_shiftl_byte _ _ 32 4294967296) by (try reflexivity; div_mod_lia).
  rewrite (lor_shiftl_byte _ _ 40 1099511627776) by (try reflexivity; div_mod_lia).
  rewrite (lor_shiftl_byte _ _ 48 281474976710656) by (try reflexivity; div_mod_lia).
  rewrite (lor_shiftl_byte _ _ 56 72057594037927936) by (try reflexivity; div_mod_lia).
  div_mod_lia.
Qed.

(** ** Slices *)

Lemma copy_make (n : nat) (src : list Z) :
  length src = n -> copy (make n) src = src.
Proof.
  intros <-. unfold copy, make. rewrite repeat_length, firstn_all, skipn_all2.
  - apply app_nil_r.
  - rewrite repeat_length. lia.
Qed.

(** ** Commitment state record *)

Lemma Encode_bytes (cs : commitmentState) :
  Encode cs =
  (bytes64 (txNum cs) ++ bytes64 (blockNum cs)
     ++ bytes16 (uint16 (Z.of_nat (length (trieState cs)))) ++ trieState cs,
   None).
Proof. reflexivity. Qed.

(** [Decode] returns its error exactly on buffers shorter than ten bytes,
    and then leaves the receiver as it was. *)
Lemma Decode_error_iff (cs : commitmentState) (buf : slice) :
  (exists cs' e, Decode cs buf = Ret (cs', Some e)) <-> (len buf < 10)%nat.
Proof.
  unfold Decode. destruct (Nat.ltb_spec (len buf) 10) as [Hlt | Hge].
  - split; [intros _; assumption | intros _; eauto].
  - split; [| lia]. intros (cs' & e & H). exfalso.
    destruct (reslice buf 0 8); [| discriminate]. cbn [bind] in H.
    destruct (Uint64 _); [| discriminate]. cbn [bind] in H.
    destruct (reslice buf 8 16); [| discriminate]. cbn [bind] in H.
    destruct (Uint64 _); [| discriminate]. cbn [bind] in H.
    destruct (reslice buf 16 18); [| discriminate]. cbn [bind] in H.
    destruct (Uint16 _); [| discriminate]. cbn [bind] in H.
    destruct (_ && _) in H; [discriminate |].
    destruct (reslice buf 18 _); discriminate.
Qed.

(** With no room after its length, a buffer of ten to seventeen bytes makes
    [Decode] slice past the end of its array. *)
Lemma Decode_short_header_panics (cs : commitmentState) (l : list Z) :
  (10 <= length l < 18)%nat -> Decode cs (of_list l) = Panic.
Proof.
  intros Hl.
  do 10 (destruct l as [| ? l]; [cbn in Hl; lia |]).
  do 8 (destruct l as [| ? l]; [reflexivity |]).
  cbn in Hl. lia.
Qed.

(** [Decode] on a buffer laid out as two eight-byte fields, a two-byte
    length and that many bytes. *)
Lemma Decode_layout (cs0 : commitmentState) (h1 h2 h3 trie sp : list Z)
  (tx bn n : Z) :
  length h1 = 8%nat -> length h2 = 8%nat -> length h3 = 2%nat ->
  Uint64 h1 = Ret tx -> Uint64 h2 = Ret bn -> Uint16 h3 = Ret n ->
  Z.to_nat n = length trie ->
  Decode cs0 (mkSlice (h1 ++ h2 ++ h3 ++ trie) sp)
  = Ret (mkCommitmentState tx bn trie, None).
Proof.
  intros L1 L2 L3 U1 U2 U3 Hn.
  do 9 (destruct h1 as [| ? h1]; try discriminate L1).
  do 9 (destruct h2 as [| ? h2]; try discriminate L2).
  do 3 (destruct h3 as [| ? h3]; try discriminate L3).
  cbn [app]. unfold Decode, reslice, len, cap.
  cbn [elems spare length Nat.leb Nat.ltb andb firstn skipn app Nat.sub
       Nat.add bind].
  rewrite U1. cbn [bind]. rewrite U2. cbn [bind]. rewrite U3.
  cbn [bind txNum blockNum trieState].
  rewrite Hn. unfold make. rewrite !repeat_length.
  cbn [Nat.eqb]. rewrite andb_false_r.
  rewrite (proj2 (Nat.leb_le _ _)) by lia. cbn [bind elems].
  rewrite Nat.sub_0_r, firstn_app, firstn_all, Nat.sub_diag.
  cbn [firstn]. rewrite app_nil_r.
  fold (make (length trie)). rewrite copy_make by reflexivity. reflexivity.
Qed.

(** C2. For every commitment state whose trie state is shorter than 2^16
    bytes, [Encode] yields the transaction number on eight big-endian bytes,
    the block number on eight big-endian bytes, the trie-state length on two
    big-endian bytes and then the trie state, and [Decode] of that encoding,
    whatever the spare capacity of the buffer, recovers the three fields. *)
Theorem Encode_Decode_round_trip (cs cs0 : commitmentState) (sp : list Z) :
  0 <= txNum cs < 2 ^ 64 ->
  0 <= blockNum cs < 2 ^ 64 ->
  Z.of_nat (length (trieState cs)) < 2 ^ 16 ->
  Encode cs = (state_record (txNum cs) (blockNum cs) (trieState cs), None)
  /\ Decode cs0 (mkSlice (fst (Encode cs)) sp) = Ret (cs, None).
Proof.
  intros Htx Hbn Hlen.
  assert (Hu : uint16 (Z.of_nat (length (trieState cs)))
               = Z.of_nat (length (trieState cs))).
  { unfold uint16. apply Z.mod_small. lia. }
  split.
  - rewrite Encode_bytes, Hu. unfold state_record.
    rewrite !bytes64_big_endian, bytes16_big_endian. reflexivity.
  - rewrite Encode_bytes, Hu. cbn [fst]. destruct cs as [tx bn trie].
    cbn [txNum blockNum trieState] in *.
    apply (Decode_layout _ _ _ _ _ _ _ _ (Z.of_nat (length trie)));
      try reflexivity.
    + rewrite <- (app_nil_r (bytes64 tx)). apply Uint64_bytes64. assumption.
    + rewrite <- (app_nil_r (bytes64 bn)). apply Uint64_bytes64. assumption.
    + rewrite <- (app_nil_r (bytes16 _)). apply Uint16_bytes16. lia.
    + apply Nat2Z.id.
Qed.

Lemma Encode_Decode_round_trip_witness :
  let cs := mkCommitmentState 5 7 [1; 2; 3] in
  (0 <= txNum cs < 2 ^ 64 /\ 0 <= blockNum cs < 2 ^ 64
   /\ Z.of_nat (length (trieState cs)) < 2 ^ 16)
  /\ Encode cs = (state_record 5 7 [1; 2; 3], None)
  /\ Decode zeroState (mkSlice (fst (Encode cs)) [0; 0]) = Ret (cs, None).
Proof.
  cbv zeta. split.
  - cbn. lia.
  - apply (Encode_Decode_round_trip (mkCommitmentState 5 7 [1; 2; 3])
             zeroState [0; 0]); cbn; lia.
Defined.

(** C10. A buffer of ten zero bytes passes the length check of [Decode] and
    ends in an out-of-range slice expression, not in an error; so does an
    eighteen-byte header announcing one byte of trie state that is not there,
    whereas the full eighteen-byte record of an empty trie state decodes. *)
Theorem Decode_out_of_range :
  Decode zeroState (of_list (make 10)) = Panic
  /\ Decode zeroState (of_list (state_record 0 0 [] ++ []))
     = Ret (mkCommitmentState 0 0 [], None)
  /\ Decode zeroState
       (of_list (big_endian 8 0 ++ big_endian 8 0 ++ big_endian 2 1))
     = Panic.
Proof. repeat split. Qed.

(** ** Short keys *)

Lemma decode_step (i b : Z) :
  0 <= b < 256 ->
  Z.lor (uint64 (Z.shiftl i 8)) b = b + (i mod 2 ^ 56) * 256.
Proof.
  intros Hb. unfold uint64. rewrite Z.shiftl_mul_pow2 by lia.
  change (2 ^ 64) with (2 ^ 56 * 2 ^ 8).
  rewrite Z.mul_mod_distr_r by lia.
  rewrite Z.lor_comm, <- (Z.shiftl_mul_pow2 _ 8) by lia.
  apply (lor_shiftl_byte _ _ 8 256); [lia | reflexivity | assumption].
Qed.

(** The key built by [replaceKeyWithReference] has the documented format. *)
Lemma shortKeyOf_format (s o : Z) : shortKeyOf s o = short_key s o.
Proof.
  unfold shortKeyOf, short_key, encodeU64, min_width.
  rewrite <- bytes16_big_endian.
  change (store (make 2) 0 (bytes16 s)) with (bytes16 s).
  repeat (match goal with |- context [if ?c then _ else _] => destruct c end);
    f_equal; cbn [big_endian app]; rewrite ?byte_shiftr by lia; unfold byte;
    pow2_numerals; rewrite ?Z.div_div by lia; reflexivity.
Qed.

Lemma decode_step_uint64 (i b : Z) :
  0 <= b < 256 -> Z.lor (uint64 (Z.shiftl i 8)) b = uint64 (i * 256 + b).
Proof.
  intros Hb. rewrite decode_step by assumption. unfold uint64.
  pow2_numerals. div_mod_lia.
Qed.

Lemma big_endian_range (n : nat) (v : Z) :
  Forall (fun b => 0 <= b < 256) (big_endian n v).
Proof.
  revert v. induction n as [| n IH]; intros v; cbn [big_endian].
  - constructor.
  - apply Forall_app. split; [apply IH |].
    constructor; [apply Z.mod_pos_bound; lia | constructor].
Qed.

(** Folding [decodeU64]'s step over [n] big-endian bytes shifts the
    accumulator by [n] bytes and adds the value, within 64 bits. *)
Lemma decode_big_endian (n : nat) (v acc : Z) :
  0 <= acc < 2 ^ 64 ->
  fold_left (fun i b => Z.lor (uint64 (Z.shiftl i 8)) b) (big_endian n v) acc
  = uint64 (acc * 2 ^ (8 * Z.of_nat n) + v mod 2 ^ (8 * Z.of_nat n)).
Proof.
  intros Hacc. revert v. induction n as [| n IH]; intros v.
  - cbn [big_endian fold_left]. change (2 ^ (8 * Z.of_nat 0)) with 1.
    rewrite Z.mod_1_r, Z.mul_1_r, Z.add_0_r. unfold uint64.
    symmetry. apply Z.mod_small. assumption.
  - cbn [big_endian]. rewrite fold_left_app. cbn [fold_left]. rewrite IH.
    rewrite decode_step_uint64 by (apply Z.mod_pos_bound; lia).
    unfold uint64.
    rewrite Z.add_mod, Z.mul_mod_idemp_l, <- Z.add_mod by lia.
    f_equal.
    replace (8 * Z.of_nat (S n)) with (8 + 8 * Z.of_nat n) by lia.
    rewrite Z.pow_add_r by lia. change (2 ^ 8) with 256.
    rewrite (Z.rem_mul_r v 256) by lia. ring.
Qed.

Lemma min_width_fits (o : Z) :
  0 <= o < 2 ^ 64 -> 0 <= o < 2 ^ (8 * Z.of_nat (min_width o)).
Proof.
  intros Ho. unfold min_width.
  repeat (match goal with
          | |- context [if ?c <? ?d then _ else _] =>
              destruct (Z.ltb_spec c d)
          end); cbn [Z.of_nat Z.mul Pos.of_succ_nat Pos.succ Pos.mul Pos.add];
    lia.
Qed.

Lemma min_width_least (o : Z) :
  0 <= o -> (1 <= min_width o <= 8)%nat
            /\ (min_width o = 1%nat
                \/ 2 ^ (8 * (Z.of_nat (min_width o) - 1)) <= o).
Proof.
  intros Ho. unfold min_width.
  repeat (match goal with
          | |- context [if ?c <? ?d then _ else _] =>
              destruct (Z.ltb_spec c d)
          end); (split; [lia |]); try (left; reflexivity); right;
    cbn [Z.of_nat Z.mul Z.sub Z.add Z.opp Z.pos_sub Pos.of_succ_nat Pos.succ
         Pos.mul Pos.add Pos.pred_double]; assumption.
Qed.

(** What [shortenedKey] reads back from such a key: the step, and an offset
    that still carries the low byte of the step above the offset bytes. *)
Lemma shortenedKey_shortKeyOf (s o : Z) (sp : list Z) :
  0 <= s < 2 ^ 16 -> 0 <= o < 2 ^ 64 ->
  shortenedKey (mkSlice (shortKeyOf s o) sp)
  = Ret (s, uint64 ((s mod 256) * 2 ^ (8 * Z.of_nat (min_width o)) + o)).
Proof.
  intros Hs Ho. rewrite shortKeyOf_format. unfold short_key.
  pose proof (Uint16_bytes16 s [] Hs) as Hstep.
  rewrite bytes16_big_endian in Hstep. cbn [big_endian app] in Hstep |- *.
  unfold shortenedKey, reslice, reslice_from, len, cap.
  cbn [elems spare length Nat.leb andb firstn skipn app Nat.sub Nat.add bind].
  rewrite Hstep. cbn [bind]. f_equal. f_equal.
  unfold decodeU64. cbn [fold_left].
  rewrite decode_step_uint64 by (apply Z.mod_pos_bound; lia).
  rewrite decode_big_endian by (unfold uint64; apply Z.mod_pos_bound; lia).
  f_equal. rewrite (Z.mod_small o) by (apply min_width_fits; assumption).
  f_equal. f_equal. unfold uint64. cbn [Z.mul Z.add].
  apply Z.mod_small. div_mod_lia.
Qed.

(** X4. The round trip through [shortKeyOf] and [shortenedKey] succeeds
    exactly when the low byte of the step is zero or the offset needs all
    eight bytes. *)
Lemma shortenedKey_round_trip_iff (s o : Z) (sp : list Z) :
  0 <= s < 2 ^ 16 -> 0 <= o < 2 ^ 64 ->
  shortenedKey (mkSlice (shortKeyOf s o) sp) = Ret (s, o)
  <-> s mod 256 = 0 \/ 2 ^ 56 <= o.
Proof.
  intros Hs Ho. rewrite shortenedKey_shortKeyOf by assumption.
  assert (Hb : 0 <= s mod 256 < 256) by (apply Z.mod_pos_bound; lia).
  set (b := s mod 256) in *. clearbody b.
  assert (Hiff : uint64 (b * 2 ^ (8 * Z.of_nat (min_width o)) + o) = o
                 <-> b = 0 \/ 2 ^ 56 <= o).
  { unfold uint64, min_width.
    repeat (match goal with
            | |- context [if ?c <? ?d then _ else _] =>
                destruct (Z.ltb_spec c d)
            end);
      cbn [Z.of_nat Z.mul Pos.of_succ_nat Pos.succ Pos.mul Pos.add];
      match goal with
      | |- context [2 ^ ?k] =>
          let v := eval vm_compute in (2 ^ k) in
          change (2 ^ k) with v
      end; pow2_numerals; (split; [intros Hx | intros [-> | Hx]]).
    all: try (left; rewrite Z.mod_small in Hx by lia; lia).
    all: try (apply Z.mod_small; lia).
    all: try lia.
    rewrite Z.add_comm, Z.mod_add by lia. apply Z.mod_small. lia. }
  split.
  - intros H. injection H as H. apply Hiff. assumption.
  - intros H. f_equal. f_equal. apply Hiff. assumption.
Qed.

(** C1. For the step 1 and the offset 0 the short key is the three bytes
    [00 01 00], of the documented format, and [shortenedKey] decodes it to
    the step 1 with the offset 256: the second byte of the step is read
    again as the first byte of the offset. *)
Theorem shortenedKey_reads_step_byte_as_offset :
  shortKeyOf 1 0 = short_key 1 0
  /\ shortKeyOf 1 0 = [0; 1; 0]
  /\ shortenedKey (of_list (shortKeyOf 1 0)) = Ret (1, 256).
Proof. repeat split. Qed.

(** ** Touch accumulator *)

Lemma bytes_Compare_refl (a : list Z) : bytes_Compare a a = Eq.
Proof.
  induction a as [| x a IH]; cbn [bytes_Compare]; [reflexivity |].
  rewrite Z.compare_refl. assumption.
Qed.

Lemma commitmentItemLess_irrefl (k c : CommitmentItem) :
  hashedKey k = hashedKey c -> commitmentItemLess k c = false.
Proof.
  intros H. unfold commitmentItemLess. rewrite H, bytes_Compare_refl.
  reflexivity.
Qed.

Lemma commitmentItemLess_key_l (k c x : CommitmentItem) :
  hashedKey k = hashedKey c ->
  commitmentItemLess k x = commitmentItemLess c x.
Proof. intros H. unfold commitmentItemLess. rewrite H. reflexivity. Qed.

Lemma commitmentItemLess_key_r (k c x : CommitmentItem) :
  hashedKey k = hashedKey c ->
  commitmentItemLess x k = commitmentItemLess x c.
Proof. intros H. unfold commitmentItemLess. rewrite H. reflexivity. Qed.

(** After [ReplaceOrInsert c], looking up the key of [c] finds [c]. *)
Lemma Get_ReplaceOrInsert (k c : CommitmentItem) (t : BTree) :
  hashedKey k = hashedKey c -> Get k (ReplaceOrInsert c t) = Some c.
Proof.
  intros Hk. induction t as [| x t IH]; cbn [ReplaceOrInsert].
  - cbn [Get]. rewrite !commitmentItemLess_irrefl by congruence. reflexivity.
  - destruct (commitmentItemLess c x) eqn:Hcx.
    + cbn [Get]. rewrite !commitmentItemLess_irrefl by congruence. reflexivity.
    + destruct (commitmentItemLess x c) eqn:Hxc.
      * cbn [Get]. rewrite (commitmentItemLess_key_l k c x Hk), Hcx.
        rewrite (commitmentItemLess_key_r k c x Hk), Hxc. assumption.
      * cbn [Get]. rewrite !commitmentItemLess_irrefl by congruence.
        reflexivity.
Qed.

(** An item found by [Get] has the key that was looked up. *)
Lemma bytes_Compare_eq (a b : list Z) : bytes_Compare a b = Eq -> a = b.
Proof.
  revert b. induction a as [| x a IH]; intros [| y b]; cbn [bytes_Compare];
    try discriminate; [reflexivity |].
  destruct (Z.compare_spec x y) as [-> | |]; try discriminate.
  intros H. f_equal. apply IH. assumption.
Qed.

Lemma bytes_Compare_antisym (a b : list Z) :
  bytes_Compare b a = CompOpp (bytes_Compare a b).
Proof.
  revert b. induction a as [| x a IH]; intros [| y b]; cbn [bytes_Compare];
    try reflexivity.
  rewrite (Z.compare_antisym x y).
  destruct (x ?= y); cbn [CompOpp]; [apply IH | reflexivity | reflexivity].
Qed.

Lemma Get_key (k x : CommitmentItem) (t : BTree) :
  Get k t = Some x -> hashedKey x = hashedKey k.
Proof.
  induction t as [| y t IH]; cbn [Get]; [discriminate |].
  destruct (commitmentItemLess k y) eqn:Hky; [discriminate |].
  destruct (commitmentItemLess y k) eqn:Hyk; [assumption |].
  intros H. injection H as <-.
  unfold commitmentItemLess in Hky, Hyk.
  rewrite (bytes_Compare_antisym (hashedKey k) (hashedKey y)) in Hyk.
  destruct (bytes_Compare (hashedKey k) (hashedKey y)) eqn:Hc;
    try discriminate.
  symmetry. apply bytes_Compare_eq. assumption.
Qed.

Lemma land_lor_same_r (a b : Z) : Z.land (Z.lor a b) b = b.
Proof.
  apply Z.bits_inj'. intros n _. rewrite Z.land_spec, Z.lor_spec.
  destruct (Z.testbit a n), (Z.testbit b n); reflexivity.
Qed.

Lemma land_lor_same_l (a b : Z) : Z.land (Z.lor a b) a = a.
Proof. rewrite Z.lor_comm. apply land_lor_same_r. Qed.

Lemma copy_same_length (dst src : list Z) :
  length dst = length src -> copy dst src = src.
Proof.
  intros H. unfold copy. rewrite H, firstn_all, skipn_all2 by lia.
  apply app_nil_r.
Qed.

Section TouchProperties.

Context (CODE_UPDATE DELETE_UPDATE BALANCE_UPDATE NONCE_UPDATE : Z).
Context (DecodeForStorage : Update -> list Z -> result Update).
Context (keccak256 : list Z -> list Z).
Context {Trie BranchData : Type}.
Context (trie_RootHash : Trie -> Trie * (list Z * option error)).
Context (trie_Reset : Trie -> Trie).
Context (trie_SetTrace : Trie -> bool -> Trie).
Context (trie_ReviewKeys :
  Trie -> list (list Z) -> list (list Z) ->
  Trie * (list Z * option BranchData * option error)).
Context (trie_ProcessUpdates :
  Trie -> list (list Z) -> list (list Z) -> list Update ->
  Trie * (list Z * option BranchData * option error)).

Local Abbreviation TouchAccount :=
  (TouchPlainKeyAccount CODE_UPDATE DELETE_UPDATE BALANCE_UPDATE NONCE_UPDATE
     DecodeForStorage).
Local Abbreviation Commit :=
  (ComputeCommitment trie_RootHash trie_Reset trie_SetTrace trie_ReviewKeys
     trie_ProcessUpdates).

(** [TouchedKeyList] hands out the items in order and leaves an empty
    accumulator. *)
Lemma TouchedKeyList_drains (d : DomainCommitted (Trie := Trie)) :
  commTree (fst (TouchedKeyList d)) = []
  /\ snd (TouchedKeyList d)
     = (map plainKey (commTree d), map hashedKey (commTree d),
        map update (commTree d)).
Proof. split; reflexivity. Qed.

(** C4. After [ComputeCommitment] the touch accumulator is empty, for every
    value of the mode, whatever the accumulator held and whatever the trie
    returns, an error included. *)
Theorem ComputeCommitment_clears_accumulator
  (d : DomainCommitted (Trie := Trie)) (trace : bool) :
  commTree (fst (Commit d trace)) = [].
Proof.
  unfold ComputeCommitment, TouchedKeyList.
  destruct (length (map plainKey (commTree d)) =? 0)%nat.
  - cbn [patriciaTrie setCommTree]. destruct (trie_RootHash _) as [t [rh e]].
    reflexivity.
  - cbn [mode setTrie setCommTree patriciaTrie commTree].
    destruct (mode d =? CommitmentModeDirect).
    + destruct (trie_ReviewKeys _ _ _) as [t [[rh bu] [e |]]]; reflexivity.
    + destruct (mode d =? CommitmentModeUpdate).
      * destruct (trie_ProcessUpdates _ _ _ _) as [t [[rh bu] [e |]]];
          reflexivity.
      * reflexivity.
Qed.

(** C5. In Update mode, an account touch with a non-empty value on a key
    whose accumulator entry carries [CODE_UPDATE] leaves, under that key, an
    entry whose flags are balance, nonce and code together and whose code
    hash is the one of the entry it replaces.  (Both code hashes are arrays
    of the same type, hence of the same length.) *)
Theorem TouchPlainKey_account_keeps_code
  (d : DomainCommitted (Trie := Trie)) (key val hk : list Z)
  (item : CommitmentItem) (u : Update) :
  mode d = CommitmentModeUpdate ->
  val <> [] ->
  hashAndNibblizeKey keccak256 key = Ret hk ->
  Get (mkCommitmentItem [] hk zeroUpdate) (commTree d) = Some item ->
  Z.land (Flags (update item)) CODE_UPDATE <> 0 ->
  DecodeForStorage zeroUpdate val = Ret u ->
  length (CodeHashOrStorage u) = length (CodeHashOrStorage (update item)) ->
  exists d' c,
    TouchPlainKey keccak256 d key val (TouchAccount d) = Ret d'
    /\ Get (mkCommitmentItem [] hk zeroUpdate) (commTree d') = Some c
    /\ plainKey c = key /\ hashedKey c = hashedKey item
    /\ Flags (update c)
       = Z.lor (Z.lor BALANCE_UPDATE NONCE_UPDATE) CODE_UPDATE
    /\ Z.land (Flags (update c)) BALANCE_UPDATE = BALANCE_UPDATE
    /\ Z.land (Flags (update c)) NONCE_UPDATE = NONCE_UPDATE
    /\ Z.land (Flags (update c)) CODE_UPDATE = CODE_UPDATE
    /\ CodeHashOrStorage (update c) = CodeHashOrStorage (update item).
Proof.
  intros Hmode Hval Hhk Hget Hcode Hdec Hlen.
  set (u' := setCodeHashOrStorage
               (setFlags (setFlags u (Z.lor BALANCE_UPDATE NONCE_UPDATE))
                  (Z.lor (Z.lor BALANCE_UPDATE NONCE_UPDATE) CODE_UPDATE))
               (CodeHashOrStorage (update item))).
  set (c := mkCommitmentItem key hk u').
  assert (Hfn : TouchAccount d (mkCommitmentItem key hk zeroUpdate) val = Ret c).
  { unfold TouchPlainKeyAccount.
    destruct val as [| v val]; [contradiction |].
    cbn [length Nat.eqb update hashedKey]. rewrite Hdec. cbn [bind].
    rewrite Hget.
    destruct (Z.eqb_spec (Z.land (Flags (update item)) CODE_UPDATE) 0)
      as [E | _]; [contradiction |].
    cbn [negb]. unfold c, u', setUpdate.
    cbn [plainKey hashedKey setFlags setCodeHashOrStorage Flags Balance Nonce
         CodeHashOrStorage ValLength].
    rewrite copy_same_length by assumption. reflexivity. }
  exists (setCommTree d (ReplaceOrInsert c (commTree d))), c.
  split; [| split; [| split; [| split; [| split; [| split; [| split;
    [| split]]]]]]].
  - unfold TouchPlainKey. rewrite Hmode. cbn [Z.eqb CommitmentModeUpdate
      CommitmentModeDisabled CommitmentModeDirect Z.gtb Z.compare
      Pos.compare Pos.compare_cont]. rewrite Hhk. cbn [bind].
    rewrite Hfn. reflexivity.
  - cbn [commTree setCommTree]. apply Get_ReplaceOrInsert. reflexivity.
  - reflexivity.
  - cbn [c hashedKey]. symmetry.
    apply (Get_key _ _ _ Hget).
  - reflexivity.
  - cbn [c update u' Flags setCodeHashOrStorage setFlags].
    rewrite <- Z.lor_assoc. apply land_lor_same_l.
  - cbn [c update u' Flags setCodeHashOrStorage setFlags].
    rewrite (Z.lor_comm BALANCE_UPDATE), <- Z.lor_assoc.
    apply land_lor_same_l.
  - cbn [c update u' Flags setCodeHashOrStorage setFlags].
    apply land_lor_same_r.
  - reflexivity.
Qed.

End TouchProperties.

Lemma TouchPlainKey_account_keeps_code_witness :
  let keccak := fun _ : list Z => repeat 0 32 in
  let decode := fun (u : Update) (_ : list Z) => Ret (setNonce u 1) in
  let key := repeat 1 20 in
  let hk := repeat 0 64 in
  let item := mkCommitmentItem key hk (mkUpdate 1 0 0 (repeat 9 32) 0) in
  let d := mkDomainCommitted CommitmentModeUpdate [item] tt 0 in
  (mode d = CommitmentModeUpdate /\ [5] <> []
   /\ hashAndNibblizeKey keccak key = Ret hk
   /\ Get (mkCommitmentItem [] hk zeroUpdate) (commTree d) = Some item
   /\ Z.land (Flags (update item)) 1 <> 0
   /\ decode zeroUpdate [5] = Ret (setNonce zeroUpdate 1)
   /\ length (CodeHashOrStorage (setNonce zeroUpdate 1))
      = length (CodeHashOrStorage (update item)))
  /\ exists d' c,
      TouchPlainKey keccak d key [5] (TouchPlainKeyAccount 1 2 4 8 decode d)
      = Ret d'
      /\ Get (mkCommitmentItem [] hk zeroUpdate) (commTree d') = Some c
      /\ plainKey c = key /\ hashedKey c = hashedKey item
      /\ Flags (update c) = Z.lor (Z.lor 4 8) 1
      /\ Z.land (Flags (update c)) 4 = 4
      /\ Z.land (Flags (update c)) 8 = 8
      /\ Z.land (Flags (update c)) 1 = 1
      /\ CodeHashOrStorage (update c) = CodeHashOrStorage (update item).
Proof.
  cbv zeta. split.
  - repeat split; try reflexivity; discriminate.
  - apply (TouchPlainKey_account_keeps_code 1 2 4 8
             (fun (u : Update) (_ : list Z) => Ret (setNonce u 1))
             (fun _ : list Z => repeat 0 32)
             (mkDomainCommitted CommitmentModeUpdate
                [mkCommitmentItem (repeat 1 20) (repeat 0 64)
                   (mkUpdate 1 0 0 (repeat 9 32) 0)] tt 0)
             (repeat 1 20) [5] (repeat 0 64)
             (mkCommitmentItem (repeat 1 20) (repeat 0 64)
                (mkUpdate 1 0 0 (repeat 9 32) 0))
             (setNonce zeroUpdate 1));
      try reflexivity; discriminate.
Defined.

(** ** [SeekCommitment] *)

Lemma Decode_nil_slice_fails (cs : commitmentState) :
  Decode cs nil_slice
  = Ret (cs, Some "ivalid commitment state buffer size"%string).
Proof. reflexivity. Qed.

Section SeekProperties.

Context {Trie : Type}.
Context (trie_SetState : Trie -> list Z -> Trie * option error).
Context (ctx_Get :
  DomainCommitted (Trie := Trie) -> list Z -> list Z -> slice * option error).

(** With no entry under the first step looked up, the search ends at once
    with an empty state buffer, and [SeekCommitment] returns [(0, nil)]. *)
Lemma SeekCommitment_no_checkpoint (fuel : nat)
  (d : DomainCommitted (Trie := Trie)) (aggStep sinceTx : Z) (s : slice) :
  aggStep <> 0 ->
  ctx_Get (SetTxNum d (uint64 (sinceTx - 1))) keyCommitmentState
    (bytes16 (uint16 (uint16 (sinceTx / aggStep) - 1))) = (s, None) ->
  (len s < 8)%nat ->
  seekSearch ctx_Get (S fuel) d aggStep sinceTx
  = Some (Ret (SetTxNum d (uint64 (sinceTx - 1)), SeekBreak nil_slice))
  /\ SeekCommitment trie_SetState ctx_Get (S fuel) d aggStep sinceTx
     = Some (Ret (SetTxNum d (uint64 (sinceTx - 1)), (0, None))).
Proof.
  intros Hstep Hget Hlen.
  assert (Hsearch :
    seekSearch ctx_Get (S fuel) d aggStep sinceTx
    = Some (Ret (SetTxNum d (uint64 (sinceTx - 1)), SeekBreak nil_slice))).
  { unfold seekSearch. destruct (Z.eqb_spec aggStep 0); [contradiction |].
    cbn [seekLoop].
    change (store (make 2) 0 (bytes16 ?x)) with (bytes16 x).
    rewrite Hget. apply Nat.ltb_lt in Hlen. rewrite Hlen. reflexivity. }
  split; [assumption |].
  unfold SeekCommitment. rewrite Hsearch. reflexivity.
Qed.

(** C3. When the search of [SeekCommitment] ends on a latest state that
    [Decode] rejects, [SeekCommitment] returns [(0, nil)]; and these are the
    values it returns for a state that decodes to the transaction number 0
    and is accepted by the trie. *)
Theorem SeekCommitment_decode_failure_returns_zero (fuel : nat)
  (d d' : DomainCommitted (Trie := Trie)) (aggStep sinceTx : Z)
  (latestState : slice) :
  seekSearch ctx_Get fuel d aggStep sinceTx
  = Some (Ret (d', SeekBreak latestState)) ->
  (exists cs e, Decode zeroState latestState = Ret (cs, Some e)) ->
  SeekCommitment trie_SetState ctx_Get fuel d aggStep sinceTx
  = Some (Ret (d', (0, None)))
  /\ forall (st0 : slice) (cs0 : commitmentState) (t : Trie),
       Decode zeroState st0 = Ret (cs0, None) ->
       txNum cs0 = 0 ->
       trie_SetState (patriciaTrie d') (trieState cs0) = (t, None) ->
       seekFinish trie_SetState (d', SeekBreak st0)
       = Ret (setTrie d' t, (0, None)).
Proof.
  intros Hsearch (cs & e & Hdec). split.
  - unfold SeekCommitment. rewrite Hsearch. cbn [bind seekFinish].
    rewrite Hdec. reflexivity.
  - intros st0 cs0 t Hdec0 Htx Hset. cbn [seekFinish].
    rewrite Hdec0. cbn [bind]. rewrite Hset, Htx. reflexivity.
Qed.

End SeekProperties.

Lemma SeekCommitment_decode_failure_returns_zero_witness :
  let setState := fun (t : unit) (_ : list Z) => (t, @None error) in
  let get := fun (_ : DomainCommitted (Trie := unit)) (_ _ : list Z) =>
               (nil_slice, @None error) in
  let d := mkDomainCommitted CommitmentModeDirect [] tt 0 in
  let d' := SetTxNum d 7 in
  (seekSearch get 1 d 4 8 = Some (Ret (d', SeekBreak nil_slice))
   /\ exists cs e, Decode zeroState nil_slice = Ret (cs, Some e))
  /\ SeekCommitment setState get 1 d 4 8 = Some (Ret (d', (0, None)))
  /\ seekFinish setState (d', SeekBreak (of_list (state_record 0 9 [1; 2])))
     = Ret (setTrie d' tt, (0, None)).
Proof.
  cbv zeta.
  assert (Hs : seekSearch
                 (fun (_ : DomainCommitted (Trie := unit)) (_ _ : list Z) =>
                    (nil_slice, @None error))
                 1 (mkDomainCommitted CommitmentModeDirect [] tt 0) 4 8
               = Some (Ret (SetTxNum (mkDomainCommitted CommitmentModeDirect
                                        [] tt 0) 7,
                            SeekBreak nil_slice))) by reflexivity.
  assert (Hd : exists cs e, Decode zeroState nil_slice = Ret (cs, Some e))
    by (eexists; eexists; reflexivity).
  split; [split; assumption |].
  destruct (SeekCommitment_decode_failure_returns_zero
              (fun (t : unit) (_ : list Z) => (t, @None error))
              _ 1 _ _ 4 8 nil_slice Hs Hd) as [H1 H2].
  split; [exact H1 |].
  apply (H2 (of_list (state_record 0 9 [1; 2]))
            (mkCommitmentState 0 9 [1; 2]) tt); reflexivity.
Defined.

(** ** Aggregator *)

Import Aggregator.

Lemma skipn_nth_error {A : Type} (l : list A) (i : nat) (x : A) :
  nth_error l i = Some x -> skipn i l = x :: skipn (S i) l.
Proof.
  revert i. induction l as [| y l IH]; intros [| i]; cbn [nth_error skipn];
    try discriminate.
  - intros H. injection H as ->. reflexivity.
  - intros H. apply IH. assumption.
Qed.

(** One step of a running minimum, as [recalcMaxTxNum] writes it. *)
Lemma running_min (x m : Z) : (if x <? m then x else m) = Z.min m x.
Proof. destruct (Z.ltb_spec x m); lia. Qed.

Lemma fold_min_is_minimum (l : list Z) (x : Z) :
  is_minimum_of (fold_left Z.min l x) (x :: l).
Proof.
  revert x. induction l as [| y l IH]; intros x; cbn [fold_left].
  - split; [left; reflexivity | constructor; [lia | constructor]].
  - destruct (IH (Z.min x y)) as [Hin Hall]. split.
    + destruct Hin as [Hm | Hin].
      * destruct (Z.min_spec x y) as [[_ E] | [_ E]]; [left | right; left];
          (transitivity (Z.min x y); [symmetry; exact E | exact Hm]).
      * right. right. assumption.
    + inversion Hall as [| ? ? Hm Hl]; subst.
      apply Forall_cons; [lia |]. apply Forall_cons; [lia | assumption].
Qed.

Section AggregatorProperties.

Context {History InvertedIndex HistoryCollation InvertedCollation
         HistoryFiles InvertedFiles HistoryStep DB : Type}.
Context (NewHistory :
  string -> string -> Z -> string -> bool -> History * option error).
Context (NewInvertedIndex :
  string -> string -> Z -> string -> InvertedIndex * option error).
Context (h_endTxNumMinimax : History -> Z).
Context (ii_endTxNumMinimax : InvertedIndex -> Z).
Context (h_endIndexedTxNumMinimax : History -> Z).
Context (h_indexKeysTable : History -> string).
Context (h_collate :
  History -> Z -> Z -> Z -> DB -> HistoryCollation * option error).
Context (h_buildFiles :
  History -> Z -> HistoryCollation -> HistoryFiles * option error).
Context (ii_collate :
  InvertedIndex -> Z -> Z -> DB -> InvertedCollation * option error).
Context (ii_buildFiles :
  InvertedIndex -> Z -> InvertedCollation -> InvertedFiles * option error).
Context (h_integrateFiles : History -> HistoryFiles -> Z -> Z -> History).
Context (ii_integrateFiles :
  InvertedIndex -> InvertedFiles -> Z -> Z -> InvertedIndex).
Context (h_MakeSteps : History -> Z -> list HistoryStep).
Context (lastIdInDB : DB -> string -> Z).
Context (noHistoryFiles : HistoryFiles) (noInvertedFiles : InvertedFiles).

Local Abbreviation Agg := (AggregatorV3 (History := History)
                             (InvertedIndex := InvertedIndex)).
Local Abbreviation recalc :=
  (recalcMaxTxNum h_endTxNumMinimax ii_endTxNumMinimax).
Local Abbreviation integrate :=
  (integrateFiles h_endTxNumMinimax ii_endTxNumMinimax h_integrateFiles
     ii_integrateFiles).
Local Abbreviation reopen :=
  (ReopenFiles NewHistory NewInvertedIndex h_endTxNumMinimax
     ii_endTxNumMinimax).
Local Abbreviation ends :=
  (componentEnds h_endTxNumMinimax ii_endTxNumMinimax).
Local Abbreviation build :=
  (BuildFiles h_endTxNumMinimax ii_endTxNumMinimax h_indexKeysTable
     h_collate h_buildFiles ii_collate ii_buildFiles h_integrateFiles
     ii_integrateFiles lastIdInDB noHistoryFiles noInvertedFiles).
Local Abbreviation makeSteps :=
  (MakeSteps h_endIndexedTxNumMinimax h_MakeSteps).
Local Abbreviation limit := (stepsLimit h_endIndexedTxNumMinimax).

(** *** The frontier *)

Lemma recalcMaxTxNum_nested_min (a : Agg) :
  maxTxNum (recalc a)
  = Z.min (Z.min (Z.min (Z.min (Z.min (Z.min
      (h_endTxNumMinimax (accounts a)) (h_endTxNumMinimax (storage a)))
      (h_endTxNumMinimax (code a))) (ii_endTxNumMinimax (logAddrs a)))
      (ii_endTxNumMinimax (logTopics a))) (ii_endTxNumMinimax (tracesFrom a)))
      (ii_endTxNumMinimax (tracesTo a)).
Proof.
  unfold recalcMaxTxNum. cbn [maxTxNum setMaxTxNum].
  rewrite !running_min. reflexivity.
Qed.

Lemma recalcMaxTxNum_minimum (a : Agg) :
  is_minimum_of (maxTxNum (recalc a)) (ends (recalc a)).
Proof.
  rewrite recalcMaxTxNum_nested_min. apply (fold_min_is_minimum
    [h_endTxNumMinimax (storage a); h_endTxNumMinimax (code a);
     ii_endTxNumMinimax (logAddrs a); ii_endTxNumMinimax (logTopics a);
     ii_endTxNumMinimax (tracesFrom a); ii_endTxNumMinimax (tracesTo a)]).
Qed.

(** C7. After [recalcMaxTxNum], and so after [integrateFiles] and after a
    [ReopenFiles] that returns no error, the aggregator's [maxTxNum] is the
    minimum of [endTxNumMinimax] over accounts, storage, code, logAddrs,
    logTopics, tracesFrom and tracesTo. *)
Theorem maxTxNum_is_minimum_over_components (a : Agg) :
  is_minimum_of (maxTxNum (recalc a)) (ends (recalc a))
  /\ (forall (sf : Agg22StaticFiles) (txNumFrom txNumTo : Z),
        is_minimum_of (maxTxNum (integrate a sf txNumFrom txNumTo))
          (ends (integrate a sf txNumFrom txNumTo)))
  /\ (forall a' : Agg,
        reopen a = (a', None) -> is_minimum_of (maxTxNum a') (ends a')).
Proof.
  split; [apply recalcMaxTxNum_minimum |]. split.
  - intros sf f t. unfold integrateFiles. apply recalcMaxTxNum_minimum.
  - intros a'. unfold ReopenFiles.
    destruct (NewHistory _ _ _ "accounts"%string _) as [h1 [e |]];
      [discriminate |].
    destruct (NewHistory _ _ _ "storage"%string _) as [h2 [e |]];
      [discriminate |].
    destruct (NewHistory _ _ _ "code"%string _) as [h3 [e |]];
      [discriminate |].
    destruct (NewInvertedIndex _ _ _ "logaddrs"%string) as [i1 [e |]];
      [discriminate |].
    destruct (NewInvertedIndex _ _ _ "logtopics"%string) as [i2 [e |]];
      [discriminate |].
    destruct (NewInvertedIndex _ _ _ "tracesfrom"%string) as [i3 [e |]];
      [discriminate |].
    destruct (NewInvertedIndex _ _ _ "tracesto"%string) as [i4 [e |]];
      [discriminate |].
    intros H. injection H as <-. apply recalcMaxTxNum_minimum.
Qed.

(** *** The build threshold *)

(** Without overflow the guard is the inequality over the integers. *)
Lemma belowBuildThreshold_exact (a : Agg) :
  0 <= txNum a -> txNum a + 1 < 2 ^ 64 ->
  0 <= maxTxNum a -> 0 <= aggregationStep a -> 0 <= keepInDB a ->
  maxTxNum a + aggregationStep a + keepInDB a < 2 ^ 64 ->
  belowBuildThreshold a = true
  <-> txNum a + 1 <= maxTxNum a + aggregationStep a + keepInDB a.
Proof.
  intros. unfold belowBuildThreshold, uint64. rewrite Z.leb_le.
  rewrite (Z.mod_small (txNum a + 1)) by lia.
  rewrite (Z.mod_small (maxTxNum a + aggregationStep a)) by lia.
  rewrite Z.mod_small by lia. reflexivity.
Qed.

(** C6. When [txNum + 1 <= maxTxNum + aggregationStep + keepInDB], computed
    on [uint64] as the source does, [BuildFiles] and
    [BuildFilesInBackground] return [nil] at once: no component is collated,
    no file is built or integrated, no goroutine is started, and the
    aggregator, its components and [maxTxNum] included, is unchanged. *)
Theorem build_below_threshold_is_no_op (fuel : nat) (a : Agg) (db : DB) :
  uint64 (txNum a + 1)
    <= uint64 (uint64 (maxTxNum a + aggregationStep a) + keepInDB a) ->
  build fuel a db = Some (Ret (a, [], None))
  /\ BuildFilesInBackground a db = Ret (a, [], None).
Proof.
  intros H. apply Z.leb_le in H.
  unfold BuildFiles, BuildFilesInBackground, belowBuildThreshold.
  rewrite H. split; reflexivity.
Qed.

(** *** Per-step reader views *)

Lemma fillSteps_zip (a : Agg) (accs sto cod : list HistoryStep) (i : nat) :
  length sto = (i + length accs)%nat ->
  length cod = (i + length accs)%nat ->
  fillSteps a i accs sto cod
  = Ret (map (fun p => mkAggregatorStep a (fst p) (fst (snd p))
                         (snd (snd p)) [])
           (combine accs (combine (skipn i sto) (skipn i cod)))).
Proof.
  revert i. induction accs as [| x accs IH]; intros i Hs Hc;
    cbn [fillSteps]; [reflexivity |].
  cbn [length] in Hs, Hc.
  destruct (nth_error sto i) as [s |] eqn:Es;
    [| apply nth_error_None in Es; lia].
  destruct (nth_error cod i) as [c |] eqn:Ec;
    [| apply nth_error_None in Ec; lia].
  rewrite IH by lia. cbn [bind].
  rewrite (skipn_nth_error _ _ _ Es), (skipn_nth_error _ _ _ Ec).
  reflexivity.
Qed.

Lemma nth_error_zip (a : Agg) (accs sto cod : list HistoryStep) (i : nat)
  (x y z : HistoryStep) :
  nth_error accs i = Some x -> nth_error sto i = Some y ->
  nth_error cod i = Some z ->
  nth_error (map (fun p => mkAggregatorStep a (fst p) (fst (snd p))
                             (snd (snd p)) [])
               (combine accs (combine sto cod))) i
  = Some (mkAggregatorStep a x y z []).
Proof.
  revert sto cod i.
  induction accs as [| x' accs IH]; intros [| y' sto] [| z' cod] [| i];
    cbn [nth_error combine map]; try discriminate.
  - intros Hx Hy Hz. injection Hx as ->. injection Hy as ->.
    injection Hz as ->. reflexivity.
  - apply IH.
Qed.


End AggregatorProperties.

(** *** Instances *)

Lemma maxTxNum_is_minimum_over_components_witness :
  let newH := fun (_ _ : string) (_ : Z) (name : string) (_ : bool) =>
                (Z.of_nat (String.length name) * 4, @None error) in
  let newI := fun (_ _ : string) (_ : Z) (name : string) =>
                (Z.of_nat (String.length name) * 4, @None error) in
  let a := mkAggregatorV3 0 0 0 0 0 0 0 "dir" "tmp" 0 4 8 0 false false in
  let a' := fst (ReopenFiles newH newI (fun h => h) (fun i => i) a) in
  ReopenFiles newH newI (fun h => h) (fun i => i) a = (a', None)
  /\ is_minimum_of (maxTxNum a')
       (componentEnds (fun h : Z => h) (fun i : Z => i) a')
  /\ componentEnds (fun h : Z => h) (fun i : Z => i) a'
     = [32; 28; 16; 32; 36; 40; 32]
  /\ maxTxNum a' = 16.
Proof.
  cbv zeta. split; [reflexivity |]. split; [| split; reflexivity].
  apply (proj2 (proj2 (maxTxNum_is_minimum_over_components
           (fun (_ _ : string) (_ : Z) (name : string) (_ : bool) =>
              (Z.of_nat (String.length name) * 4, @None error))
           (fun (_ _ : string) (_ : Z) (name : string) =>
              (Z.of_nat (String.length name) * 4, @None error))
           (fun h : Z => h) (fun i : Z => i)
           (fun (h : Z) (_ : unit) (_ _ : Z) => h)
           (fun (i : Z) (_ : unit) (_ _ : Z) => i)
           (mkAggregatorV3 0 0 0 0 0 0 0 "dir" "tmp" 0 4 8 0 false false)))).
  reflexivity.
Defined.

Lemma build_below_threshold_is_no_op_witness :
  let a := mkAggregatorV3 8 8 8 8 8 8 8 "dir" "tmp" 19 4 8 8 false false in
  let collate := fun (_ : Z) (_ _ _ : Z) (_ : unit) => (tt, @None error) in
  let icollate := fun (_ : Z) (_ _ : Z) (_ : unit) => (tt, @None error) in
  let files := fun (_ : Z) (_ : Z) (_ : unit) => (tt, @None error) in
  let integ := fun (h : Z) (_ : unit) (_ to : Z) => to in
  let last := fun (_ : unit) (_ : string) => 100 in
  uint64 (txNum a + 1)
    <= uint64 (uint64 (maxTxNum a + aggregationStep a) + keepInDB a)
  /\ BuildFiles (fun h => h) (fun i => i) (fun _ => "keys"%string) collate
       files icollate files integ integ last tt tt 0 a tt
     = Some (Ret (a, [], None))
  /\ BuildFilesInBackground a tt = Ret (a, [], None).
Proof.
  cbv zeta. split.
  - vm_compute. discriminate.
  - apply (build_below_threshold_is_no_op (fun h : Z => h) (fun i : Z => i)
             (fun _ : Z => "keys"%string)
             (fun (_ : Z) (_ _ _ : Z) (_ : unit) => (tt, @None error))
             (fun (_ : Z) (_ : Z) (_ : unit) => (tt, @None error))
             (fun (_ : Z) (_ _ : Z) (_ : unit) => (tt, @None error))
             (fun (_ : Z) (_ : Z) (_ : unit) => (tt, @None error))
             (fun (h : Z) (_ : unit) (_ to : Z) => to)
             (fun (h : Z) (_ : unit) (_ to : Z) => to)
             (fun (_ : unit) (_ : string) => 100) tt tt 0
             (mkAggregatorV3 8 8 8 8 8 8 8 "dir" "tmp" 19 4 8 8 false false)
             tt).
    vm_compute. discriminate.
Defined.


(* ================================================================= *)
(** * Part III: further properties of the same code *)
(* ================================================================= *)

(** ** [encodeU64] and [decodeU64] *)

Lemma encodeU64_big_endian (i : Z) (to : list Z) :
  encodeU64 i to = to ++ big_endian (min_width i) i.
Proof.
  unfold encodeU64, min_width.
  repeat (match goal with |- context [if ?c then _ else _] => destruct c end);
    f_equal; cbn [big_endian app]; rewrite ?byte_shiftr by lia; unfold byte;
    pow2_numerals; rewrite ?Z.div_div by lia; reflexivity.
Qed.

Lemma big_endian_length (n : nat) (v : Z) : length (big_endian n v) = n.
Proof.
  revert v. induction n as [| n IH]; intros v; cbn [big_endian];
    [reflexivity |].
  rewrite length_app, IH. cbn [length]. lia.
Qed.

(** X1. [encodeU64] appends the big-endian bytes of a [uint64] on the least
    width that holds it: between one and eight bytes, enough for the value,
    and, beyond one byte, not one byte more than needed. *)
Theorem encodeU64_least_width (i : Z) (to : list Z) :
  0 <= i < 2 ^ 64 ->
  let w := min_width i in
  encodeU64 i to = to ++ big_endian w i
  /\ length (encodeU64 i to) = (length to + w)%nat
  /\ (1 <= w <= 8)%nat
  /\ i < 2 ^ (8 * Z.of_nat w)
  /\ (w = 1%nat \/ 2 ^ (8 * (Z.of_nat w - 1)) <= i).
Proof.
  intros Hi. cbv zeta. split; [apply encodeU64_big_endian |].
  split; [rewrite encodeU64_big_endian, length_app, big_endian_length;
          reflexivity |].
  destruct (min_width_least i (proj1 Hi)) as [Hw Hleast].
  split; [exact Hw |]. split; [apply min_width_fits; assumption | exact Hleast].
Qed.

Lemma encodeU64_least_width_witness :
  0 <= 65536 < 2 ^ 64
  /\ encodeU64 65536 [9] = [9; 1; 0; 0]
  /\ min_width 65536 = 3%nat.
Proof.
  split; [lia |].
  destruct (encodeU64_least_width 65536 [9]) as (H & _); [lia |].
  split; [rewrite H; reflexivity | reflexivity].
Defined.

(** X2. [decodeU64] reads back what [encodeU64] wrote into an empty buffer,
    for every [uint64]. *)
Theorem decodeU64_encodeU64 (i : Z) :
  0 <= i < 2 ^ 64 -> decodeU64 (encodeU64 i []) = i.
Proof.
  intros Hi. rewrite encodeU64_big_endian. cbn [app]. unfold decodeU64.
  rewrite decode_big_endian by lia.
  rewrite Z.mul_0_l, Z.add_0_l.
  rewrite (Z.mod_small i) by (apply min_width_fits; assumption).
  unfold uint64. apply Z.mod_small. assumption.
Qed.

Lemma decodeU64_encodeU64_witness :
  0 <= 4660 < 2 ^ 64 /\ decodeU64 (encodeU64 4660 []) = 4660.
Proof. split; [lia | apply (decodeU64_encodeU64 4660); lia]. Defined.

Lemma decode_fold_value (l : list Z) (acc acc' : Z) :
  all_bytes l -> acc = acc' mod 2 ^ 64 ->
  fold_left (fun i b => Z.lor (uint64 (Z.shiftl i 8)) b) l acc
  = (fold_left (fun a b => a * 256 + b) l acc') mod 2 ^ 64.
Proof.
  intros Hl. revert acc acc'.
  induction Hl as [| b l Hb Hl IH]; intros acc acc' Hacc; cbn [fold_left].
  - assumption.
  - apply IH. rewrite decode_step_uint64 by assumption. unfold uint64.
    rewrite Hacc.
    rewrite Z.add_mod, Z.mul_mod_idemp_l, <- Z.add_mod by lia. reflexivity.
Qed.

Lemma be_fold_shift (l : list Z) (a : Z) :
  fold_left (fun a b => a * 256 + b) l a
  = a * 256 ^ Z.of_nat (length l) + fold_left (fun a b => a * 256 + b) l 0.
Proof.
  revert a. induction l as [| b l IH]; intros a; cbn [fold_left length].
  - change (256 ^ Z.of_nat 0) with 1. lia.
  - rewrite IH, (IH (0 * 256 + b)). rewrite Nat2Z.inj_succ, Z.pow_succ_r by lia.
    ring.
Qed.

(** X3. On bytes, [decodeU64] is the big-endian value of its input reduced
    modulo 2^64; so of a longer input only the last eight bytes count. *)
Theorem decodeU64_value (pre l : list Z) :
  all_bytes pre -> all_bytes l ->
  decodeU64 l = be_value l mod 2 ^ 64
  /\ (length l = 8%nat -> decodeU64 (pre ++ l) = decodeU64 l).
Proof.
  intros Hpre Hl.
  assert (Hval : forall x, all_bytes x -> decodeU64 x = be_value x mod 2 ^ 64).
  { intros x Hx. unfold decodeU64, be_value.
    apply decode_fold_value; [assumption | reflexivity]. }
  split; [apply Hval; assumption |].
  intros H8. rewrite (Hval l Hl), (Hval (pre ++ l)) by (apply Forall_app; auto).
  unfold be_value. rewrite fold_left_app, be_fold_shift, H8.
  change (256 ^ Z.of_nat 8) with (2 ^ 64).
  rewrite Z.add_comm, Z.mod_add by lia. reflexivity.
Qed.

Lemma decodeU64_value_witness :
  (all_bytes [7] /\ all_bytes [0; 0; 0; 0; 0; 0; 1; 2])
  /\ decodeU64 [0; 0; 0; 0; 0; 0; 1; 2] = 258
  /\ decodeU64 ([7] ++ [0; 0; 0; 0; 0; 0; 1; 2]) = 258.
Proof.
  assert (H1 : all_bytes [7]) by (repeat constructor; lia).
  assert (H2 : all_bytes [0; 0; 0; 0; 0; 0; 1; 2]) by (repeat constructor; lia).
  split; [split; assumption |].
  destruct (decodeU64_value [7] [0; 0; 0; 0; 0; 0; 1; 2] H1 H2) as [Hv Hlast].
  split; [rewrite Hv; reflexivity |].
  rewrite (Hlast eq_refl), Hv. reflexivity.
Defined.

Lemma shortenedKey_round_trip_iff_witness :
  (0 <= 256 < 2 ^ 16 /\ 0 <= 77 < 2 ^ 64)
  /\ (256 mod 256 = 0 \/ 2 ^ 56 <= 77)
  /\ shortenedKey (mkSlice (shortKeyOf 256 77) []) = Ret (256, 77).
Proof.
  split; [lia |]. split; [left; reflexivity |].
  apply (proj2 (shortenedKey_round_trip_iff 256 77 [] ltac:(lia) ltac:(lia))).
  left. reflexivity.
Defined.

(** ** [shortenedKey] and [Decode] at their bounds *)

(** [shortenedKey] panics exactly on a key whose capacity is below two or
    whose length is zero; on any other key it returns. *)
Theorem shortenedKey_panics_iff (apk : slice) :
  shortenedKey apk = Panic <-> (cap apk < 2)%nat \/ (len apk < 1)%nat.
Proof.
  unfold shortenedKey, reslice, reslice_from, len, cap.
  destruct apk as [el sp]. cbn [elems spare].
  destruct el as [| a [| b el]]; destruct sp as [| x [| y sp]];
    cbn [length app skipn firstn Nat.leb Nat.add Nat.sub andb bind elems
         Uint16];
    (split; intros H; [try discriminate H; lia | try reflexivity; lia]).
Qed.

Lemma shortenedKey_panics_iff_witness :
  let apk := of_list [5] in
  ((cap apk < 2)%nat \/ (len apk < 1)%nat) /\ shortenedKey apk = Panic.
Proof.
  cbv zeta. split; [left; cbn; lia |].
  apply (proj2 (shortenedKey_panics_iff (of_list [5]))). left. cbn. lia.
Defined.

(** X5. [Decode] returns its error on every buffer shorter than ten bytes,
    leaving the receiver as it was, and on no other buffer. *)
Theorem Decode_rejects_short_buffers_only (cs : commitmentState) (buf : slice) :
  ((len buf < 10)%nat ->
   Decode cs buf = Ret (cs, Some "ivalid commitment state buffer size"%string))
  /\ ((exists cs' e, Decode cs buf = Ret (cs', Some e)) -> (len buf < 10)%nat).
Proof.
  split.
  - intros H. unfold Decode. apply Nat.ltb_lt in H. rewrite H. reflexivity.
  - apply Decode_error_iff.
Qed.

Lemma Decode_rejects_short_buffers_only_witness :
  let buf := of_list [1; 2; 3; 4; 5; 6; 7; 8; 9] in
  let cs := mkCommitmentState 3 4 [5] in
  (len buf < 10)%nat
  /\ Decode cs buf
     = Ret (cs, Some "ivalid commitment state buffer size"%string).
Proof.
  cbv zeta. split; [cbn; lia |].
  apply (proj1 (Decode_rejects_short_buffers_only
                  (mkCommitmentState 3 4 [5])
                  (of_list [1; 2; 3; 4; 5; 6; 7; 8; 9]))).
  cbn. lia.
Defined.

(** [Decode] on a buffer that continues after the announced trie state. *)
Lemma Decode_layout_rest (cs0 : commitmentState)
  (h1 h2 h3 trie rest sp : list Z) (tx bn n : Z) :
  length h1 = 8%nat -> length h2 = 8%nat -> length h3 = 2%nat ->
  Uint64 h1 = Ret tx -> Uint64 h2 = Ret bn -> Uint16 h3 = Ret n ->
  Z.to_nat n = length trie ->
  Decode cs0 (mkSlice (h1 ++ h2 ++ h3 ++ trie ++ rest) sp)
  = Ret (mkCommitmentState tx bn trie, None).
Proof.
  intros L1 L2 L3 U1 U2 U3 Hn.
  do 9 (destruct h1 as [| ? h1]; try discriminate L1).
  do 9 (destruct h2 as [| ? h2]; try discriminate L2).
  do 3 (destruct h3 as [| ? h3]; try discriminate L3).
  cbn [app]. unfold Decode, reslice, len, cap.
  cbn [elems spare length Nat.leb Nat.ltb andb firstn skipn app Nat.sub
       Nat.add bind].
  rewrite U1. cbn [bind]. rewrite U2. cbn [bind]. rewrite U3.
  cbn [bind Committed.txNum blockNum trieState].
  rewrite Hn. unfold make. rewrite !repeat_length.
  cbn [Nat.eqb]. rewrite andb_false_r.
  rewrite (proj2 (Nat.leb_le _ _)) by (rewrite length_app; lia).
  cbn [bind elems].
  rewrite Nat.sub_0_r, <- app_assoc, firstn_app, firstn_all, Nat.sub_diag.
  cbn [firstn]. rewrite app_nil_r.
  fold (make (length trie)). rewrite copy_make by reflexivity. reflexivity.
Qed.

(** X6. [Decode] reads a record followed by any further bytes as the record
    alone: what follows the announced trie state is ignored. *)
Theorem Decode_ignores_trailing_bytes (cs0 : commitmentState)
  (tx bn : Z) (trie rest sp : list Z) :
  0 <= tx < 2 ^ 64 -> 0 <= bn < 2 ^ 64 ->
  Z.of_nat (length trie) < 2 ^ 16 ->
  Decode cs0 (mkSlice (state_record tx bn trie ++ rest) sp)
  = Ret (mkCommitmentState tx bn trie, None).
Proof.
  intros Htx Hbn Hlen. unfold state_record.
  rewrite <- !bytes64_big_endian, <- bytes16_big_endian, <- !app_assoc.
  apply (Decode_layout_rest _ _ _ _ _ _ _ _ _ (Z.of_nat (length trie)));
    try reflexivity.
  - rewrite <- (app_nil_r (bytes64 tx)). apply Uint64_bytes64. assumption.
  - rewrite <- (app_nil_r (bytes64 bn)). apply Uint64_bytes64. assumption.
  - rewrite <- (app_nil_r (bytes16 _)). apply Uint16_bytes16. lia.
  - apply Nat2Z.id.
Qed.

Lemma Decode_ignores_trailing_bytes_witness :
  (0 <= 5 < 2 ^ 64 /\ 0 <= 7 < 2 ^ 64
   /\ Z.of_nat (length [1; 2]) < 2 ^ 16)
  /\ Decode zeroState (mkSlice (state_record 5 7 [1; 2] ++ [9; 9; 9]) [])
     = Ret (mkCommitmentState 5 7 [1; 2], None).
Proof.
  split; [cbn; lia |].
  apply (Decode_ignores_trailing_bytes zeroState 5 7 [1; 2] [9; 9; 9] []);
    cbn; lia.
Defined.

(** X7. Whatever the length of the trie state, [Encode] returns no error and
    eighteen bytes more than the trie state, and [Decode] of what it returns
    yields the trie state cut to its length modulo 2^16: a trie state of
    2^16 bytes or more does not survive the round trip. *)
Theorem Encode_Decode_truncates (cs cs0 : commitmentState) (sp : list Z) :
  0 <= Committed.txNum cs < 2 ^ 64 ->
  0 <= blockNum cs < 2 ^ 64 ->
  snd (Encode cs) = None
  /\ length (fst (Encode cs)) = (18 + length (trieState cs))%nat
  /\ Decode cs0 (mkSlice (fst (Encode cs)) sp)
     = Ret (mkCommitmentState (Committed.txNum cs) (blockNum cs)
              (firstn (Z.to_nat (Z.of_nat (length (trieState cs)) mod 2 ^ 16))
                 (trieState cs)), None).
Proof.
  intros Htx Hbn. rewrite Encode_bytes. cbn [fst snd].
  split; [reflexivity |]. split.
  - rewrite !length_app. reflexivity.
  - destruct cs as [tx bn trie].
    cbn [Committed.txNum blockNum trieState] in *.
    set (k := Z.to_nat (Z.of_nat (length trie) mod 2 ^ 16)).
    assert (Hk : (k <= length trie)%nat).
    { unfold k. pose proof (Z.mod_le (Z.of_nat (length trie)) (2 ^ 16)).
      pose proof (Z.mod_pos_bound (Z.of_nat (length trie)) (2 ^ 16)). lia. }
    rewrite <- (firstn_skipn k trie) at 2.
    apply (Decode_layout_rest _ _ _ _ _ _ _ _ _
             (uint16 (Z.of_nat (length trie)))); try reflexivity.
    + rewrite <- (app_nil_r (bytes64 tx)). apply Uint64_bytes64. assumption.
    + rewrite <- (app_nil_r (bytes64 bn)). apply Uint64_bytes64. assumption.
    + rewrite <- (app_nil_r (bytes16 _)). apply Uint16_bytes16.
      unfold uint16. apply Z.mod_pos_bound. lia.
    + rewrite length_firstn. unfold uint16. fold k. lia.
Qed.

Lemma Encode_Decode_truncates_witness :
  let cs := mkCommitmentState 1 2 (repeat 7 (Z.to_nat 65537)) in
  (0 <= Committed.txNum cs < 2 ^ 64 /\ 0 <= blockNum cs < 2 ^ 64)
  /\ Decode zeroState (mkSlice (fst (Encode cs)) [])
     = Ret (mkCommitmentState 1 2 [7], None).
Proof.
  cbv zeta. split; [cbn; lia |].
  destruct (Encode_Decode_truncates (mkCommitmentState 1 2 (repeat 7 (Z.to_nat 65537)))
              zeroState [] ltac:(cbn; lia) ltac:(cbn; lia)) as (_ & _ & H).
  rewrite H. cbn [Committed.txNum blockNum trieState].
  rewrite repeat_length. reflexivity.
Defined.

(** ** [hashAndNibblizeKey] *)

Lemma copy_length (dst src : list Z) : length (copy dst src) = length dst.
Proof.
  unfold copy. rewrite length_app, length_firstn, length_skipn. lia.
Qed.

Lemma nibbles_length (l : list Z) : length (nibbles l) = (2 * length l)%nat.
Proof.
  unfold nibbles. induction l as [| b l IH]; cbn [flat_map length app];
    [reflexivity | rewrite IH; lia].
Qed.

Lemma nibbles_range (l : list Z) : Forall (fun n => 0 <= n < 16) (nibbles l).
Proof.
  unfold nibbles. induction l as [| b l IH]; cbn [flat_map app];
    [constructor |].
  assert (H : forall x, 0 <= Z.land x 15 < 16).
  { intros x. change 15 with (Z.ones 4). rewrite Z.land_ones by lia.
    apply Z.mod_pos_bound. reflexivity. }
  constructor; [apply H |]. constructor; [apply H | exact IH].
Qed.

Lemma nibbles_app (l1 l2 : list Z) : nibbles (l1 ++ l2) = nibbles l1 ++ nibbles l2.
Proof. unfold nibbles. apply flat_map_app. Qed.

Lemma hashAndNibblizeKey_eq (keccak256 : list Z -> list Z) (key : list Z) :
  (length_Addr <= length key)%nat ->
  hashAndNibblizeKey keccak256 key
  = Ret (nibbles (copy (make length_Hash) (keccak256 (firstn length_Addr key))
                  ++ (if (0 <? length (skipn length_Addr key))%nat
                      then copy (make length_Hash)
                             (keccak256 (skipn length_Addr key))
                      else []))).
Proof.
  intros Hlen. unfold hashAndNibblizeKey.
  replace (length key <? length_Addr)%nat with false
    by (symmetry; apply Nat.ltb_ge; assumption).
  fold (nibbles). destruct (0 <? length (skipn length_Addr key))%nat.
  - f_equal. f_equal.
    rewrite firstn_app, firstn_all2 by (rewrite copy_length; reflexivity).
    rewrite copy_length. unfold make at 2. rewrite repeat_length, Nat.sub_diag.
    cbn [firstn]. rewrite app_nil_r. f_equal.
    rewrite skipn_app, skipn_all2 by (rewrite copy_length; reflexivity).
    rewrite copy_length. unfold make at 2. rewrite repeat_length, Nat.sub_diag.
    reflexivity.
  - rewrite app_nil_r. reflexivity.
Qed.

(** X8. [hashAndNibblizeKey] panics exactly on keys shorter than an address;
    on a key of address length it returns 64 nibbles, on a longer key 128,
    whatever the length of the digests, and every nibble is below 16. *)
Theorem hashAndNibblizeKey_shape (keccak256 : list Z -> list Z)
  (key : list Z) :
  ((length key < 20)%nat -> hashAndNibblizeKey keccak256 key = Panic)
  /\ ((20 <= length key)%nat ->
      exists nib,
        hashAndNibblizeKey keccak256 key = Ret nib
        /\ length nib = (if (length key =? 20)%nat then 64 else 128)%nat
        /\ Forall (fun n => 0 <= n < 16) nib).
Proof.
  split.
  - intros H. unfold hashAndNibblizeKey. change length_Addr with 20%nat.
    apply Nat.ltb_lt in H. rewrite H. reflexivity.
  - intros H. eexists. split; [apply hashAndNibblizeKey_eq; exact H |].
    split; [| apply nibbles_range].
    rewrite nibbles_length, length_app, copy_length, length_skipn.
    change length_Addr with 20%nat. unfold make.
    destruct (Nat.eqb_spec (length key) 20) as [E | N].
    + rewrite E. cbn [Nat.sub Nat.ltb Nat.leb length]. rewrite repeat_length.
      reflexivity.
    + replace (0 <? length key - 20)%nat with true
        by (symmetry; apply Nat.ltb_lt; lia).
      rewrite copy_length, !repeat_length. reflexivity.
Qed.

Lemma hashAndNibblizeKey_shape_witness :
  let keccak := fun l : list Z => l in
  let key := repeat 255 21 in
  (20 <= length key)%nat
  /\ exists nib,
       hashAndNibblizeKey keccak key = Ret nib
       /\ length nib = 128%nat
       /\ Forall (fun n => 0 <= n < 16) nib.
Proof.
  cbv zeta. split; [cbn; lia |].
  apply (proj2 (hashAndNibblizeKey_shape (fun l : list Z => l) (repeat 255 21))).
  cbn. lia.
Defined.

(** X9. The hashed key of an address followed by a non-empty slot starts
    with the hashed key of the address; the 64 nibbles that follow depend on
    the slot alone. *)
Theorem hashAndNibblizeKey_storage_extends_account
  (keccak256 : list Z -> list Z) (addr slot : list Z) :
  length addr = 20%nat -> slot <> [] ->
  exists acc,
    hashAndNibblizeKey keccak256 addr = Ret acc
    /\ length acc = 64%nat
    /\ hashAndNibblizeKey keccak256 (addr ++ slot)
       = Ret (acc ++ nibbles (copy (make 32) (keccak256 slot))).
Proof.
  intros Ha Hs.
  exists (nibbles (copy (make 32) (keccak256 addr))). split; [| split].
  - rewrite hashAndNibblizeKey_eq by (rewrite Ha; reflexivity).
    change length_Addr with 20%nat.
    rewrite firstn_all2, skipn_all2 by (rewrite Ha; reflexivity).
    cbn [length Nat.ltb Nat.leb]. rewrite app_nil_r. reflexivity.
  - rewrite nibbles_length, copy_length. reflexivity.
  - rewrite hashAndNibblizeKey_eq
      by (rewrite length_app, Ha; change length_Addr with 20%nat; lia).
    change length_Addr with 20%nat.
    rewrite firstn_app, firstn_all2 by (rewrite Ha; reflexivity).
    rewrite skipn_app, skipn_all2 by (rewrite Ha; reflexivity).
    rewrite Ha, Nat.sub_diag. cbn [firstn skipn app].
    rewrite app_nil_r.
    destruct slot as [| b slot]; [contradiction |].
    cbn [length Nat.ltb Nat.leb]. rewrite nibbles_app. reflexivity.
Qed.

Lemma hashAndNibblizeKey_storage_extends_account_witness :
  let keccak := fun l : list Z => map (fun b => (b + 1) mod 256) l in
  let addr := repeat 17 20 in
  (length addr = 20%nat /\ [3; 4] <> [])
  /\ exists acc,
       hashAndNibblizeKey keccak addr = Ret acc
       /\ length acc = 64%nat
       /\ hashAndNibblizeKey keccak (addr ++ [3; 4])
          = Ret (acc ++ nibbles (copy (make 32) (keccak [3; 4]))).
Proof.
  cbv zeta. split; [split; [reflexivity | discriminate] |].
  apply (hashAndNibblizeKey_storage_extends_account
           (fun l : list Z => map (fun b => (b + 1) mod 256) l)
           (repeat 17 20) [3; 4]); [reflexivity | discriminate].
Defined.

(** ** The accumulator as an ordered set *)

Lemma bytes_Compare_trans (a b c : list Z) :
  bytes_Compare a b = Lt -> bytes_Compare b c = Lt -> bytes_Compare a c = Lt.
Proof.
  revert b c. induction a as [| x a IH]; intros [| y b] [| z c];
    cbn [bytes_Compare]; try discriminate; try reflexivity.
  destruct (Z.compare_spec x y) as [-> | Hxy | Hxy]; try discriminate.
  - destruct (Z.compare_spec y z) as [-> | Hyz | Hyz]; try discriminate.
    + apply IH.
    + reflexivity.
  - intros _. destruct (Z.compare_spec y z) as [-> | Hyz | Hyz];
      try discriminate; intros _.
    + apply Z.compare_lt_iff in Hxy. rewrite Hxy. reflexivity.
    + assert (H : x < z) by lia. apply Z.compare_lt_iff in H. rewrite H.
      reflexivity.
Qed.

Lemma commitmentItemLess_trans (a b c : CommitmentItem) :
  commitmentItemLess a b = true -> commitmentItemLess b c = true ->
  commitmentItemLess a c = true.
Proof.
  unfold commitmentItemLess.
  destruct (bytes_Compare (hashedKey a) (hashedKey b)) eqn:Hab;
    try discriminate.
  destruct (bytes_Compare (hashedKey b) (hashedKey c)) eqn:Hbc;
    try discriminate.
  rewrite (bytes_Compare_trans _ _ _ Hab Hbc). reflexivity.
Qed.

Lemma commitmentItemLess_neither (a b : CommitmentItem) :
  commitmentItemLess a b = false -> commitmentItemLess b a = false ->
  hashedKey a = hashedKey b.
Proof.
  unfold commitmentItemLess.
  rewrite (bytes_Compare_antisym (hashedKey a) (hashedKey b)).
  destruct (bytes_Compare (hashedKey a) (hashedKey b)) eqn:Hab;
    cbn [CompOpp]; try discriminate.
  intros _ _. apply bytes_Compare_eq. assumption.
Qed.

Lemma commitmentItemLess_differs (a b : CommitmentItem) :
  commitmentItemLess a b = true -> hashedKey a <> hashedKey b.
Proof.
  intros H E. rewrite (commitmentItemLess_irrefl a b E) in H. discriminate.
Qed.

Lemma ReplaceOrInsert_Forall (P : CommitmentItem -> Prop)
  (c : CommitmentItem) (t : BTree) :
  P c -> Forall P t -> Forall P (ReplaceOrInsert c t).
Proof.
  intros Hc Ht. induction Ht as [| x t Hx Ht IH]; cbn [ReplaceOrInsert].
  - constructor; [assumption | constructor].
  - destruct (commitmentItemLess c x).
    + constructor; [assumption |]. constructor; assumption.
    + destruct (commitmentItemLess x c).
      * constructor; assumption.
      * constructor; assumption.
Qed.

Lemma ReplaceOrInsert_ascending (c : CommitmentItem) (t : BTree) :
  ascending t -> ascending (ReplaceOrInsert c t).
Proof.
  unfold ascending. intros Ht.
  induction Ht as [| x t Ht IH Hx]; cbn [ReplaceOrInsert].
  - constructor; constructor.
  - destruct (commitmentItemLess c x) eqn:Hcx.
    + constructor; [constructor; assumption |].
      constructor; [assumption |].
      eapply Forall_impl; [| exact Hx]. intros y Hy.
      apply (commitmentItemLess_trans c x y); assumption.
    + destruct (commitmentItemLess x c) eqn:Hxc.
      * constructor; [assumption |].
        apply ReplaceOrInsert_Forall; assumption.
      * constructor; [assumption |].
        eapply Forall_impl; [| exact Hx]. intros y Hy.
        rewrite (commitmentItemLess_key_l c x y); [assumption |].
        symmetry. apply commitmentItemLess_neither; assumption.
Qed.

Lemma ascending_NoDup (t : BTree) : ascending t -> NoDup (map hashedKey t).
Proof.
  unfold ascending. intros Ht.
  induction Ht as [| x t Ht IH Hx]; cbn [map]; constructor; [| assumption].
  intros Hin. apply in_map_iff in Hin. destruct Hin as (y & Ey & Hy).
  rewrite Forall_forall in Hx.
  apply (commitmentItemLess_differs x y (Hx y Hy)). symmetry. assumption.
Qed.

Lemma Get_ReplaceOrInsert_other (k c : CommitmentItem) (t : BTree) :
  hashedKey k <> hashedKey c -> Get k (ReplaceOrInsert c t) = Get k t.
Proof.
  intros Hk.
  assert (Hkc : commitmentItemLess k c = true \/ commitmentItemLess c k = true).
  { destruct (commitmentItemLess k c) eqn:E1; [left; reflexivity |].
    destruct (commitmentItemLess c k) eqn:E2; [right; reflexivity |].
    exfalso. apply Hk. apply commitmentItemLess_neither; assumption. }
  induction t as [| x t IH]; cbn [ReplaceOrInsert].
  - cbn [Get]. destruct (commitmentItemLess k c) eqn:E1; [reflexivity |].
    destruct Hkc as [H | H]; [discriminate | rewrite H; reflexivity].
  - destruct (commitmentItemLess c x) eqn:Hcx.
    + cbn [Get]. destruct (commitmentItemLess k c) eqn:E1.
      * rewrite (commitmentItemLess_trans k c x E1 Hcx). reflexivity.
      * destruct Hkc as [H | H]; [discriminate | rewrite H; reflexivity].
    + destruct (commitmentItemLess x c) eqn:Hxc.
      * cbn [Get]. rewrite IH. reflexivity.
      * assert (E : hashedKey c = hashedKey x)
          by (apply commitmentItemLess_neither; assumption).
        cbn [Get]. rewrite (commitmentItemLess_key_r c x k E).
        rewrite (commitmentItemLess_key_l c x k E).
        destruct (commitmentItemLess k x) eqn:E1; [reflexivity |].
        destruct (commitmentItemLess x k) eqn:E2; [reflexivity |].
        exfalso. apply Hk. rewrite E. apply commitmentItemLess_neither;
          assumption.
Qed.

Lemma Get_key_only (k k' : CommitmentItem) (t : BTree) :
  hashedKey k = hashedKey k' -> Get k t = Get k' t.
Proof.
  intros E. induction t as [| x t IH]; cbn [Get]; [reflexivity |].
  rewrite (commitmentItemLess_key_l k k' x E).
  rewrite (commitmentItemLess_key_r k k' x E), IH. reflexivity.
Qed.

Lemma repeat_split (x : Z) (k n : nat) :
  (k <= n)%nat ->
  skipn k (repeat x n) = repeat x (n - k)
  /\ firstn (n - k) (repeat x n) = repeat x (n - k).
Proof.
  intros Hk. split.
  - replace n with (k + (n - k))%nat at 1 by lia.
    rewrite repeat_app, skipn_app, skipn_all2 by (rewrite repeat_length; lia).
    rewrite repeat_length, Nat.sub_diag. reflexivity.
  - replace n with ((n - k) + k)%nat at 2 by lia.
    rewrite repeat_app, firstn_app, firstn_all2
      by (rewrite repeat_length; lia).
    rewrite repeat_length, Nat.sub_diag. cbn [firstn]. apply app_nil_r.
Qed.

Lemma copy_make_firstn (n : nat) (src : list Z) :
  copy (make n) src = firstn n (src ++ make n).
Proof.
  unfold copy, make. rewrite repeat_length.
  destruct (Nat.le_gt_cases (length src) n) as [Hle | Hgt].
  - rewrite firstn_all2 by assumption.
    rewrite firstn_app, firstn_all2 by assumption. f_equal.
    destruct (repeat_split 0 (length src) n Hle) as [-> ->]. reflexivity.
  - rewrite skipn_all2 by (rewrite repeat_length; lia).
    rewrite firstn_app. replace (n - length src)%nat with 0%nat by lia.
    cbn [firstn]. reflexivity.
Qed.

Section AccumulatorProperties.

Context (CODE_UPDATE DELETE_UPDATE BALANCE_UPDATE NONCE_UPDATE
         STORAGE_UPDATE : Z).
Context (DecodeForStorage : Update -> list Z -> result Update).
Context (keccak256 : list Z -> list Z).
Context {Trie BranchData : Type}.
Context (trie_RootHash : Trie -> Trie * (list Z * option error)).
Context (trie_Reset : Trie -> Trie).
Context (trie_SetTrace : Trie -> bool -> Trie).
Context (trie_ReviewKeys :
  Trie -> list (list Z) -> list (list Z) ->
  Trie * (list Z * option BranchData * option error)).
Context (trie_ProcessUpdates :
  Trie -> list (list Z) -> list (list Z) -> list Update ->
  Trie * (list Z * option BranchData * option error)).

Local Abbreviation Dom := (DomainCommitted (Trie := Trie)).
Local Abbreviation touch := (TouchPlainKey keccak256).
Local Abbreviation onAccount :=
  (TouchPlainKeyAccount CODE_UPDATE DELETE_UPDATE BALANCE_UPDATE NONCE_UPDATE
     DecodeForStorage).
Local Abbreviation onStorage :=
  (TouchPlainKeyStorage DELETE_UPDATE STORAGE_UPDATE).
Local Abbreviation onCode :=
  (TouchPlainKeyCode CODE_UPDATE DELETE_UPDATE BALANCE_UPDATE NONCE_UPDATE
     keccak256).
Local Abbreviation hash := (hashAndNibblizeKey keccak256).
Local Abbreviation probe := (fun hk => mkCommitmentItem [] hk zeroUpdate).
Local Abbreviation commit :=
  (ComputeCommitment trie_RootHash trie_Reset trie_SetTrace trie_ReviewKeys
     trie_ProcessUpdates).

Lemma onStorage_keeps_keys (d : Dom) : keeps_keys (onStorage d).
Proof.
  intros c val c'. unfold TouchPlainKeyStorage.
  destruct (length val =? 0)%nat; intros H; injection H as <-;
    split; reflexivity.
Qed.

Lemma onAccount_keeps_keys (d : Dom) : keeps_keys (onAccount d).
Proof.
  intros c val c'. unfold TouchPlainKeyAccount.
  destruct (length val =? 0)%nat.
  - intros H. injection H as <-. split; reflexivity.
  - destruct (DecodeForStorage (update c) val); [| discriminate].
    cbn [bind]. destruct (Get _ _) as [item |].
    + destruct (negb _); intros H; injection H as <-; split; reflexivity.
    + intros H. injection H as <-. split; reflexivity.
Qed.

Lemma onCode_keeps_keys (d : Dom) : keeps_keys (onCode d).
Proof.
  intros c val c'. unfold TouchPlainKeyCode.
  destruct (Get _ _) as [item |].
  - destruct (_ && _); intros H; injection H as <-; split; reflexivity.
  - intros H. injection H as <-. split; reflexivity.
Qed.

(** What a touch does outside the Disabled mode, once the key is hashed and
    the per-kind function has returned. *)
Lemma touch_inserts (d : Dom) (key val hk : list Z)
  (fn : CommitmentItem -> list Z -> result CommitmentItem)
  (c : CommitmentItem) :
  mode d = CommitmentModeUpdate ->
  hash key = Ret hk ->
  fn (mkCommitmentItem key hk zeroUpdate) val = Ret c ->
  touch d key val fn = Ret (setCommTree d (ReplaceOrInsert c (commTree d))).
Proof.
  intros Hm Hh Hfn. unfold TouchPlainKey. rewrite Hm, Hh. cbn [bind].
  change (CommitmentModeUpdate =? CommitmentModeDisabled) with false.
  change (CommitmentModeUpdate >? CommitmentModeDirect) with true.
  cbv iota. rewrite Hfn. reflexivity.
Qed.

(** X10. A touch keeps the accumulator in strictly ascending order of hashed
    keys, whatever the mode and the per-kind function; so no two of its
    entries share a hashed key. *)
Theorem TouchPlainKey_keeps_order (d d' : Dom) (key val : list Z)
  (fn : CommitmentItem -> list Z -> result CommitmentItem) :
  ascending (commTree d) ->
  touch d key val fn = Ret d' ->
  ascending (commTree d') /\ NoDup (map hashedKey (commTree d')).
Proof.
  intros Hasc Ht.
  assert (H : ascending (commTree d')).
  { unfold TouchPlainKey in Ht.
    destruct (mode d =? CommitmentModeDisabled).
    - injection Ht as <-. assumption.
    - destruct (hash key) as [hk |]; [| discriminate]. cbn [bind] in Ht.
      destruct (if mode d >? CommitmentModeDirect then _ else _) as [c |];
        [| discriminate].
      cbn [bind] in Ht. injection Ht as <-. cbn [commTree setCommTree].
      apply ReplaceOrInsert_ascending. assumption. }
  split; [assumption | apply ascending_NoDup; assumption].
Qed.

(** X11. Outside the Disabled mode, a touch whose per-kind function keeps
    the keys changes the accumulator at one hashed key only: that key then
    maps to an entry carrying the touched plain key, and every other key maps
    to what it mapped to before. *)
Theorem TouchPlainKey_touches_one_key (d d' : Dom) (key val : list Z)
  (fn : CommitmentItem -> list Z -> result CommitmentItem) :
  keeps_keys fn ->
  mode d <> CommitmentModeDisabled ->
  touch d key val fn = Ret d' ->
  exists hk c,
    hash key = Ret hk
    /\ Get (probe hk) (commTree d') = Some c
    /\ plainKey c = key /\ hashedKey c = hk
    /\ forall k, hashedKey k <> hk ->
                 Get k (commTree d') = Get k (commTree d).
Proof.
  intros Hfn Hm Ht. unfold TouchPlainKey in Ht.
  destruct (Z.eqb_spec (mode d) CommitmentModeDisabled); [contradiction |].
  destruct (hash key) as [hk |]; [| discriminate]. cbn [bind] in Ht.
  assert (Hc : exists c, Ret c
                 = (if mode d >? CommitmentModeDirect
                    then fn (mkCommitmentItem key hk zeroUpdate) val
                    else Ret (mkCommitmentItem key hk zeroUpdate))
               /\ plainKey c = key /\ hashedKey c = hk).
  { destruct (mode d >? CommitmentModeDirect).
    - destruct (fn _ val) as [c |] eqn:E; [| discriminate].
      exists c. split; [reflexivity |]. apply (Hfn _ _ _ E).
    - eexists. split; [reflexivity |]. split; reflexivity. }
  destruct Hc as (c & Ec & Hp & Hh). rewrite <- Ec in Ht. cbn [bind] in Ht.
  injection Ht as <-. exists hk, c. cbn [commTree setCommTree].
  split; [reflexivity |].
  split; [apply Get_ReplaceOrInsert; symmetry; exact Hh |].
  split; [exact Hp |]. split; [exact Hh |].
  intros k Hk. apply Get_ReplaceOrInsert_other. rewrite Hh. exact Hk.
Qed.

(** X12. In Update mode, a code touch on a key whose entry carries the
    balance and nonce flags, and is not a deletion met by empty code, leaves
    an entry with the code, balance and nonce flags, the balance and nonce of
    the entry it replaces, and the digest of the code as code hash. *)
Theorem TouchPlainKey_code_keeps_balance_and_nonce (d : Dom)
  (key val hk : list Z) (item : CommitmentItem) :
  mode d = CommitmentModeUpdate ->
  hash key = Ret hk ->
  Get (probe hk) (commTree d) = Some item ->
  Z.land (Flags (update item)) BALANCE_UPDATE <> 0 ->
  Z.land (Flags (update item)) NONCE_UPDATE <> 0 ->
  ~ (Flags (update item) = DELETE_UPDATE /\ val = []) ->
  exists d' c,
    touch d key val (onCode d) = Ret d'
    /\ Get (probe hk) (commTree d') = Some c
    /\ Flags (update c)
       = Z.lor (Z.lor CODE_UPDATE BALANCE_UPDATE) NONCE_UPDATE
    /\ Balance (update c) = Balance (update item)
    /\ Nonce (update c) = Nonce (update item)
    /\ CodeHashOrStorage (update c) = firstn 32 (keccak256 val ++ make 32).
Proof.
  intros Hm Hh Hget Hb Hn Hdel.
  set (u := mkUpdate (Z.lor (Z.lor CODE_UPDATE BALANCE_UPDATE) NONCE_UPDATE)
              (Balance (update item)) (Nonce (update item))
              (copy (make length_Hash) (keccak256 val)) 0).
  assert (Hfn : onCode d (mkCommitmentItem key hk zeroUpdate) val
                = Ret (mkCommitmentItem key hk u)).
  { unfold TouchPlainKeyCode.
    rewrite (Get_key_only _ (mkCommitmentItem [] hk zeroUpdate))
      by reflexivity.
    rewrite Hget.
    destruct (Z.eqb_spec (Z.land (Flags (update item)) BALANCE_UPDATE) 0);
      [contradiction |].
    destruct (Z.eqb_spec (Z.land (Flags (update item)) NONCE_UPDATE) 0);
      [contradiction |].
    cbn [negb].
    replace ((Flags (update item) =? DELETE_UPDATE) && (length val =? 0)%nat)
      with false; [reflexivity |].
    symmetry. apply andb_false_iff.
    destruct (Z.eqb_spec (Flags (update item)) DELETE_UPDATE) as [E | N];
      [| left; reflexivity].
    right. apply Nat.eqb_neq. intros L. apply Hdel. split; [exact E |].
    destruct val; [reflexivity | discriminate L]. }
  eexists. exists (mkCommitmentItem key hk u).
  split; [apply (touch_inserts d key val hk _ _ Hm Hh Hfn) |].
  cbn [commTree setCommTree].
  split; [apply Get_ReplaceOrInsert; reflexivity |].
  split; [reflexivity |]. split; [reflexivity |]. split; [reflexivity |].
  cbn [update u CodeHashOrStorage]. apply copy_make_firstn.
Qed.

(** X13. In Update mode a storage touch replaces the entry of its key by one
    built from the value alone: the deletion flag for an empty value and the
    storage flag otherwise, the full length of the value, and the value cut
    or zero-padded to 32 bytes; nothing of an earlier entry is kept. *)
Theorem TouchPlainKey_storage_entry (d : Dom) (key val hk : list Z) :
  mode d = CommitmentModeUpdate ->
  hash key = Ret hk ->
  exists d' c,
    touch d key val (onStorage d) = Ret d'
    /\ Get (probe hk) (commTree d') = Some c
    /\ Flags (update c)
       = (if (length val =? 0)%nat then DELETE_UPDATE else STORAGE_UPDATE)
    /\ ValLength (update c) = Z.of_nat (length val)
    /\ CodeHashOrStorage (update c) = firstn 32 (val ++ make 32)
    /\ Balance (update c) = 0 /\ Nonce (update c) = 0.
Proof.
  intros Hm Hh.
  destruct (onStorage d (mkCommitmentItem key hk zeroUpdate) val) as [c |] eqn:E.
  2:{ unfold TouchPlainKeyStorage in E. destruct (length val =? 0)%nat;
      discriminate E. }
  eexists. exists c.
  split; [apply (touch_inserts d key val hk _ _ Hm Hh E) |].
  cbn [commTree setCommTree].
  split; [apply Get_ReplaceOrInsert;
          symmetry; apply (onStorage_keeps_keys d _ _ _ E) |].
  unfold TouchPlainKeyStorage in E. cbn [update] in E.
  destruct val as [| b val]; cbn [length Nat.eqb] in E |- *;
    injection E as <-; cbn [update setUpdate setFlags setValLength
      setCodeHashOrStorage Flags ValLength CodeHashOrStorage Balance Nonce
      zeroUpdate].
  - repeat split.
  - repeat split. apply (copy_make_firstn 32).
Qed.

(** X14. In Update mode an account touch with an empty value leaves a bare
    deletion entry, whatever entry the key had; with a non-empty value on a
    key without entry it leaves the decoded update with the balance and
    nonce flags and nothing else. *)
Theorem TouchPlainKey_account_without_code (d : Dom) (key val hk : list Z) :
  mode d = CommitmentModeUpdate ->
  hash key = Ret hk ->
  (val = [] ->
   exists d',
     touch d key val (onAccount d) = Ret d'
     /\ Get (probe hk) (commTree d')
        = Some (mkCommitmentItem key hk (setFlags zeroUpdate DELETE_UPDATE)))
  /\ (forall u,
        val <> [] ->
        DecodeForStorage zeroUpdate val = Ret u ->
        Get (probe hk) (commTree d) = None ->
        exists d',
          touch d key val (onAccount d) = Ret d'
          /\ Get (probe hk) (commTree d')
             = Some (mkCommitmentItem key hk
                       (setFlags u (Z.lor BALANCE_UPDATE NONCE_UPDATE)))).
Proof.
  intros Hm Hh. split.
  - intros ->. eexists. split.
    + apply (touch_inserts d key [] hk _
               (mkCommitmentItem key hk (setFlags zeroUpdate DELETE_UPDATE))
               Hm Hh).
      reflexivity.
    + cbn [commTree setCommTree]. apply Get_ReplaceOrInsert. reflexivity.
  - intros u Hv Hdec Hget. eexists. split.
    + apply (touch_inserts d key val hk _
               (mkCommitmentItem key hk
                  (setFlags u (Z.lor BALANCE_UPDATE NONCE_UPDATE))) Hm Hh).
      unfold TouchPlainKeyAccount. destruct val; [contradiction |].
      cbn [length Nat.eqb update hashedKey]. rewrite Hdec. cbn [bind].
      rewrite Hget. reflexivity.
    + cbn [commTree setCommTree]. apply Get_ReplaceOrInsert. reflexivity.
Qed.

Lemma commit_drains (d : Dom) (trace : bool) :
  commTree (fst (commit d trace)) = [].
Proof.
  unfold ComputeCommitment, TouchedKeyList.
  destruct (length (map plainKey (commTree d)) =? 0)%nat.
  - cbn [patriciaTrie setCommTree]. destruct (trie_RootHash _) as [t [rh e]].
    reflexivity.
  - cbn [mode setTrie setCommTree patriciaTrie commTree].
    destruct (mode d =? CommitmentModeDirect).
    + destruct (trie_ReviewKeys _ _ _) as [t [[rh bu] [e |]]]; reflexivity.
    + destruct (mode d =? CommitmentModeUpdate).
      * destruct (trie_ProcessUpdates _ _ _ _) as [t [[rh bu] [e |]]];
          reflexivity.
      * reflexivity.
Qed.

(** X15. With nothing touched, [ComputeCommitment] returns what [RootHash]
    returns and no branch updates, in every mode, an invalid one included,
    without resetting the trie; in particular this is all a second
    [ComputeCommitment] does right after a first. *)
Theorem ComputeCommitment_without_touches (d : Dom) (trace trace' : bool) :
  (commTree d = [] ->
   commit d trace
   = (setTrie d (fst (trie_RootHash (patriciaTrie d))),
      (fst (snd (trie_RootHash (patriciaTrie d))), None,
       snd (snd (trie_RootHash (patriciaTrie d))))))
  /\ (let d1 := fst (commit d trace) in
      commit d1 trace'
      = (setTrie d1 (fst (trie_RootHash (patriciaTrie d1))),
         (fst (snd (trie_RootHash (patriciaTrie d1))), None,
          snd (snd (trie_RootHash (patriciaTrie d1)))))).
Proof.
  assert (H : forall x : Dom, commTree x = [] ->
            commit x trace'
            = (setTrie x (fst (trie_RootHash (patriciaTrie x))),
               (fst (snd (trie_RootHash (patriciaTrie x))), None,
                snd (snd (trie_RootHash (patriciaTrie x)))))).
  { intros x Hx. unfold ComputeCommitment, TouchedKeyList. rewrite Hx.
    cbn [map length Nat.eqb patriciaTrie setCommTree].
    destruct (trie_RootHash (patriciaTrie x)) as [t [rh e]].
    destruct x as [m tr p n]. cbn in Hx. subst tr. reflexivity. }
  split.
  - intros Hd. unfold ComputeCommitment, TouchedKeyList. rewrite Hd.
    cbn [map length Nat.eqb patriciaTrie setCommTree].
    destruct (trie_RootHash (patriciaTrie d)) as [t [rh e]].
    destruct d as [m tr p n]. cbn in Hd. subst tr. reflexivity.
  - cbv zeta. apply H. apply commit_drains.
Qed.

End AccumulatorProperties.

Lemma TouchPlainKey_keeps_order_witness :
  let keccak := fun l : list Z => l in
  let d := mkDomainCommitted CommitmentModeDirect
             [mkCommitmentItem (repeat 9 20) (repeat 0 64) zeroUpdate] tt 0 in
  ascending (commTree d)
  /\ exists d',
       TouchPlainKey keccak d (repeat 1 20) [] (fun c _ => Ret c) = Ret d'
       /\ ascending (commTree d')
       /\ NoDup (map hashedKey (commTree d')).
Proof.
  cbv zeta.
  assert (Ha : ascending
                 [mkCommitmentItem (repeat 9 20) (repeat 0 64) zeroUpdate])
    by (repeat constructor).
  split; [exact Ha |]. eexists. split; [reflexivity |].
  apply (TouchPlainKey_keeps_order (fun l : list Z => l)
           (mkDomainCommitted CommitmentModeDirect
              [mkCommitmentItem (repeat 9 20) (repeat 0 64) zeroUpdate] tt 0)
           _ (repeat 1 20) [] (fun c _ => Ret c) Ha).
  reflexivity.
Defined.

Lemma TouchPlainKey_touches_one_key_witness :
  let keccak := fun l : list Z => l in
  let old := mkCommitmentItem (repeat 9 20) (repeat 0 64) zeroUpdate in
  let d := mkDomainCommitted CommitmentModeUpdate [old] tt 0 in
  (keeps_keys (TouchPlainKeyStorage 2 16 d)
   /\ mode d <> CommitmentModeDisabled)
  /\ exists d' hk c,
       TouchPlainKey keccak d (repeat 1 20) [5] (TouchPlainKeyStorage 2 16 d)
       = Ret d'
       /\ hashAndNibblizeKey keccak (repeat 1 20) = Ret hk
       /\ Get (mkCommitmentItem [] hk zeroUpdate) (commTree d') = Some c
       /\ plainKey c = repeat 1 20
       /\ Get old (commTree d') = Some old.
Proof.
  cbv zeta.
  assert (Hk : keeps_keys
                 (TouchPlainKeyStorage 2 16
                    (mkDomainCommitted CommitmentModeUpdate
                       [mkCommitmentItem (repeat 9 20) (repeat 0 64) zeroUpdate]
                       tt 0))) by apply onStorage_keeps_keys.
  split; [split; [exact Hk | discriminate] |].
  eexists.
  destruct (TouchPlainKey_touches_one_key (fun l : list Z => l)
              (mkDomainCommitted CommitmentModeUpdate
                 [mkCommitmentItem (repeat 9 20) (repeat 0 64) zeroUpdate] tt 0)
              _ (repeat 1 20) [5] _ Hk ltac:(discriminate) eq_refl)
    as (hk & c & Hh & Hg & Hp & Hhk & Hother).
  exists hk, c. split; [reflexivity |]. split; [exact Hh |].
  split; [exact Hg |]. split; [exact Hp |].
  rewrite Hother; [reflexivity |].
  injection Hh as <-. discriminate.
Defined.

Lemma TouchPlainKey_code_keeps_balance_and_nonce_witness :
  let keccak := fun l : list Z => firstn 32 (l ++ repeat 0 32) in
  let key := repeat 1 20 in
  let hk := nibbles (repeat 1 20 ++ repeat 0 12) in
  let item := mkCommitmentItem key hk (mkUpdate 12 77 5 (repeat 0 32) 0) in
  let d := mkDomainCommitted CommitmentModeUpdate [item] tt 0 in
  (mode d = CommitmentModeUpdate
   /\ hashAndNibblizeKey keccak key = Ret hk
   /\ Get (mkCommitmentItem [] hk zeroUpdate) (commTree d) = Some item
   /\ Z.land (Flags (update item)) 4 <> 0
   /\ Z.land (Flags (update item)) 8 <> 0
   /\ ~ (Flags (update item) = 2 /\ [6; 6] = []))
  /\ exists d' c,
       TouchPlainKey keccak d key [6; 6] (TouchPlainKeyCode 1 2 4 8 keccak d)
       = Ret d'
       /\ Get (mkCommitmentItem [] hk zeroUpdate) (commTree d') = Some c
       /\ Flags (update c) = Z.lor (Z.lor 1 4) 8
       /\ Balance (update c) = 77
       /\ Nonce (update c) = 5
       /\ CodeHashOrStorage (update c) = firstn 32 (keccak [6; 6] ++ make 32).
Proof.
  cbv zeta.
  assert (Hnot : ~ (12 = 2 /\ [6; 6] = @nil Z)) by (intros [H _]; discriminate H).
  split.
  - repeat split; try reflexivity; try discriminate. exact Hnot.
  - apply (TouchPlainKey_code_keeps_balance_and_nonce 1 2 4 8
             (fun l : list Z => firstn 32 (l ++ repeat 0 32))
             (mkDomainCommitted CommitmentModeUpdate
                [mkCommitmentItem (repeat 1 20)
                   (nibbles (repeat 1 20 ++ repeat 0 12))
                   (mkUpdate 12 77 5 (repeat 0 32) 0)] tt 0)
             (repeat 1 20) [6; 6] (nibbles (repeat 1 20 ++ repeat 0 12))
             (mkCommitmentItem (repeat 1 20)
                (nibbles (repeat 1 20 ++ repeat 0 12))
                (mkUpdate 12 77 5 (repeat 0 32) 0)));
      try reflexivity; try discriminate. exact Hnot.
Defined.

Lemma TouchPlainKey_storage_entry_witness :
  let keccak := fun l : list Z => firstn 32 (l ++ repeat 0 32) in
  let key := repeat 1 20 ++ repeat 2 32 in
  let val := repeat 7 33 in
  let d := mkDomainCommitted CommitmentModeUpdate [] tt 0 in
  (mode d = CommitmentModeUpdate
   /\ exists hk, hashAndNibblizeKey keccak key = Ret hk)
  /\ exists d' hk c,
       TouchPlainKey keccak d key val (TouchPlainKeyStorage 2 16 d) = Ret d'
       /\ Get (mkCommitmentItem [] hk zeroUpdate) (commTree d') = Some c
       /\ Flags (update c) = 16
       /\ ValLength (update c) = 33
       /\ CodeHashOrStorage (update c) = repeat 7 32.
Proof.
  cbv zeta.
  assert (Hh : hashAndNibblizeKey (fun l : list Z => firstn 32 (l ++ repeat 0 32))
                 (repeat 1 20 ++ repeat 2 32)
               = Ret (nibbles (repeat 1 20 ++ repeat 0 12 ++ repeat 2 32)))
    by reflexivity.
  split; [split; [reflexivity | eexists; exact Hh] |].
  destruct (TouchPlainKey_storage_entry 2 16
              (fun l : list Z => firstn 32 (l ++ repeat 0 32))
              (mkDomainCommitted CommitmentModeUpdate [] tt 0)
              (repeat 1 20 ++ repeat 2 32) (repeat 7 33) _ eq_refl Hh)
    as (d' & c & Ht & Hg & Hf & Hl & Hc & _).
  exists d', (nibbles (repeat 1 20 ++ repeat 0 12 ++ repeat 2 32)), c.
  split; [exact Ht |]. split; [exact Hg |].
  split; [rewrite Hf; reflexivity |].
  split; [rewrite Hl; reflexivity | rewrite Hc; reflexivity].
Defined.

Lemma TouchPlainKey_account_without_code_witness :
  let keccak := fun l : list Z => firstn 32 (l ++ repeat 0 32) in
  let decode := fun (u : Update) (v : list Z) =>
                  Ret (setNonce u (Z.of_nat (length v))) in
  let key := repeat 1 20 in
  let hk := nibbles (repeat 1 20 ++ repeat 0 12) in
  let old := mkCommitmentItem key hk (mkUpdate 1 0 0 (repeat 9 32) 0) in
  let d := mkDomainCommitted CommitmentModeUpdate [old] tt 0 in
  let e := mkDomainCommitted CommitmentModeUpdate [] tt 0 in
  (mode d = CommitmentModeUpdate /\ hashAndNibblizeKey keccak key = Ret hk
   /\ [3; 3] <> []
   /\ Get (mkCommitmentItem [] hk zeroUpdate) (commTree e) = None)
  /\ (exists d',
        TouchPlainKey keccak d key [] (TouchPlainKeyAccount 1 2 4 8 decode d)
        = Ret d'
        /\ Get (mkCommitmentItem [] hk zeroUpdate) (commTree d')
           = Some (mkCommitmentItem key hk (setFlags zeroUpdate 2)))
  /\ (exists e',
        TouchPlainKey keccak e key [3; 3]
          (TouchPlainKeyAccount 1 2 4 8 decode e) = Ret e'
        /\ Get (mkCommitmentItem [] hk zeroUpdate) (commTree e')
           = Some (mkCommitmentItem key hk
                     (setFlags (setNonce zeroUpdate 2) (Z.lor 4 8)))).
Proof.
  cbv zeta. split; [repeat split; try reflexivity; discriminate |]. split.
  - apply (proj1 (TouchPlainKey_account_without_code 1 2 4 8
             (fun (u : Update) (v : list Z) =>
                Ret (setNonce u (Z.of_nat (length v))))
             (fun l : list Z => firstn 32 (l ++ repeat 0 32))
             (mkDomainCommitted CommitmentModeUpdate
                [mkCommitmentItem (repeat 1 20)
                   (nibbles (repeat 1 20 ++ repeat 0 12))
                   (mkUpdate 1 0 0 (repeat 9 32) 0)] tt 0)
             (repeat 1 20) [] (nibbles (repeat 1 20 ++ repeat 0 12))
             eq_refl eq_refl)).
    reflexivity.
  - apply (proj2 (TouchPlainKey_account_without_code 1 2 4 8
             (fun (u : Update) (v : list Z) =>
                Ret (setNonce u (Z.of_nat (length v))))
             (fun l : list Z => firstn 32 (l ++ repeat 0 32))
             (mkDomainCommitted CommitmentModeUpdate [] tt 0)
             (repeat 1 20) [3; 3] (nibbles (repeat 1 20 ++ repeat 0 12))
             eq_refl eq_refl) (setNonce zeroUpdate 2));
      [discriminate | reflexivity | reflexivity].
Defined.

Lemma ComputeCommitment_without_touches_witness :
  let rootHash := fun t : Z => (t + 1, ([t], @None error)) in
  let review := fun (t : Z) (_ _ : list (list Z)) =>
                  (t, (@nil Z, @None unit, Some "review"%string)) in
  let process := fun (t : Z) (_ _ : list (list Z)) (_ : list Update) =>
                   (t, (@nil Z, @None unit, Some "process"%string)) in
  let d := mkDomainCommitted 7 [] 40 0 in
  commTree d = []
  /\ ComputeCommitment rootHash (fun t => t) (fun t _ => t) review process
       d true
     = (setTrie d 41, ([40], None, None)).
Proof.
  cbv zeta. split; [reflexivity |].
  apply (proj1 (ComputeCommitment_without_touches
                  (fun t : Z => (t + 1, ([t], @None error)))
                  (fun t => t) (fun t _ => t)
                  (fun (t : Z) (_ _ : list (list Z)) =>
                     (t, (@nil Z, @None unit, Some "review"%string)))
                  (fun (t : Z) (_ _ : list (list Z)) (_ : list Update) =>
                     (t, (@nil Z, @None unit, Some "process"%string)))
                  (mkDomainCommitted 7 [] 40 0) true true)).
  reflexivity.
Defined.

(** ** [SeekCommitment] on a stored checkpoint *)

Lemma Decode_of_Encode (cs cs0 : commitmentState) (sp : list Z) :
  0 <= Committed.txNum cs < 2 ^ 64 ->
  0 <= blockNum cs < 2 ^ 64 ->
  Z.of_nat (length (trieState cs)) < 2 ^ 16 ->
  Decode cs0 (mkSlice (fst (Encode cs)) sp) = Ret (cs, None).
Proof.
  intros Htx Hbn Hlen. rewrite Encode_bytes. cbn [fst].
  destruct cs as [tx bn trie]. cbn [Committed.txNum blockNum trieState] in *.
  apply (Decode_layout _ _ _ _ _ _ _ _ (uint16 (Z.of_nat (length trie))));
    try reflexivity.
  - rewrite <- (app_nil_r (bytes64 tx)). apply Uint64_bytes64. assumption.
  - rewrite <- (app_nil_r (bytes64 bn)). apply Uint64_bytes64. assumption.
  - rewrite <- (app_nil_r (bytes16 _)). apply Uint16_bytes16.
    unfold uint16. apply Z.mod_pos_bound. lia.
  - unfold uint16. rewrite Z.mod_small by lia. apply Nat2Z.id.
Qed.

Section SeekFound.

Context {Trie : Type}.
Context (trie_SetState : Trie -> list Z -> Trie * option error).
Context (ctx_Get :
  DomainCommitted (Trie := Trie) -> list Z -> list Z -> slice * option error).

(** X16. When the step looked up first holds a record written by [Encode]
    and the step after that record's own holds nothing, [SeekCommitment]
    stops after two lookups, hands the recorded trie state to the trie and
    returns the recorded transaction number, leaving the domain positioned
    one step past it. *)
Theorem SeekCommitment_finds_checkpoint (fuel : nat)
  (d : DomainCommitted (Trie := Trie)) (aggStep sinceTx : Z)
  (cs : commitmentState) (sp : list Z) (s' : slice) (t : Trie) :
  aggStep <> 0 ->
  0 <= Committed.txNum cs < 2 ^ 64 ->
  0 <= blockNum cs < 2 ^ 64 ->
  Z.of_nat (length (trieState cs)) < 2 ^ 16 ->
  let d0 := SetTxNum d (uint64 (sinceTx - 1)) in
  let d1 := SetTxNum d0 (uint64 (Committed.txNum cs + aggStep)) in
  ctx_Get d0 keyCommitmentState
    (bytes16 (uint16 (uint16 (sinceTx / aggStep) - 1)))
  = (mkSlice (fst (Encode cs)) sp, None) ->
  ctx_Get d1 keyCommitmentState
    (bytes16 (uint16 (uint16 (Committed.txNum cs / aggStep) + 1)))
  = (s', None) ->
  (len s' < 8)%nat ->
  trie_SetState (patriciaTrie d) (trieState cs) = (t, None) ->
  SeekCommitment trie_SetState ctx_Get (S (S fuel)) d aggStep sinceTx
  = Some (Ret (setTrie d1 t, (Committed.txNum cs, None))).
Proof.
  intros Hstep Htx Hbn Hlen d0 d1 Hget0 Hget1 Hs' Hset.
  unfold SeekCommitment, seekSearch.
  destruct (Z.eqb_spec aggStep 0); [contradiction |].
  fold d0. cbn [seekLoop].
  change (store (make 2) 0 (bytes16 ?x)) with (bytes16 x).
  rewrite Hget0.
  replace (len (mkSlice (fst (Encode cs)) sp) <? 8)%nat with false
    by (symmetry; apply Nat.ltb_ge; rewrite Encode_bytes; unfold len;
        cbn [fst elems]; rewrite !length_app; cbn [length bytes64]; lia).
  assert (Hu : Uint64 (elems (mkSlice (fst (Encode cs)) sp))
               = Ret (Committed.txNum cs)).
  { rewrite Encode_bytes. cbn [fst elems]. apply Uint64_bytes64. assumption. }
  rewrite Hu. cbn [len nil_slice elems length Nat.eqb negb].
  rewrite andb_false_r. fold d1.
  change (store (make 2) 0 (bytes16 ?x)) with (bytes16 x).
  rewrite Hget1. apply Nat.ltb_lt in Hs'. rewrite Hs'.
  cbn [bind seekFinish].
  rewrite (Decode_of_Encode cs zeroState sp Htx Hbn Hlen). cbn [bind].
  change (patriciaTrie d1) with (patriciaTrie d). rewrite Hset. reflexivity.
Qed.

End SeekFound.

Lemma SeekCommitment_finds_checkpoint_witness :
  let cs := mkCommitmentState 9 3 [1; 2; 3] in
  let setState := fun (_ : list Z) (st : list Z) => (st, @None error) in
  let get := fun (d : DomainCommitted (Trie := list Z)) (_ step : list Z) =>
               if domainTxNum d =? 11
               then (of_list (fst (Encode cs)), @None error)
               else (nil_slice, @None error) in
  let d := mkDomainCommitted CommitmentModeDirect [] [] 0 in
  (4 <> 0 /\ 0 <= Committed.txNum cs < 2 ^ 64 /\ 0 <= blockNum cs < 2 ^ 64
   /\ Z.of_nat (length (trieState cs)) < 2 ^ 16)
  /\ SeekCommitment setState get 2 d 4 12
     = Some (Ret (mkDomainCommitted CommitmentModeDirect [] [1; 2; 3] 13,
                  (9, None))).
Proof.
  cbv zeta. split; [cbn; repeat split; lia |].
  apply (SeekCommitment_finds_checkpoint
           (fun (_ : list Z) (st : list Z) => (st, @None error))
           (fun (d : DomainCommitted (Trie := list Z)) (_ step : list Z) =>
              if domainTxNum d =? 11
              then (of_list (fst (Encode (mkCommitmentState 9 3 [1; 2; 3]))),
                    @None error)
              else (nil_slice, @None error))
           0 (mkDomainCommitted CommitmentModeDirect [] [] 0) 4 12
           (mkCommitmentState 9 3 [1; 2; 3]) [] nil_slice [1; 2; 3]);
    try reflexivity; cbn; lia.
Defined.

(** ** The build pipeline *)

(** One component of [buildFiles]: either it fails, and the trace so far
    is a proper prefix, or the proof moves on to the next component. *)
Ltac static_files_simpl :=
  cbn [fst snd app sf_accounts sf_storage sf_code sf_logAddrs sf_logTopics
       sf_tracesFrom sf_tracesTo noStaticFiles].

Ltac build_stage lemma :=
  static_files_simpl;
  match goal with
  | |- context [buildHistory ?hc ?hb ?c ?h ?s ?x ?y ?d ?o] =>
      let H := fresh "H" in
      pose proof (lemma c h s x y d o) as H; cbv zeta in H;
      destruct (buildHistory hc hb c h s x y d o) as [? [? [? |]]];
      cbn [fst snd] in H;
      [ static_files_simpl; split; [| discriminate];
        destruct H as [-> | [-> _]]; eexists; reflexivity
      | destruct H as [-> | [_ H]]; [| contradiction] ]
  | |- context [buildInverted ?hc ?hb ?c ?h ?s ?x ?y ?d ?o] =>
      let H := fresh "H" in
      pose proof (lemma c h s x y d o) as H; cbv zeta in H;
      destruct (buildInverted hc hb c h s x y d o) as [? [? [? |]]];
      cbn [fst snd] in H;
      [ static_files_simpl; split; [| discriminate];
        destruct H as [-> | [-> _]]; eexists; reflexivity
      | destruct H as [-> | [_ H]]; [| contradiction] ]
  end.


Section BuildProperties.

Context {History InvertedIndex HistoryCollation InvertedCollation
         HistoryFiles InvertedFiles HistoryStep DB : Type}.
Context (NewHistory :
  string -> string -> Z -> string -> bool -> History * option error).
Context (NewInvertedIndex :
  string -> string -> Z -> string -> InvertedIndex * option error).
Context (h_endTxNumMinimax : History -> Z).
Context (ii_endTxNumMinimax : InvertedIndex -> Z).
Context (h_indexKeysTable : History -> string).
Context (h_collate :
  History -> Z -> Z -> Z -> DB -> HistoryCollation * option error).
Context (h_buildFiles :
  History -> Z -> HistoryCollation -> HistoryFiles * option error).
Context (ii_collate :
  InvertedIndex -> Z -> Z -> DB -> InvertedCollation * option error).
Context (ii_buildFiles :
  InvertedIndex -> Z -> InvertedCollation -> InvertedFiles * option error).
Context (h_integrateFiles : History -> HistoryFiles -> Z -> Z -> History).
Context (ii_integrateFiles :
  InvertedIndex -> InvertedFiles -> Z -> Z -> InvertedIndex).
Context (lastIdInDB : DB -> string -> Z).
Context (noHistoryFiles : HistoryFiles) (noInvertedFiles : InvertedFiles).

Local Abbreviation Agg := (AggregatorV3 (History := History)
                             (InvertedIndex := InvertedIndex)).
Local Abbreviation filesOf :=
  (buildFiles h_collate h_buildFiles ii_collate ii_buildFiles noHistoryFiles
     noInvertedFiles).
Local Abbreviation buildStep :=
  (buildFilesInBackground h_endTxNumMinimax ii_endTxNumMinimax h_collate
     h_buildFiles ii_collate ii_buildFiles h_integrateFiles ii_integrateFiles
     noHistoryFiles noInvertedFiles).
Local Abbreviation loop :=
  (buildLoop h_endTxNumMinimax ii_endTxNumMinimax h_indexKeysTable h_collate
     h_buildFiles ii_collate ii_buildFiles h_integrateFiles ii_integrateFiles
     lastIdInDB noHistoryFiles noInvertedFiles).
Local Abbreviation build :=
  (BuildFiles h_endTxNumMinimax ii_endTxNumMinimax h_indexKeysTable
     h_collate h_buildFiles ii_collate ii_buildFiles h_integrateFiles
     ii_integrateFiles lastIdInDB noHistoryFiles noInvertedFiles).
Local Abbreviation task :=
  (runBuildTask h_endTxNumMinimax ii_endTxNumMinimax h_indexKeysTable
     h_collate h_buildFiles ii_collate ii_buildFiles h_integrateFiles
     ii_integrateFiles lastIdInDB noHistoryFiles noInvertedFiles).
Local Abbreviation ends :=
  (componentEnds h_endTxNumMinimax ii_endTxNumMinimax).
Local Abbreviation reopen :=
  (ReopenFiles NewHistory NewInvertedIndex h_endTxNumMinimax
     ii_endTxNumMinimax).

Lemma buildHistory_trace (c : component) (h : History) (step f t : Z)
  (db : DB) (old : HistoryFiles) :
  let r := buildHistory h_collate h_buildFiles c h step f t db old in
  (fst r = [Collated c step f t; Built c step]
   \/ (fst r = [Collated c step f t] /\ snd (snd r) <> None)).
Proof.
  cbv zeta. unfold buildHistory.
  destruct (h_collate h step f t db) as [coll [e |]].
  - right. split; [reflexivity | discriminate].
  - left. reflexivity.
Qed.

Lemma buildInverted_trace (c : component) (ii : InvertedIndex) (step f t : Z)
  (db : DB) (old : InvertedFiles) :
  let r := buildInverted ii_collate ii_buildFiles c ii step f t db old in
  (fst r = [Collated c step f t; Built c step]
   \/ (fst r = [Collated c step f t] /\ snd (snd r) <> None)).
Proof.
  cbv zeta. unfold buildInverted.
  destruct (ii_collate ii f t db) as [coll [e |]].
  - right. split; [reflexivity | discriminate].
  - left. reflexivity.
Qed.

Lemma buildFiles_trace (a : Agg) (step f t : Z) (db : DB) :
  (exists rest, fullBuildTrace step f t = fst (filesOf a step f t db) ++ rest)
  /\ (snd (snd (filesOf a step f t db)) = None ->
      fst (filesOf a step f t db) = fullBuildTrace step f t).
Proof.
  unfold fullBuildTrace. cbn [flat_map app].
  cbv beta iota zeta delta [buildFiles noStaticFiles sf_accounts sf_storage
    sf_code sf_logAddrs sf_logTopics sf_tracesFrom sf_tracesTo].
  build_stage buildHistory_trace. build_stage buildHistory_trace.
  build_stage buildHistory_trace. build_stage buildInverted_trace.
  build_stage buildInverted_trace. build_stage buildInverted_trace.
  static_files_simpl.
  match goal with
  | |- context [buildInverted _ _ ?c ?h ?s ?x ?y ?d ?o] =>
      pose proof (buildInverted_trace c h s x y d o) as H;
      cbv zeta in H;
      destruct (buildInverted ii_collate ii_buildFiles c h s x y d o)
        as [tk [fk ek]]
  end.
  cbn [fst snd app] in H |- *.
  destruct H as [-> | [-> H]].
  - split; [exists []; reflexivity | reflexivity].
  - split; [eexists; reflexivity | intros E; contradiction].
Qed.

Lemma buildFiles_quiet (a : Agg) (step f t : Z) (db : DB) :
  Forall (fun e => started e = false /\ integrated e = false)
    (fst (filesOf a step f t db)).
Proof.
  destruct (buildFiles_trace a step f t db) as [[rest Hrest] _].
  assert (Hfull : Forall (fun e => started e = false /\ integrated e = false)
                    (fullBuildTrace step f t))
    by (unfold fullBuildTrace; cbn [flat_map app];
        repeat constructor).
  rewrite Hrest in Hfull. apply Forall_app in Hfull. apply Hfull.
Qed.


(** X18. Building one step is all or nothing for the aggregator: when
    [buildFiles] fails the aggregator is returned unchanged and nothing was
    integrated; when it succeeds every component was built before the one
    integration, after which [maxTxNum] is the minimum over the components
    and [txNum], the step width, [keepInDB] and the two flags are as
    before. *)
Theorem buildFilesInBackground_all_or_nothing (a : Agg) (step : Z) (db : DB) :
  let r := buildStep a step db in
  let txFrom := uint64 (step * aggregationStep a) in
  let txTo := uint64 (uint64 (step + 1) * aggregationStep a) in
  (snd r <> None ->
   fst (fst r) = a
   /\ Forall (fun e => integrated e = false) (snd (fst r)))
  /\ (snd r = None ->
      snd (fst r) = fullBuildTrace step txFrom txTo ++ [Integrated txFrom txTo]
      /\ is_minimum_of (maxTxNum (fst (fst r))) (ends (fst (fst r)))
      /\ txNum (fst (fst r)) = txNum a
      /\ aggregationStep (fst (fst r)) = aggregationStep a
      /\ keepInDB (fst (fst r)) = keepInDB a
      /\ working (fst (fst r)) = working a
      /\ workingMerge (fst (fst r)) = workingMerge a).
Proof.
  cbv zeta. unfold buildFilesInBackground.
  pose proof (buildFiles_trace a step (uint64 (step * aggregationStep a))
                (uint64 (uint64 (step + 1) * aggregationStep a)) db) as Htr.
  pose proof (buildFiles_quiet a step (uint64 (step * aggregationStep a))
                (uint64 (uint64 (step + 1) * aggregationStep a)) db) as Hq.
  destruct (filesOf a step _ _ db) as [tr [sf [e |]]]; cbn [fst snd] in *.
  - split; [| discriminate]. intros _. split; [reflexivity |].
    eapply Forall_impl; [| exact Hq]. intros x [_ Hx]. exact Hx.
  - split; [intros H; contradiction |]. intros _.
    destruct Htr as [_ Htr]. rewrite (Htr eq_refl).
    split; [reflexivity |].
    split; [unfold integrateFiles; apply recalcMaxTxNum_minimum |].
    repeat split.
Qed.

Lemma buildStep_frame (a : Agg) (step : Z) (db : DB) :
  let r := buildStep a step db in
  working (fst (fst r)) = working a
  /\ workingMerge (fst (fst r)) = workingMerge a
  /\ aggregationStep (fst (fst r)) = aggregationStep a
  /\ (accounts (fst (fst r)) = accounts a
      \/ exists sf f t,
           accounts (fst (fst r)) = h_integrateFiles (accounts a) sf f t)
  /\ Forall (fun e => started e = false) (snd (fst r)).
Proof.
  cbv zeta. unfold buildFilesInBackground.
  pose proof (buildFiles_quiet a step (uint64 (step * aggregationStep a))
                (uint64 (uint64 (step + 1) * aggregationStep a)) db) as Hq.
  assert (Hs : Forall (fun e => started e = false)
                 (fst (filesOf a step (uint64 (step * aggregationStep a))
                         (uint64 (uint64 (step + 1) * aggregationStep a)) db)))
    by (eapply Forall_impl; [| exact Hq]; intros x [Hx _]; exact Hx).
  destruct (filesOf a step _ _ db) as [tr [sf [e |]]]; cbn [fst snd] in *.
  - repeat split; try assumption. left. reflexivity.
  - repeat split.
    + right. eexists. eexists. eexists. reflexivity.
    + apply Forall_app. split; [assumption |]. repeat constructor.
Qed.

Lemma buildLoop_frame (fuel : nat) (a a' : Agg) (step : Z) (db : DB)
  (tr : list event) :
  loop fuel a step db = Some (a', tr) ->
  working a' = working a /\ workingMerge a' = workingMerge a
  /\ Forall (fun e => started e = false) tr.
Proof.
  revert a step tr. induction fuel as [| fuel IH]; intros a step tr;
    cbn [buildLoop].
  - destruct (_ <? _); [discriminate |]. intros H. injection H as <- <-.
    repeat split. constructor.
  - destruct (_ <? _).
    + pose proof (buildStep_frame a step db) as Hf. cbv zeta in Hf.
      destruct (buildStep a step db) as [[a1 tr1] [e |]]; cbn [fst snd] in Hf;
        destruct Hf as (Hw & Hm & _ & _ & Hs).
      * intros H. injection H as <- <-. repeat split; assumption.
      * destruct (loop fuel a1 (uint64 (step + 1)) db) as [[a2 tr2] |] eqn:E;
          [| discriminate].
        intros H. injection H as <- <-.
        destruct (IH _ _ _ E) as (Hw2 & Hm2 & Hs2).
        split; [congruence |]. split; [congruence |].
        apply Forall_app. split; assumption.
    + intros H. injection H as <- <-. repeat split. constructor.
Qed.

(** X19. Under a positive step width, and with a key table name that
    integrating files does not change, [BuildFiles] returns within as many
    loop iterations as the database has full steps, and the error it returns
    is always [nil], whether or not a build failed. *)
Theorem BuildFiles_returns_nil (a : Agg) (db : DB) :
  0 < aggregationStep a ->
  0 <= maxTxNum a ->
  (forall h sf f t,
     h_indexKeysTable (h_integrateFiles h sf f t) = h_indexKeysTable h) ->
  lastIdInDB db (h_indexKeysTable (accounts a)) < 2 ^ 64 ->
  (forall fuel,
     (Z.to_nat (lastIdInDB db (h_indexKeysTable (accounts a))
                / aggregationStep a) <= fuel)%nat ->
     exists a' tr,
       BuildFiles h_endTxNumMinimax ii_endTxNumMinimax h_indexKeysTable
         h_collate h_buildFiles ii_collate ii_buildFiles h_integrateFiles
         ii_integrateFiles lastIdInDB noHistoryFiles noInvertedFiles fuel a db
       = Some (Ret (a', tr, None)))
  /\ (forall fuel a' tr err,
        BuildFiles h_endTxNumMinimax ii_endTxNumMinimax h_indexKeysTable
          h_collate h_buildFiles ii_collate ii_buildFiles h_integrateFiles
          ii_integrateFiles lastIdInDB noHistoryFiles noInvertedFiles fuel a db
        = Some (Ret (a', tr, err)) -> err = None).
Proof.
  intros Hpos Hmax Hstable Hlast. split.
  - assert (HL : lastIdInDB db (h_indexKeysTable (accounts a))
                 / aggregationStep a < 2 ^ 64).
    { apply Z.div_lt_upper_bound; [exact Hpos |]. nia. }
    set (tbl := h_indexKeysTable (accounts a)) in *.
    set (S := aggregationStep a) in *.
    set (L := lastIdInDB db tbl / S) in *.
    assert (Hloop : forall fuel x step,
              h_indexKeysTable (accounts x) = tbl ->
              aggregationStep x = S -> 0 <= step ->
              (Z.to_nat (L - step) <= fuel)%nat ->
              exists x' tr, loop fuel x step db = Some (x', tr)).
    { induction fuel as [| fuel IH]; intros x step Ht Hs Hstep Hfuel;
        cbn [buildLoop]; rewrite Ht, Hs; fold L;
        destruct (Z.ltb_spec step L) as [Hlt | Hge];
        try (eexists; eexists; reflexivity); [lia |].
      pose proof (buildStep_frame x step db) as Hf. cbv zeta in Hf.
      destruct (buildStep x step db) as [[x1 tr1] [e |]]; cbn [fst snd] in Hf;
        [eexists; eexists; reflexivity |].
      destruct Hf as (_ & _ & Hs1 & Hacc & _).
      assert (Ht1 : h_indexKeysTable (accounts x1) = tbl).
      { destruct Hacc as [-> | (sf & f & t & ->)];
          [assumption | rewrite Hstable; assumption]. }
      assert (Hu : uint64 (step + 1) = step + 1)
        by (unfold uint64; apply Z.mod_small; lia).
      rewrite Hu.
      destruct (IH x1 (step + 1) Ht1 (eq_trans Hs1 Hs) ltac:(lia) ltac:(lia))
        as (x2 & tr2 & ->).
      eexists. eexists. reflexivity. }
    intros fuel Hfuel. unfold BuildFiles.
    destruct (belowBuildThreshold a); [eexists; eexists; reflexivity |].
    destruct (Z.eqb_spec (aggregationStep a) 0); [lia |].
    unfold EndTxNumMinimax.
    destruct (Hloop fuel a (maxTxNum a / aggregationStep a) eq_refl eq_refl)
      as (x' & tr & ->);
      [apply Z.div_pos; lia | | eexists; eexists; reflexivity].
    assert (0 <= maxTxNum a / aggregationStep a) by (apply Z.div_pos; lia).
    fold L in Hfuel. lia.
  - intros fuel a' tr err. unfold BuildFiles.
    destruct (belowBuildThreshold a); [congruence |].
    destruct (aggregationStep a =? 0); [discriminate |].
    destruct (loop fuel a _ db) as [[x tr'] |]; [congruence | discriminate].
Qed.

(** X20. The build goroutine releases [working] however it ends; it does
    nothing else when the database does not yet hold the step it was started
    for; and it starts at most one merge goroutine, none when a merge is
    already marked as running, leaving [workingMerge] set whenever it had
    data. *)
Theorem runBuildTask_releases_working (fuel : nat) (a a' : Agg)
  (step toTxNum : Z) (db : DB) (ev : list event) :
  task fuel a step toTxNum db = Some (a', ev) ->
  working a' = false
  /\ (lastIdInDB db (h_indexKeysTable (accounts a)) < toTxNum ->
      a' = setWorking a false /\ ev = [])
  /\ (length (filter started ev) <= 1)%nat
  /\ (workingMerge a = true -> filter started ev = [])
  /\ (toTxNum <= lastIdInDB db (h_indexKeysTable (accounts a)) ->
      workingMerge a' = true).
Proof.
  unfold runBuildTask.
  destruct (Z.leb_spec toTxNum (lastIdInDB db (h_indexKeysTable (accounts a))))
    as [Hdata | Hno]; cbn [negb].
  - destruct (loop fuel a step db) as [[a1 tr] |] eqn:E; [| discriminate].
    destruct (buildLoop_frame _ _ _ _ _ _ E) as (Hw & Hm & Hs).
    assert (Hnone : filter started tr = []).
    { clear - Hs. induction Hs as [| x l Hx Hl IH]; cbn [filter];
        [reflexivity | rewrite Hx; exact IH]. }
    destruct (workingMerge a1) eqn:Em; intros H; injection H as <- <-.
    + split; [reflexivity |]. split; [lia |]. rewrite Hnone.
      split; [cbn; lia |]. split; [reflexivity |]. intros _. exact Em.
    + split; [reflexivity |]. split; [lia |].
      rewrite filter_app, Hnone. cbn [filter started app length].
      split; [lia |]. split; [| reflexivity].
      intros Ha. rewrite Hm in Em. congruence.
  - intros H. injection H as <- <-.
    split; [reflexivity |]. split; [intros _; split; reflexivity |].
    split; [cbn; lia |]. split; [reflexivity | lia].
Qed.

(** X21. [BuildFilesInBackground] returns [nil]; it either changes nothing
    or marks the aggregator as working and starts one build goroutine, for
    the step after [maxTxNum]; and a call made while that mark is set starts
    nothing. *)
Theorem BuildFilesInBackground_one_in_flight (a a1 : Agg) (db : DB)
  (ev : list event) (err : option error) :
  BuildFilesInBackground a db = Ret (a1, ev, err) ->
  err = None
  /\ ((a1 = a /\ ev = [])
      \/ (working a = false /\ a1 = setWorking a true
          /\ ev = [Started (BuildTask (maxTxNum a / aggregationStep a)
                      (uint64 (uint64 (maxTxNum a / aggregationStep a + 1)
                               * aggregationStep a)))]
          /\ BuildFilesInBackground a1 db = Ret (a1, [], None))).
Proof.
  unfold BuildFilesInBackground.
  destruct (belowBuildThreshold a) eqn:Eb.
  - intros H. injection H as <- <- <-. split; [reflexivity |]. left.
    split; reflexivity.
  - destruct (Z.eqb_spec (aggregationStep a) 0) as [E0 | N0]; [discriminate |].
    destruct (working a) eqn:Ew; intros H; injection H as <- <- <-;
      (split; [reflexivity |]).
    + left. split; reflexivity.
    + right. split; [reflexivity |]. split; [reflexivity |].
      split; [reflexivity |].
      change (belowBuildThreshold (setWorking a true))
        with (belowBuildThreshold a).
      rewrite Eb. cbn [aggregationStep setWorking working].
      destruct (Z.eqb_spec (aggregationStep a) 0); [contradiction |].
      reflexivity.
Qed.


End BuildProperties.

(** *** Instances *)


Lemma buildFilesInBackground_all_or_nothing_witness :
  let collate := fun (h : Z) (_ _ _ : Z) (_ : unit) =>
                   (tt, if h =? 3 then Some "no space"%string else None) in
  let icollate := fun (_ : Z) (_ _ : Z) (_ : unit) => (tt, @None error) in
  let files := fun (_ : Z) (_ : Z) (_ : unit) => (tt, @None error) in
  let integ := fun (_ : Z) (_ : unit) (_ to : Z) => to in
  let buildStep :=
    buildFilesInBackground (fun h => h) (fun i => i) collate files icollate
      files integ integ tt tt in
  let good := mkAggregatorV3 0 0 0 0 0 0 0 "dir" "tmp" 19 4 8 0 false false in
  let bad := mkAggregatorV3 0 0 3 0 0 0 0 "dir" "tmp" 19 4 8 0 false false in
  (snd (buildStep bad 0 tt) <> None /\ snd (buildStep good 0 tt) = None)
  /\ fst (fst (buildStep bad 0 tt)) = bad
  /\ snd (fst (buildStep good 0 tt))
     = fullBuildTrace 0 0 4 ++ [Integrated 0 4]
  /\ maxTxNum (fst (fst (buildStep good 0 tt))) = 4.
Proof.
  cbv zeta.
  pose proof (buildFilesInBackground_all_or_nothing
                (fun h : Z => h) (fun i : Z => i)
                (fun (h : Z) (_ _ _ : Z) (_ : unit) =>
                   (tt, if h =? 3 then Some "no space"%string else None))
                (fun (_ : Z) (_ : Z) (_ : unit) => (tt, @None error))
                (fun (_ : Z) (_ _ : Z) (_ : unit) => (tt, @None error))
                (fun (_ : Z) (_ : Z) (_ : unit) => (tt, @None error))
                (fun (_ : Z) (_ : unit) (_ to : Z) => to)
                (fun (_ : Z) (_ : unit) (_ to : Z) => to) tt tt
                (mkAggregatorV3 0 0 3 0 0 0 0 "dir" "tmp" 19 4 8 0 false false)
                0 tt) as Hbad.
  pose proof (buildFilesInBackground_all_or_nothing
                (fun h : Z => h) (fun i : Z => i)
                (fun (h : Z) (_ _ _ : Z) (_ : unit) =>
                   (tt, if h =? 3 then Some "no space"%string else None))
                (fun (_ : Z) (_ : Z) (_ : unit) => (tt, @None error))
                (fun (_ : Z) (_ _ : Z) (_ : unit) => (tt, @None error))
                (fun (_ : Z) (_ : Z) (_ : unit) => (tt, @None error))
                (fun (_ : Z) (_ : unit) (_ to : Z) => to)
                (fun (_ : Z) (_ : unit) (_ to : Z) => to) tt tt
                (mkAggregatorV3 0 0 0 0 0 0 0 "dir" "tmp" 19 4 8 0 false false)
                0 tt) as Hgood.
  cbv zeta in Hbad, Hgood.
  assert (Eb : snd (buildFilesInBackground (fun h : Z => h) (fun i : Z => i)
                 (fun (h : Z) (_ _ _ : Z) (_ : unit) =>
                    (tt, if h =? 3 then Some "no space"%string else None))
                 (fun (_ : Z) (_ : Z) (_ : unit) => (tt, @None error))
                 (fun (_ : Z) (_ _ : Z) (_ : unit) => (tt, @None error))
                 (fun (_ : Z) (_ : Z) (_ : unit) => (tt, @None error))
                 (fun (_ : Z) (_ : unit) (_ to : Z) => to)
                 (fun (_ : Z) (_ : unit) (_ to : Z) => to) tt tt
                 (mkAggregatorV3 0 0 3 0 0 0 0 "dir" "tmp" 19 4 8 0 false false)
                 0 tt) <> None)
    by (vm_compute; discriminate).
  assert (Eg : snd (buildFilesInBackground (fun h : Z => h) (fun i : Z => i)
                 (fun (h : Z) (_ _ _ : Z) (_ : unit) =>
                    (tt, if h =? 3 then Some "no space"%string else None))
                 (fun (_ : Z) (_ : Z) (_ : unit) => (tt, @None error))
                 (fun (_ : Z) (_ _ : Z) (_ : unit) => (tt, @None error))
                 (fun (_ : Z) (_ : Z) (_ : unit) => (tt, @None error))
                 (fun (_ : Z) (_ : unit) (_ to : Z) => to)
                 (fun (_ : Z) (_ : unit) (_ to : Z) => to) tt tt
                 (mkAggregatorV3 0 0 0 0 0 0 0 "dir" "tmp" 19 4 8 0 false false)
                 0 tt) = None)
    by (vm_compute; reflexivity).
  split; [split; [exact Eb | exact Eg] |].
  split; [exact (proj1 (proj1 Hbad Eb)) |].
  split; [exact (proj1 (proj2 Hgood Eg)) |].
  vm_compute. reflexivity.
Defined.

Lemma BuildFiles_returns_nil_witness :
  let collate := fun (_ : Z) (_ _ _ : Z) (_ : unit) => (tt, @None error) in
  let icollate := fun (_ : Z) (_ _ : Z) (_ : unit) => (tt, @None error) in
  let files := fun (_ : Z) (_ : Z) (_ : unit) => (tt, @None error) in
  let integ := fun (_ : Z) (_ : unit) (_ to : Z) => to in
  let last := fun (_ : unit) (_ : string) => 10 in
  let a := mkAggregatorV3 0 0 0 0 0 0 0 "dir" "tmp" 19 4 8 0 false false in
  (0 < aggregationStep a /\ 0 <= maxTxNum a /\ 10 < 2 ^ 64)
  /\ exists a' tr,
       BuildFiles (fun h => h) (fun i => i) (fun _ => "keys"%string) collate
         files icollate files integ integ last tt tt 2 a tt
       = Some (Ret (a', tr, None)).
Proof.
  cbv zeta. split; [cbn; lia |].
  apply (proj1 (BuildFiles_returns_nil (fun h : Z => h) (fun i : Z => i)
           (fun _ : Z => "keys"%string)
           (fun (_ : Z) (_ _ _ : Z) (_ : unit) => (tt, @None error))
           (fun (_ : Z) (_ : Z) (_ : unit) => (tt, @None error))
           (fun (_ : Z) (_ _ : Z) (_ : unit) => (tt, @None error))
           (fun (_ : Z) (_ : Z) (_ : unit) => (tt, @None error))
           (fun (_ : Z) (_ : unit) (_ to : Z) => to)
           (fun (_ : Z) (_ : unit) (_ to : Z) => to)
           (fun (_ : unit) (_ : string) => 10) tt tt
           (mkAggregatorV3 0 0 0 0 0 0 0 "dir" "tmp" 19 4 8 0 false false) tt
           ltac:(cbn; lia) ltac:(cbn; lia) ltac:(reflexivity)
           ltac:(cbn; lia)) 2%nat).
  vm_compute. lia.
Defined.

Lemma runBuildTask_releases_working_witness :
  let collate := fun (_ : Z) (_ _ _ : Z) (_ : unit) => (tt, @None error) in
  let icollate := fun (_ : Z) (_ _ : Z) (_ : unit) => (tt, @None error) in
  let files := fun (_ : Z) (_ : Z) (_ : unit) => (tt, @None error) in
  let integ := fun (_ : Z) (_ : unit) (_ to : Z) => to in
  let last := fun (_ : unit) (_ : string) => 10 in
  let a := mkAggregatorV3 0 0 0 0 0 0 0 "dir" "tmp" 19 4 8 0 true false in
  exists a' ev,
    runBuildTask (fun h => h) (fun i => i) (fun _ => "keys"%string) collate
      files icollate files integ integ last tt tt 2 a 0 4 tt = Some (a', ev)
    /\ working a' = false /\ workingMerge a' = true
    /\ (length (filter started ev) <= 1)%nat.
Proof.
  cbv zeta.
  destruct (runBuildTask (fun h : Z => h) (fun i : Z => i)
              (fun _ : Z => "keys"%string)
              (fun (_ : Z) (_ _ _ : Z) (_ : unit) => (tt, @None error))
              (fun (_ : Z) (_ : Z) (_ : unit) => (tt, @None error))
              (fun (_ : Z) (_ _ : Z) (_ : unit) => (tt, @None error))
              (fun (_ : Z) (_ : Z) (_ : unit) => (tt, @None error))
              (fun (_ : Z) (_ : unit) (_ to : Z) => to)
              (fun (_ : Z) (_ : unit) (_ to : Z) => to)
              (fun (_ : unit) (_ : string) => 10) tt tt 2
              (mkAggregatorV3 0 0 0 0 0 0 0 "dir" "tmp" 19 4 8 0 true false)
              0 4 tt) as [[a' ev] |] eqn:E;
    [| vm_compute in E; discriminate E].
  exists a', ev. split; [reflexivity |].
  destruct (runBuildTask_releases_working _ _ _ _ _ _ _ _ _ _ _ _ _ _ _ _ _ _ _
              E) as (Hw & _ & Hone & _ & Hm).
  split; [exact Hw |]. split; [| exact Hone].
  apply Hm. vm_compute. discriminate.
Defined.

Lemma BuildFilesInBackground_one_in_flight_witness :
  let a := mkAggregatorV3 (History := Z) (InvertedIndex := Z)
             0 0 0 0 0 0 0 "dir" "tmp" 19 4 8 0 false false in
  let a1 := setWorking a true in
  BuildFilesInBackground a tt = Ret (a1, [Started (BuildTask 0 4)], None)
  /\ BuildFilesInBackground a1 tt = Ret (a1, [], None).
Proof.
  cbv zeta.
  assert (E : BuildFilesInBackground
                (mkAggregatorV3 (History := Z) (InvertedIndex := Z)
                   0 0 0 0 0 0 0 "dir" "tmp" 19 4 8 0 false false) tt
              = Ret (setWorking
                       (mkAggregatorV3 (History := Z) (InvertedIndex := Z)
                          0 0 0 0 0 0 0 "dir" "tmp" 19 4 8 0 false false)
                       true,
                     [Started (BuildTask 0 4)], None))
    by reflexivity.
  split; [exact E |].
  destruct (BuildFilesInBackground_one_in_flight _ _ tt _ _ E)
    as [_ [[Heq _] | (_ & _ & _ & H)]].
  - discriminate Heq.
  - exact H.
Defined.



(** ** Closing selected files *)

Import Maintenance.

Lemma closeItem_decompressor {Decompressor Index : Type}
  (item : option (filesItem (Decompressor := Decompressor) (Index := Index)))
  (d : Decompressor) :
  In (DecompressorClosed d) (closeItem item)
  <-> exists it, item = Some it /\ decompressor it = Some d.
Proof.
  unfold closeItem. split.
  - destruct item as [it |]; [| intros []].
    intros H. exists it. split; [reflexivity |].
    destruct (decompressor it) as [d' |]; destruct (index it) as [i |];
      cbn in H; intuition congruence.
  - intros (it & -> & Hd). rewrite Hd. left. reflexivity.
Qed.

Lemma closeGroup_decompressor {Decompressor Index : Type}
  (g : list (option (filesItem (Decompressor := Decompressor)
                       (Index := Index))))
  (d : Decompressor) :
  In (DecompressorClosed d) (flat_map closeItem g)
  <-> exists it, In (Some it) g /\ decompressor it = Some d.
Proof.
  rewrite in_flat_map. split.
  - intros (item & Hin & Hc). apply closeItem_decompressor in Hc.
    destruct Hc as (it & -> & Hd). exists it. split; assumption.
  - intros (it & Hin & Hd). exists (Some it). split; [assumption |].
    apply closeItem_decompressor. exists it. split; [reflexivity | assumption].
Qed.

Lemma closeGroup_split {Decompressor Index : Type}
  (g : list (option (filesItem (Decompressor := Decompressor)
                       (Index := Index))))
  (d : Decompressor) :
  In (DecompressorClosed d) (flat_map closeItem g) ->
  exists p q, flat_map closeItem g = p ++ DecompressorClosed d :: q.
Proof. apply in_split. Qed.

(** X23. [SelectedStaticFilesV3.Close] closes a decompressor only when one of
    the nine groups other than [storageHist] holds it, so the files selected
    from the storage history stay open; and every decompressor of
    [accountsHist] is closed twice. *)
Theorem SelectedStaticFilesV3_Close_skips_storageHist
  {Decompressor Index : Type}
  (sf : SelectedStaticFilesV3 (Decompressor := Decompressor)
          (Index := Index)) :
  (forall d,
     In (DecompressorClosed d) (SelectedStaticFilesV3_Close sf) ->
     exists it,
       decompressor it = Some d
       /\ In (Some it)
            (ss_accountsIdx sf ++ ss_accountsHist sf ++ ss_storageIdx sf
             ++ ss_codeIdx sf ++ ss_codeHist sf ++ ss_logAddrs sf
             ++ ss_logTopics sf ++ ss_tracesFrom sf ++ ss_tracesTo sf))
  /\ (forall it d,
        In (Some it) (ss_accountsHist sf) ->
        decompressor it = Some d ->
        exists l1 l2 l3,
          SelectedStaticFilesV3_Close sf
          = l1 ++ DecompressorClosed d :: l2 ++ DecompressorClosed d :: l3).
Proof.
  unfold SelectedStaticFilesV3_Close. cbn [flat_map]. split.
  - intros d H. rewrite !in_app_iff in H.
    repeat rewrite closeGroup_decompressor in H.
    assert (Hex : exists it, decompressor it = Some d
                  /\ (In (Some it) (ss_accountsIdx sf)
                      \/ In (Some it) (ss_accountsHist sf)
                      \/ In (Some it) (ss_storageIdx sf)
                      \/ In (Some it) (ss_codeIdx sf)
                      \/ In (Some it) (ss_codeHist sf)
                      \/ In (Some it) (ss_logAddrs sf)
                      \/ In (Some it) (ss_logTopics sf)
                      \/ In (Some it) (ss_tracesFrom sf)
                      \/ In (Some it) (ss_tracesTo sf))).
    { destruct H as [(it & Hi & Hd) | [(it & Hi & Hd) | [(it & Hi & Hd)
        | [(it & Hi & Hd) | [(it & Hi & Hd) | [(it & Hi & Hd)
        | [(it & Hi & Hd) | [(it & Hi & Hd) | [(it & Hi & Hd)
        | [(it & Hi & Hd) | []]]]]]]]]]];
        exists it; (split; [exact Hd | tauto]). }
    destruct Hex as (it & Hd & Hin). exists it. split; [exact Hd |].
    rewrite !in_app_iff. tauto.
  - intros it d Hin Hd.
    destruct (closeGroup_split (ss_accountsHist sf) d) as (p & q & E).
    { apply closeGroup_decompressor. exists it. split; assumption. }
    rewrite E.
    exists (flat_map closeItem (ss_accountsIdx sf) ++ p),
      (q ++ flat_map closeItem (ss_storageIdx sf) ++ p),
      (q ++ flat_map closeItem (ss_codeIdx sf)
         ++ flat_map closeItem (ss_codeHist sf)
         ++ flat_map closeItem (ss_logAddrs sf)
         ++ flat_map closeItem (ss_logTopics sf)
         ++ flat_map closeItem (ss_tracesFrom sf)
         ++ flat_map closeItem (ss_tracesTo sf) ++ []).
    repeat (rewrite <- ?app_assoc; cbn [app]). reflexivity.
Qed.

Lemma SelectedStaticFilesV3_Close_skips_storageHist_witness :
  let held := mkFilesItem (Some 7) (Some 8) in
  let twice := mkFilesItem (Some 5) (@None Z) in
  let sf := mkSelectedStaticFilesV3 [] [Some twice] [] [] [Some held] [] []
              [] [] [] 0 0 0 0 0 0 0 in
  In (Some held) (ss_storageHist sf)
  /\ ~ In (DecompressorClosed 7) (SelectedStaticFilesV3_Close sf)
  /\ SelectedStaticFilesV3_Close sf
     = [DecompressorClosed 5; DecompressorClosed 5].
Proof.
  cbv zeta. split; [left; reflexivity |]. split; [| reflexivity].
  intros H.
  destruct (proj1 (SelectedStaticFilesV3_Close_skips_storageHist
                     (mkSelectedStaticFilesV3 []
                        [Some (mkFilesItem (Some 5) (@None Z))] [] []
                        [Some (mkFilesItem (Some 7) (Some 8))] [] [] [] [] []
                        0 0 0 0 0 0 0)) 7 H) as (it & Hd & Hin).
  cbn in Hin. destruct Hin as [Hit | []].
  injection Hit as <-. discriminate Hd.
Defined.

(** ** The key buffer of the storage readers *)

Lemma storageKey_fill (el sp addr loc : list Z) :
  length el = (length addr + length loc)%nat ->
  copyFrom (copyInto (mkSlice el sp) addr) (length addr) loc
  = Ret (mkSlice (addr ++ loc) sp).
Proof.
  intros Hl. unfold copyFrom, copyInto, reslice_from, len, copy.
  cbn [elems spare].
  rewrite firstn_all2 by lia.
  assert (Hs : length (skipn (length addr) el) = length loc)
    by (rewrite length_skipn; lia).
  rewrite length_app, Hs.
  destruct (Nat.leb_spec (length addr) (length addr + length loc));
    [| lia].
  cbn [bind elems spare]. f_equal. f_equal.
  rewrite firstn_app, firstn_all, Nat.sub_diag, firstn_O, app_nil_r.
  rewrite skipn_app, skipn_all, Nat.sub_diag, skipn_O. cbn [app].
  rewrite Hs, firstn_all.
  rewrite skipn_all2 by lia. rewrite app_nil_r. reflexivity.
Qed.

Lemma storageKey_spec (keyBuf : slice) (addr loc : list Z) :
  exists kb,
    storageKey keyBuf addr loc = Ret kb
    /\ elems kb = addr ++ loc
    /\ ((length addr + length loc <= cap keyBuf)%nat ->
        elems kb ++ spare kb
        = addr ++ loc
            ++ skipn (length addr + length loc) (elems keyBuf ++ spare keyBuf)).
Proof.
  unfold storageKey. destruct keyBuf as [el sp]. unfold cap, len, reslice.
  cbn [elems spare].
  destruct (Nat.ltb_spec (length el + length sp)
              (length addr + length loc)) as [Hsmall | Hfits].
  - cbn [bind]. unfold of_list, make.
    rewrite storageKey_fill by (rewrite repeat_length; reflexivity).
    eexists. split; [reflexivity |]. split; [reflexivity |]. lia.
  - destruct (Nat.eqb_spec (length el) (length addr + length loc))
      as [Heq | Hne]; cbn [negb bind].
    + rewrite storageKey_fill by assumption.
      eexists. split; [reflexivity |]. split; [reflexivity |].
      intros _. cbn [elems spare]. rewrite <- app_assoc. f_equal. f_equal.
      rewrite skipn_app, skipn_all2 by lia.
      replace (length addr + length loc - length el)%nat with 0%nat by lia.
      reflexivity.
    + unfold cap. cbn [elems spare andb Nat.leb].
      destruct (Nat.leb_spec (length addr + length loc)
                  (length el + length sp)); [| lia].
      cbn [bind skipn]. rewrite Nat.sub_0_r.
      rewrite storageKey_fill
        by (rewrite length_firstn, length_app; lia).
      eexists. split; [reflexivity |]. split; [reflexivity |].
      intros _. cbn [elems spare]. rewrite <- app_assoc. reflexivity.
Qed.

(** X24. Whatever the key buffer held before, and whatever its length and
    capacity, the two storage readers never panic, look up exactly
    [addr ++ loc], and leave that key in the buffer; a buffer that was large
    enough keeps its capacity. *)
Theorem ReadAccountStorageNoState_looks_up_addr_loc
  {HistoryContext Tx : Type}
  (hc_GetNoState :
     HistoryContext -> list Z -> Z -> list Z * bool * option error)
  (hc_GetNoStateWithRecent :
     HistoryContext -> list Z -> Z -> Tx -> list Z * bool * option error)
  (ac : AggregatorV3Context) (addr loc : list Z) (txNum : Z) :
  exists kb,
    ReadAccountStorageNoState hc_GetNoState ac addr loc txNum
    = Ret (mkAggregatorV3Context (ac_storage ac) kb (ac_tx ac),
           hc_GetNoState (ac_storage ac) (addr ++ loc) txNum)
    /\ ReadAccountStorageNoStateWithRecent hc_GetNoStateWithRecent ac addr
         loc txNum
       = Ret (mkAggregatorV3Context (ac_storage ac) kb (ac_tx ac),
              hc_GetNoStateWithRecent (ac_storage ac) (addr ++ loc) txNum
                (ac_tx ac))
    /\ elems kb = addr ++ loc
    /\ ((length addr + length loc <= cap (ac_keyBuf ac))%nat ->
        cap kb = cap (ac_keyBuf ac)).
Proof.
  destruct (storageKey_spec (ac_keyBuf ac) addr loc) as (kb & E & Hk & Hc).
  exists kb. unfold ReadAccountStorageNoState,
    ReadAccountStorageNoStateWithRecent.
  rewrite E. cbn [bind]. rewrite Hk.
  split; [reflexivity |]. split; [reflexivity |]. split; [reflexivity |].
  intros Hfit. specialize (Hc Hfit).
  apply (f_equal (@length Z)) in Hc.
  rewrite !length_app, length_skipn, length_app in Hc.
  unfold cap in *. lia.
Qed.

Lemma ReadAccountStorageNoState_looks_up_addr_loc_witness :
  let get := fun (_ : unit) (key : list Z) (_ : Z) =>
               (key, true, @None error) in
  let recent := fun (_ : unit) (key : list Z) (_ : Z) (_ : unit) =>
                  (key, false, @None error) in
  let ac := mkAggregatorV3Context tt (mkSlice [9; 9; 9; 9; 9] [8; 8; 8]) tt in
  (length [1; 2] + length [3] <= cap (ac_keyBuf ac))%nat
  /\ ReadAccountStorageNoState get ac [1; 2] [3] 0
     = Ret (mkAggregatorV3Context tt (mkSlice [1; 2; 3] [9; 9; 8; 8; 8]) tt,
            ([1; 2; 3], true, None))
  /\ cap (mkSlice [1; 2; 3] [9; 9; 8; 8; 8]) = cap (ac_keyBuf ac).
Proof.
  cbv zeta. split; [cbn; lia |].
  destruct (ReadAccountStorageNoState_looks_up_addr_loc
              (fun (_ : unit) (key : list Z) (_ : Z) =>
                 (key, true, @None error))
              (fun (_ : unit) (key : list Z) (_ : Z) (_ : unit) =>
                 (key, false, @None error))
              (mkAggregatorV3Context tt (mkSlice [9; 9; 9; 9; 9] [8; 8; 8]) tt)
              [1; 2] [3] 0) as (kb & E & _ & _ & Hc).
  rewrite E. vm_compute in E. injection E as <-.
  split; [reflexivity |]. apply Hc. cbn. lia.
Defined.

(** ** What may be pruned *)

Section PruneProperties.

Context {History InvertedIndex Tx : Type}.
Context (kv_FirstKey : Tx -> string -> slice * option error).
Context (TracesToKeys StorageHistoryKeys : string).

Local Abbreviation Agg := (AggregatorV3 (History := History)
                             (InvertedIndex := InvertedIndex)).
Local Abbreviation pruneFrom :=
  (CanPruneFrom kv_FirstKey TracesToKeys StorageHistoryKeys).
Local Abbreviation canPrune :=
  (CanPrune (History := History) (InvertedIndex := InvertedIndex)
     kv_FirstKey TracesToKeys StorageHistoryKeys).

(** X25. When the first keys of both tables start with an eight-byte
    big-endian stamp, [CanPruneFrom] is the smaller of the two stamps, and
    [CanPrune] holds exactly when that stamp is below [maxTxNum]. *)
Theorem CanPruneFrom_is_smaller_stamp (a : Agg) (tx : Tx) (x y : Z)
  (r1 r2 : list Z) :
  0 <= x < 2 ^ 64 -> 0 <= y < 2 ^ 64 ->
  elems (fst (kv_FirstKey tx TracesToKeys)) = bytes64 x ++ r1 ->
  elems (fst (kv_FirstKey tx StorageHistoryKeys)) = bytes64 y ++ r2 ->
  pruneFrom tx = Ret (Z.min x y)
  /\ canPrune a tx = Ret (Z.min x y <? maxTxNum a).
Proof.
  intros Hx Hy E1 E2. unfold CanPrune, CanPruneFrom.
  destruct (kv_FirstKey tx TracesToKeys) as [s1 e1].
  destruct (kv_FirstKey tx StorageHistoryKeys) as [s2 e2].
  cbn [fst] in E1, E2. unfold len. rewrite E1, E2.
  rewrite !Uint64_bytes64 by assumption.
  cbn [length app bytes64 Nat.ltb Nat.leb andb bind].
  split; reflexivity.
Qed.

(** X26. When either table is empty, or its first key is, [CanPruneFrom] is
    [MaxUint64] whatever the other table holds, so that [CanPrune] is false
    for every [maxTxNum] a [uint64] can hold. *)
Theorem CanPrune_false_on_empty_table (a : Agg) (tx : Tx) :
  len (fst (kv_FirstKey tx TracesToKeys)) = 0%nat
  \/ len (fst (kv_FirstKey tx StorageHistoryKeys)) = 0%nat ->
  maxTxNum a <= MaxUint64 ->
  pruneFrom tx = Ret MaxUint64 /\ canPrune a tx = Ret false.
Proof.
  intros Hempty Hmax. unfold CanPrune, CanPruneFrom.
  destruct (kv_FirstKey tx TracesToKeys) as [s1 e1].
  destruct (kv_FirstKey tx StorageHistoryKeys) as [s2 e2].
  cbn [fst] in Hempty.
  assert (Hc : ((0 <? len s1)%nat && (0 <? len s2)%nat) = false).
  { destruct Hempty as [-> | ->]; [reflexivity | apply andb_false_r]. }
  rewrite Hc. cbn [bind]. split; [reflexivity |].
  f_equal. apply Z.ltb_ge. exact Hmax.
Qed.

End PruneProperties.

Lemma CanPruneFrom_is_smaller_stamp_witness :
  let firstKey := fun (_ : unit) (table : string) =>
                    (of_list (if String.eqb table "TracesToKeys"
                              then bytes64 300 ++ [1; 2]
                              else bytes64 70000),
                     @None error) in
  let a := mkAggregatorV3 (History := Z) (InvertedIndex := Z)
             0 0 0 0 0 0 0 "dir" "tmp" 0 4 8 1000 false false in
  CanPruneFrom firstKey "TracesToKeys" "StorageHistoryKeys" tt = Ret 300
  /\ CanPrune firstKey "TracesToKeys" "StorageHistoryKeys" a tt = Ret true.
Proof.
  cbv zeta.
  apply (CanPruneFrom_is_smaller_stamp
           (fun (_ : unit) (table : string) =>
              (of_list (if String.eqb table "TracesToKeys"
                        then bytes64 300 ++ [1; 2]
                        else bytes64 70000),
               @None error))
           "TracesToKeys" "StorageHistoryKeys"
           (mkAggregatorV3 (History := Z) (InvertedIndex := Z)
              0 0 0 0 0 0 0 "dir" "tmp" 0 4 8 1000 false false)
           tt 300 70000 [1; 2] []);
    [lia | lia | reflexivity | reflexivity].
Defined.

Lemma CanPrune_false_on_empty_table_witness :
  let firstKey := fun (_ : unit) (table : string) =>
                    (if String.eqb table "TracesToKeys"
                     then of_list (bytes64 300) else nil_slice,
                     @None error) in
  let a := mkAggregatorV3 (History := Z) (InvertedIndex := Z)
             0 0 0 0 0 0 0 "dir" "tmp" 0 4 8 1000 false false in
  CanPruneFrom firstKey "TracesToKeys" "StorageHistoryKeys" tt
  = Ret MaxUint64
  /\ CanPrune firstKey "TracesToKeys" "StorageHistoryKeys" a tt = Ret false.
Proof.
  cbv zeta.
  apply (CanPrune_false_on_empty_table
           (fun (_ : unit) (table : string) =>
              (if String.eqb table "TracesToKeys"
               then of_list (bytes64 300) else nil_slice,
               @None error))
           "TracesToKeys" "StorageHistoryKeys"
           (mkAggregatorV3 (History := Z) (InvertedIndex := Z)
              0 0 0 0 0 0 0 "dir" "tmp" 0 4 8 1000 false false)
           tt);
    [right; reflexivity | vm_compute; discriminate].
Defined.

(** ** [Unwind] *)

Section UnwindProperties.

Context {History InvertedIndex Tx Collector LoadFunc : Type}.
Context (PlainState : string).
Context (etl_NewCollector : string -> string -> Collector).
Context (c_Collect :
  Collector -> list Z -> list Z -> Collector * option error).
Context (c_Load :
  Collector -> Tx -> string -> LoadFunc -> Tx * option error).
Context (h_pruneF :
  History -> Tx -> Z -> Z ->
  (Z -> list Z -> list Z -> Collector -> Collector * option error) ->
  Collector -> Tx * Collector * option error).
Context (ii_prune :
  InvertedIndex -> Tx -> Z -> Z -> Z -> Tx * option error).

Local Abbreviation Agg := (AggregatorV3 (History := History)
                             (InvertedIndex := InvertedIndex)).
Local Abbreviation unwind :=
  (Unwind PlainState etl_NewCollector c_Collect c_Load h_pruneF ii_prune).


End UnwindProperties.


(** ** Merging *)

Lemma errorsOf_app (l1 l2 : list (component * option error)) :
  errorsOf (l1 ++ l2) = errorsOf l1 ++ errorsOf l2.
Proof. apply flat_map_app. Qed.

Lemma errorsOf_nil_iff (l : list (component * option error)) :
  errorsOf l = [] <-> Forall (fun ce => snd ce = None) l.
Proof.
  induction l as [| [c [e |]] l IH]; cbn.
  - split; [constructor | reflexivity].
  - split; [discriminate | intros H; inversion H; discriminate].
  - rewrite IH. split.
    + intros H. constructor; [reflexivity | exact H].
    + intros H. inversion H. assumption.
Qed.

Lemma last_Some_nil_iff (l : list error) :
  last (map Some l) None = None <-> l = [].
Proof.
  split; [| intros ->; reflexivity].
  destruct l as [| x l] using rev_ind; [reflexivity |].
  rewrite map_app. cbn [map]. rewrite last_last. discriminate.
Qed.

Section MergeProperties.

Context {History InvertedIndex HistoryRanges Decompressor Index : Type}.

Local Abbreviation item := (filesItem (Decompressor := Decompressor)
                              (Index := Index)).

Context (hr_any : HistoryRanges -> bool).
Context (h_findMergeRange : History -> Z -> Z -> HistoryRanges).
Context (ii_findMergeRange : InvertedIndex -> Z -> Z -> bool * Z * Z).
Context (h_staticFilesInRange :
  History -> HistoryRanges -> list (option item) * list (option item) * Z).
Context (ii_staticFilesInRange :
  InvertedIndex -> Z -> Z -> list (option item) * Z).
Context (h_mergeFiles :
  History -> list (option item) -> list (option item) -> HistoryRanges -> Z ->
  option item * option item * option error).
Context (ii_mergeFiles :
  InvertedIndex -> list (option item) -> Z -> Z -> Z ->
  option item * option error).
Context (h_integrateMergedFiles :
  History -> list (option item) -> list (option item) -> option item ->
  option item -> History).
Context (ii_integrateMergedFiles :
  InvertedIndex -> list (option item) -> option item -> InvertedIndex).
Context (h_deleteFiles :
  History -> list (option item) -> list (option item) -> option error).
Context (ii_deleteFiles : InvertedIndex -> list (option item) -> option error).
Context (StepsInBiggestFile : Z).

Local Abbreviation Agg := (AggregatorV3 (History := History)
                             (InvertedIndex := InvertedIndex)).
Local Abbreviation merging := (mergeEvent (Decompressor := Decompressor)
                                 (Index := Index)).
Local Abbreviation merge := (mergeFiles hr_any h_mergeFiles ii_mergeFiles).
Local Abbreviation outcomes :=
  (mergeOutcomes hr_any h_mergeFiles ii_mergeFiles).
Local Abbreviation attempts out :=
  (map (fun ce : component * option error =>
          MergedComponent (Decompressor := Decompressor) (Index := Index)
            (fst ce)) out).
Local Abbreviation range a :=
  (findMergeRange h_findMergeRange ii_findMergeRange a (maxTxNum a)
     (uint64 (aggregationStep a * StepsInBiggestFile))).
Local Abbreviation selection a :=
  (staticFilesInRange hr_any h_staticFilesInRange ii_staticFilesInRange a
     (range a)).
Local Abbreviation step :=
  (mergeLoopStep hr_any h_findMergeRange ii_findMergeRange
     h_staticFilesInRange ii_staticFilesInRange h_mergeFiles ii_mergeFiles
     h_integrateMergedFiles ii_integrateMergedFiles h_deleteFiles
     ii_deleteFiles StepsInBiggestFile).
Local Abbreviation loop :=
  (MergeLoop hr_any h_findMergeRange ii_findMergeRange
     h_staticFilesInRange ii_staticFilesInRange h_mergeFiles ii_mergeFiles
     h_integrateMergedFiles ii_integrateMergedFiles h_deleteFiles
     ii_deleteFiles StepsInBiggestFile).

Lemma mergeHistory_errCh (c : component) (sel : bool)
  (call : option item * option item * option error)
  (assign : MergedFilesV3 -> option item -> option item -> MergedFilesV3)
  (st : mergeState) :
  ms_errCh (mergeHistory c sel call assign st)
  = ms_errCh st ++ errorsOf (if sel then [(c, snd call)] else []).
Proof.
  unfold mergeHistory, errorsOf.
  destruct sel; [destruct call as [[i h] [e |]] |]; cbn;
    rewrite ?app_nil_r; reflexivity.
Qed.

Lemma mergeHistory_trace (c : component) (sel : bool)
  (call : option item * option item * option error)
  (assign : MergedFilesV3 -> option item -> option item -> MergedFilesV3)
  (st : mergeState) :
  ms_trace (mergeHistory c sel call assign st)
  = ms_trace st ++ attempts (if sel then [(c, snd call)] else []).
Proof.
  unfold mergeHistory.
  destruct sel; [destruct call as [[i h] e] |]; cbn;
    rewrite ?app_nil_r; reflexivity.
Qed.

Lemma mergeInverted_errCh (c : component) (sel : bool)
  (call : option item * option error)
  (assign : MergedFilesV3 -> option item -> MergedFilesV3)
  (st : mergeState) :
  ms_errCh (mergeInverted c sel call assign st)
  = ms_errCh st ++ errorsOf (if sel then [(c, snd call)] else []).
Proof.
  unfold mergeInverted, errorsOf.
  destruct sel; [destruct call as [i [e |]] |]; cbn;
    rewrite ?app_nil_r; reflexivity.
Qed.

Lemma mergeInverted_trace (c : component) (sel : bool)
  (call : option item * option error)
  (assign : MergedFilesV3 -> option item -> MergedFilesV3)
  (st : mergeState) :
  ms_trace (mergeInverted c sel call assign st)
  = ms_trace st ++ attempts (if sel then [(c, snd call)] else []).
Proof.
  unfold mergeInverted.
  destruct sel; [destruct call as [i e] |]; cbn;
    rewrite ?app_nil_r; reflexivity.
Qed.

Lemma mergeFiles_shape (a : Agg) (files : SelectedStaticFilesV3)
  (r : RangesV3) (maxSpan workers : Z) :
  exists mf,
    merge a files r maxSpan workers
    = match last (map Some (errorsOf (outcomes a files r workers))) None with
      | None => (attempts (outcomes a files r workers), (mf, None))
      | Some e =>
          (attempts (outcomes a files r workers)
             ++ [ClosedMerged (MergedFilesV3_Close mf)],
           (mf, Some e))
      end.
Proof.
  unfold mergeFiles. cbv zeta.
  match goal with
  | |- context [ms_errCh ?st] => set (st7 := st)
  end.
  assert (He : ms_errCh st7 = errorsOf (outcomes a files r workers)).
  { subst st7.
    rewrite !mergeInverted_errCh, !mergeHistory_errCh.
    unfold mergeOutcomes. rewrite !errorsOf_app. cbn [ms_errCh app].
    rewrite <- !app_assoc. reflexivity. }
  assert (Ht : ms_trace st7 = attempts (outcomes a files r workers)).
  { subst st7.
    rewrite !mergeInverted_trace, !mergeHistory_trace.
    unfold mergeOutcomes. rewrite !map_app. cbn [ms_trace app].
    rewrite <- !app_assoc. reflexivity. }
  rewrite He, Ht. exists (ms_files st7).
  destruct (last _ None); reflexivity.
Qed.

(** X28. [mergeFiles] does not stop at a failure: it merges every component
    the ranges select, in order, and returns the error of the last one that
    failed, dropping the earlier errors; it returns [nil] exactly when every
    selected merge succeeded, and when it returns an error it has closed the
    files it returns, those of the merges that succeeded included. *)
Theorem mergeFiles_returns_last_error (a : Agg)
  (files : SelectedStaticFilesV3) (r : RangesV3) (maxSpan workers : Z) :
  let out := outcomes a files r workers in
  let res := merge a files r maxSpan workers in
  fst res
  = attempts out
      ++ match snd (snd res) with
         | None => []
         | Some _ => [ClosedMerged (MergedFilesV3_Close (fst (snd res)))]
         end
  /\ (snd (snd res) = None <-> Forall (fun ce => snd ce = None) out)
  /\ (forall pre c e post,
        out = pre ++ (c, Some e) :: post ->
        Forall (fun ce => snd ce = None) post ->
        snd (snd res) = Some e).
Proof.
  cbv zeta. destruct (mergeFiles_shape a files r maxSpan workers) as (mf & E).
  rewrite E. clear E.
  split; [| split].
  - destruct (last _ None); cbn [fst snd]; rewrite ?app_nil_r; reflexivity.
  - rewrite <- errorsOf_nil_iff, <- last_Some_nil_iff.
    destruct (last _ None); cbn [fst snd];
      (split; [intros H; try discriminate H; reflexivity
              | intros H; try discriminate H; reflexivity]).
  - intros pre c e post Hout Hpost. rewrite Hout.
    rewrite errorsOf_app.
    change ((c, Some e) :: post) with ([(c, Some e)] ++ post).
    rewrite errorsOf_app.
    rewrite (proj2 (errorsOf_nil_iff post) Hpost), app_nil_r.
    cbn [errorsOf flat_map snd app]. rewrite map_app. cbn [map].
    rewrite last_last. reflexivity.
Qed.

Lemma untilError_quiet (calls : list (component * option error)) :
  Forall (fun e : merging => closes e = false /\ integratesMerged e = false)
    (fst (untilError calls)).
Proof.
  induction calls as [| [c [e |]] calls IH]; cbn [untilError fst].
  - constructor.
  - repeat constructor.
  - destruct (untilError calls) as [tr err]. cbn [fst] in *.
    constructor; [split; reflexivity | exact IH].
Qed.

Lemma attempts_quiet (out : list (component * option error)) :
  Forall (fun e : merging => closes e = false /\ integratesMerged e = false)
    (attempts out).
Proof.
  induction out as [| ce out IH]; cbn [map]; constructor;
    [split; reflexivity | exact IH].
Qed.

Lemma mergeLoopStep_frame (a : Agg) (workers : Z) :
  let res := step a workers in
  maxTxNum (fst (fst res)) = maxTxNum a
  /\ aggregationStep (fst (fst res)) = aggregationStep a
  /\ (fst (snd res) = false <-> any hr_any (range a) = false)
  /\ (fst (snd res) = false -> fst (fst res) = a).
Proof.
  cbv zeta. unfold mergeLoopStep. cbv zeta.
  destruct (any hr_any (range a)) eqn:Eany; cbn [negb fst snd];
    [| repeat split; reflexivity].
  destruct (merge a (selection a) (range a) _ workers) as [tr [inp [e |]]];
    cbn [fst snd].
  - split; [reflexivity |]. split; [reflexivity |].
    split; [split; discriminate | discriminate].
  - destruct (deleteFiles _ _ _ _) as [trd [e |]]; cbn [fst snd];
      (split; [reflexivity |]; split; [reflexivity |];
       split; [split; discriminate | discriminate]).
Qed.

(** X29. One merge round keeps [maxTxNum] and the step width as they were.
    It does nothing exactly when no range is found.  Nothing is closed on a
    round that returns [nil]; a round that fails closes the selected files
    last, whether the merge or the deletion failed; and the aggregator is
    changed only on a round that integrated merged files. *)
Theorem mergeLoopStep_closes_on_failure_only (a : Agg) (workers : Z) :
  let res := step a workers in
  let a' := fst (fst res) in
  let tr := snd (fst res) in
  maxTxNum a' = maxTxNum a
  /\ aggregationStep a' = aggregationStep a
  /\ (fst (snd res) = false <-> any hr_any (range a) = false)
  /\ (fst (snd res) = false -> a' = a /\ tr = [] /\ snd (snd res) = None)
  /\ (snd (snd res) = None -> Forall (fun e => closes e = false) tr)
  /\ (snd (snd res) <> None ->
      exists tr0,
        tr = tr0 ++ [ClosedSelected
                       (SelectedStaticFilesV3_Close (selection a))])
  /\ (Forall (fun e => integratesMerged e = false) tr -> a' = a).
Proof.
  cbv zeta. unfold mergeLoopStep. cbv zeta.
  destruct (any hr_any (range a)) eqn:Eany; cbn [negb fst snd].
  2: { repeat split; try reflexivity; try constructor; try discriminate.
       intros H. contradiction. }
  destruct (mergeFiles_shape a (selection a) (range a)
              (uint64 (aggregationStep a * StepsInBiggestFile)) workers)
    as (mf & E).
  rewrite E. clear E.
  pose proof (attempts_quiet (outcomes a (selection a) (range a) workers))
    as Hq.
  destruct (last _ None) as [e |]; cbn [fst snd].
  - split; [reflexivity |]. split; [reflexivity |].
    split; [split; discriminate |]. split; [discriminate |].
    split; [discriminate |].
    split; [intros _; eexists; reflexivity | reflexivity].
  - pose proof untilError_quiet as Hd.
    unfold deleteFiles.
    match goal with
    | |- context [untilError ?calls] =>
        specialize (Hd calls); destruct (untilError calls) as [trd [e |]]
    end; cbn [fst snd] in Hd |- *.
    + split; [reflexivity |]. split; [reflexivity |].
      split; [split; discriminate |]. split; [discriminate |].
      split; [discriminate |].
      split.
      * intros _.
        exists (attempts (outcomes a (selection a) (range a) workers)
                ++ IntegratedMerged :: trd
                ++ [ClosedMerged (MergedFilesV3_Close mf)]).
        rewrite <- !app_assoc. cbn [app]. rewrite <- !app_assoc.
        reflexivity.
      * intros H. apply Forall_app in H. destruct H as [_ H].
        inversion H as [| x l Hx Hl]. discriminate Hx.
    + split; [reflexivity |]. split; [reflexivity |].
      split; [split; discriminate |]. split; [discriminate |].
      split.
      * intros _. apply Forall_app. split.
        -- eapply Forall_impl; [| exact Hq]. intros x [Hx _]. exact Hx.
        -- constructor; [reflexivity |].
           eapply Forall_impl; [| exact Hd]. intros x [Hx _]. exact Hx.
      * split; [intros H; contradiction |].
        intros H. apply Forall_app in H. destruct H as [_ H].
        inversion H as [| x l Hx Hl]. discriminate Hx.
Qed.

(** X30. [MergeLoop] never moves [maxTxNum] or the step width, and it returns
    [nil] only from a state in which no range is left to merge.  Whenever a
    successful round brings the aggregator closer to that state, by some
    measure, the loop returns within that many rounds. *)
Theorem MergeLoop_merges_until_nothing_is_left (a : Agg) (workers : Z) :
  (forall fuel a' tr err,
     loop fuel a workers = Some (a', tr, err) ->
     maxTxNum a' = maxTxNum a
     /\ aggregationStep a' = aggregationStep a
     /\ (err = None -> any hr_any (range a') = false))
  /\ (forall measure : Agg -> nat,
        (forall x,
           any hr_any (range x) = true ->
           snd (snd (step x workers)) = None ->
           (measure (fst (fst (step x workers))) < measure x)%nat) ->
        forall fuel,
          (measure a < fuel)%nat -> exists r, loop fuel a workers = Some r).
Proof.
  split.
  - intros fuel. revert a. induction fuel as [| fuel IH]; intros a a' tr err;
      cbn [MergeLoop]; [discriminate |].
    pose proof (mergeLoopStep_frame a workers) as Hs. cbv zeta in Hs.
    destruct (step a workers) as [[a1 tr1] [done [e |]]]; cbn [fst snd] in Hs;
      destruct Hs as (Hm & Hw & Hany & Hsame).
    + intros H. injection H as <- <- <-.
      split; [exact Hm |]. split; [exact Hw | discriminate].
    + destruct done; cbn [negb].
      * destruct (loop fuel a1 workers) as [[[a2 tr2] err2] |] eqn:E;
          [| discriminate].
        intros H. injection H as <- <- <-.
        destruct (IH _ _ _ _ E) as (Hm2 & Hw2 & Hany2).
        split; [congruence |]. split; [congruence | exact Hany2].
      * intros H. injection H as <- <- <-.
        split; [exact Hm |]. split; [exact Hw |]. intros _.
        rewrite (Hsame eq_refl). apply Hany. reflexivity.
  - intros measure Hdec fuel. revert a.
    induction fuel as [| fuel IH]; intros a Hfuel; [lia |].
    cbn [MergeLoop].
    pose proof (mergeLoopStep_frame a workers) as Hs. cbv zeta in Hs.
    pose proof (Hdec a) as Hd.
    destruct (step a workers) as [[a1 tr1] [done [e |]]]; cbn [fst snd] in *;
      [eexists; reflexivity |].
    destruct done; cbn [negb]; [| eexists; reflexivity].
    destruct Hs as (_ & _ & Hany & _).
    assert (Ha : any hr_any (range a) = true).
    { destruct (any hr_any (range a)); [reflexivity |].
      assert (true = false) by (apply Hany; reflexivity). discriminate. }
    destruct (IH a1) as ([[a2 tr2] err2] & ->);
      [specialize (Hd Ha eq_refl); lia | eexists; reflexivity].
Qed.

End MergeProperties.

(** *** Instances *)

Lemma mergeFiles_returns_last_error_witness :
  let selected := fun r : nat => (1 <? r)%nat in
  let hmerge := fun (h : nat) (_ _ : list (option filesItem)) (_ : nat)
                    (_ : Z) =>
                  (Some (mkFilesItem (Some (Z.of_nat h)) (@None Z)),
                   @None filesItem,
                   if (h =? 6)%nat then Some "first"%string
                   else if (h =? 7)%nat then Some "second"%string
                        else None) in
  let imerge := fun (_ : unit) (_ : list (option filesItem)) (_ _ _ : Z) =>
                  (@None (filesItem (Decompressor := Z) (Index := Z)),
                   @None error) in
  let a := mkAggregatorV3 3%nat tt 7%nat tt tt tt 6%nat "dir" "tmp" 0 4 8 64
             false false in
  let r := mkRangesV3 6%nat 3%nat 7%nat 0 0 0 0 0 0 0 0 false false false
             false in
  let files := mkSelectedStaticFilesV3 [] [] [] [] [] [] [] [] [] []
                 0 0 0 0 0 0 0 in
  mergeOutcomes selected hmerge imerge a files r 1
  = [(Accounts, Some "first"%string); (Storage, None);
     (Code, Some "second"%string)]
  /\ snd (snd (mergeFiles selected hmerge imerge a files r 128 1))
     = Some "second"%string
  /\ fst (mergeFiles selected hmerge imerge a files r 128 1)
     = [MergedComponent Accounts; MergedComponent Storage;
        MergedComponent Code;
        ClosedMerged [DecompressorClosed 6; DecompressorClosed 3;
                      DecompressorClosed 7]].
Proof.
  cbv zeta. split; [reflexivity |]. split; [| reflexivity].
  match goal with
  | |- snd (snd (mergeFiles ?s ?h ?i ?a ?f ?r ?m ?w)) = _ =>
      pose proof (mergeFiles_returns_last_error s h i a f r m w) as H
  end.
  cbv zeta in H. destruct H as (_ & _ & H).
  apply (H [(Accounts, Some "first"%string); (Storage, None)] Code
           "second"%string []); [reflexivity | constructor].
Defined.

Lemma mergeLoopStep_closes_on_failure_only_witness :
  let selected := fun r : nat => (1 <? r)%nat in
  let hrange := fun (h : nat) (_ _ : Z) => h in
  let irange := fun (_ : unit) (_ _ : Z) => (false, 0, 0) in
  let hfiles := fun (h r : nat) =>
                  ([Some (mkFilesItem (Some (Z.of_nat h)) (@None Z))],
                   @nil (option filesItem), 0) in
  let ifiles := fun (_ : unit) (_ _ : Z) =>
                  (@nil (option (filesItem (Decompressor := Z)
                                   (Index := Z))), 0) in
  let hmerge := fun (h : nat) (_ _ : list (option filesItem)) (_ : nat)
                    (_ : Z) =>
                  (Some (mkFilesItem (Some (Z.of_nat h + 100)) (@None Z)),
                   @None filesItem,
                   if (h =? 7)%nat then Some "second"%string else None) in
  let imerge := fun (_ : unit) (_ : list (option filesItem)) (_ _ _ : Z) =>
                  (@None (filesItem (Decompressor := Z) (Index := Z)),
                   @None error) in
  let hinteg := fun (h : nat) (_ _ : list (option filesItem))
                    (_ _ : option filesItem) => Nat.min h 1 in
  let iinteg := fun (i : unit) (_ : list (option filesItem))
                    (_ : option filesItem) => i in
  let hdel := fun (_ : nat) (_ _ : list (option filesItem)) =>
                @None error in
  let idel := fun (_ : unit) (_ : list (option filesItem)) => @None error in
  let a := mkAggregatorV3 3%nat tt 7%nat tt tt tt 1%nat "dir" "tmp" 0 4 8 64
             false false in
  let res := mergeLoopStep selected hrange irange hfiles ifiles hmerge imerge
               hinteg iinteg hdel idel 32 a 1 in
  snd res = (true, Some "second"%string)
  /\ maxTxNum (fst (fst res)) = 64
  /\ exists tr0,
       snd (fst res)
       = tr0 ++ [ClosedSelected [DecompressorClosed 3; DecompressorClosed 7]].
Proof.
  cbv zeta. split; [reflexivity |].
  match goal with
  | |- context [mergeLoopStep ?f1 ?f2 ?f3 ?f4 ?f5 ?f6 ?f7 ?f8 ?f9 ?f10 ?f11
                  ?n ?a ?w] =>
      pose proof (mergeLoopStep_closes_on_failure_only f1 f2 f3 f4 f5 f6 f7
                    f8 f9 f10 f11 n a w) as H
  end.
  cbv zeta in H. destruct H as (Hm & _ & _ & _ & _ & Hc & _).
  split; [exact Hm |].
  destruct Hc as (tr0 & Htr); [vm_compute; discriminate |].
  exists tr0. rewrite Htr. reflexivity.
Defined.

Lemma MergeLoop_merges_until_nothing_is_left_witness :
  let selected := fun r : nat => (1 <? r)%nat in
  let hrange := fun (h : nat) (_ _ : Z) => h in
  let irange := fun (_ : unit) (_ _ : Z) => (false, 0, 0) in
  let hfiles := fun (h r : nat) =>
                  ([Some (mkFilesItem (Some (Z.of_nat h)) (@None Z))],
                   @nil (option filesItem), 0) in
  let ifiles := fun (_ : unit) (_ _ : Z) =>
                  (@nil (option (filesItem (Decompressor := Z)
                                   (Index := Z))), 0) in
  let hmerge := fun (h : nat) (_ _ : list (option filesItem)) (_ : nat)
                    (_ : Z) =>
                  (Some (mkFilesItem (Some (Z.of_nat h + 100)) (@None Z)),
                   @None filesItem, @None error) in
  let imerge := fun (_ : unit) (_ : list (option filesItem)) (_ _ _ : Z) =>
                  (@None (filesItem (Decompressor := Z) (Index := Z)),
                   @None error) in
  let hinteg := fun (h : nat) (_ _ : list (option filesItem))
                    (_ _ : option filesItem) => Nat.min h 1 in
  let iinteg := fun (i : unit) (_ : list (option filesItem))
                    (_ : option filesItem) => i in
  let hdel := fun (_ : nat) (_ _ : list (option filesItem)) =>
                @None error in
  let idel := fun (_ : unit) (_ : list (option filesItem)) => @None error in
  let a := mkAggregatorV3 1%nat tt 4%nat tt tt tt 3%nat "dir" "tmp" 0 4 8 64
             false false in
  exists a' tr,
    MergeLoop selected hrange irange hfiles ifiles hmerge imerge hinteg
      iinteg hdel idel 32 9 a 1 = Some (a', tr, None)
    /\ any selected (findMergeRange hrange irange a' (maxTxNum a')
                       (uint64 (aggregationStep a' * 32))) = false
    /\ maxTxNum a' = 64
    /\ (accounts a', storage a', code a') = (1%nat, 1%nat, 1%nat).
Proof.
  cbv zeta.
  match goal with
  | |- context [MergeLoop ?f1 ?f2 ?f3 ?f4 ?f5 ?f6 ?f7 ?f8 ?f9 ?f10 ?f11
                  ?n _ ?a ?w] =>
      pose proof (MergeLoop_merges_until_nothing_is_left f1 f2 f3 f4 f5 f6
                    f7 f8 f9 f10 f11 n a w) as [Hnil Hret]
  end.
  destruct (Hret (fun x => (accounts x + storage x + code x)%nat)) with
    (fuel := 9%nat) as ([[a' tr] err] & E).
  - intros x Hsel Herr. unfold mergeLoopStep in *. cbv zeta in *.
    rewrite Hsel in *. cbn [negb] in *.
    destruct (mergeFiles _ _ _ _ _ _ _ _) as [tr [inp [e |]]];
      [cbn in Herr; discriminate Herr |].
    destruct (deleteFiles _ _ _ _) as [trd [e |]];
      [cbn in Herr; discriminate Herr |].
    destruct x as [sto tto cod la lto tf acc d t n w k m wk wm].
    cbn [fst snd integrateMergedFiles setComponents accounts storage code].
    unfold any, findMergeRange in Hsel.
    cbn [accounts storage code r_accounts r_storage r_code r_logAddrs
         r_logTopics r_tracesFrom r_tracesTo] in Hsel.
    rewrite !orb_false_r in Hsel.
    apply orb_true_iff in Hsel. destruct Hsel as [Hsel | Hsel].
    + apply orb_true_iff in Hsel.
      destruct Hsel as [Hsel | Hsel]; apply Nat.ltb_lt in Hsel; lia.
    + apply Nat.ltb_lt in Hsel. lia.
  - cbn. lia.
  - pose proof E as E'. vm_compute in E'.
    injection E' as Ha Ht He. subst a' tr err.
    eexists. eexists. split; [exact E |].
    destruct (Hnil _ _ _ _ E) as (Hm & _ & Hany).
    split; [apply Hany; reflexivity |]. split; reflexivity.
Defined.
